(** * TOB calculator: statement parsing, grouping, rate resolution and tax

    A shallow embedding of [tob_calculator.py] and the properties its
    specification states about it.

    Conventions of the embedding.
    - A Python [float] is an IEEE-754 binary64 value, [spec_float] with
      [prec = 53] and [emax = 1024]; a Python [int] is a [Z].
    - A Python [str] is a [string]; the embedding covers ASCII text, so the
      character classes of [str.strip], [str.split] and of the [re] module
      are their ASCII parts.
    - A raised exception is an [exn] carried by [result]; [try]/[except]
      is [catch], which handles the listed classes only.
    - A [dict] whose iteration order is observable (the grouping table) is
      an association list in insertion order; the rate table is a [gmap].
    - The statements enter as the text read from them and the rate feed as
      the parsed document: reading PDF files, the download and the XML
      parser are outside the embedding.
    - Library behaviour that depends on the interpreter is that of CPython
      3.11 with its defaults: [sum] adds its items one after the other
      (later versions compensate the rounding of float sums), and [int]
      refuses literals of more than 4300 digits. *)

From Stdlib Require Import ZArith Lia String Ascii List Floats.SpecFloat.
From stdpp Require Import base option list gmap strings sorting.

Local Open Scope string_scope.
Local Open Scope Z_scope.

(** ** Exceptions *)

Inductive exn_kind :=
  | Exception       (* raised as such, no subclass *)
  | ValueError | IndexError | AttributeError | OverflowError | ZeroDivisionError
  | TypeError.

Record exn := Raise { kind : exn_kind; message : string }.

Inductive result (A : Type) :=
  | Ok (a : A)
  | Err (e : exn).
Arguments Ok {A} a.
Arguments Err {A} e.

Global Instance exn_kind_eq_dec : EqDecision exn_kind.
Proof. solve_decision. Defined.

Global Instance result_ret : MRet result := fun A a => Ok a.

Global Instance result_bind : MBind result := fun A B k r =>
  match r with
  | Ok a => k a
  | Err e => Err e
  end.

(** [try: body except (kinds): handler] *)
Definition catch {A} (kinds : list exn_kind) (body : result A) (handler : result A)
  : result A :=
  match body with
  | Ok a => Ok a
  | Err e => if decide (kind e ∈ kinds) then handler else Err e
  end.

Definition is_ok {A} (r : result A) : bool :=
  match r with Ok _ => true | Err _ => false end.

(** ** Floats *)

Module PyFloat.

Definition prec : Z := 53.
Definition emax : Z := 1024.

Definition float := spec_float.

Definition add : float -> float -> float := SFadd prec emax.
Definition mul : float -> float -> float := SFmul prec emax.
Definition ltb : float -> float -> bool := SFltb.
Definition leb : float -> float -> bool := SFleb.
Definition eqb : float -> float -> bool := SFeqb.
Definition abs : float -> float := SFabs.

Definition zero : float := S754_zero false.

Definition is_zero (x : float) : bool :=
  match x with S754_zero _ => true | _ => false end.

(** [x / y]: division by a zero raises. *)
Definition truediv (x y : float) : result float :=
  if is_zero y then Err (Raise ZeroDivisionError "float division by zero")
  else Ok (SFdiv prec emax x y).

(** [float(n)] for an [int]; a magnitude beyond the largest finite double
    comes out as an infinity here and the callers decide what that means. *)
Definition of_Z (n : Z) : float := binary_normalize prec emax n 0 false.

(** The double nearest to [n / d] (ties to even), [n >= 0] and [d > 0]. *)
Definition of_ratio (s : bool) (n : Z) (d : positive) : float :=
  match n with
  | Zpos p => SFdiv prec emax (S754_finite s p 0) (S754_finite false d 0)
  | _ => S754_zero s
  end.

(** The double nearest to [m * 10^e], [m >= 0]: what [float(str)] yields
    for a decimal literal. *)
Definition of_decimal (s : bool) (m e : Z) : float :=
  match e with
  | Zneg k => of_ratio s m (Pos.pow 10 k)
  | _ =>
      match m * 10 ^ e with
      | Zpos p => binary_normalize prec emax (if s then Zneg p else Zpos p) 0 false
      | _ => S754_zero s
      end
  end.

(** [round_half_even (n / d)] for [n >= 0], [d > 0]. *)
Definition div_half_even (n d : Z) : Z :=
  let q := n / d in
  let r := n mod d in
  match 2 * r ?= d with
  | Lt => q
  | Gt => q + 1
  | Eq => if Z.even q then q else q + 1
  end.

(** [round(x, 2)]: the exact value of [x] is rounded half-even to two
    decimals, and the double nearest to that decimal is returned.  Zeros,
    infinities and NaN round to themselves. *)
Definition round2 (x : float) : float :=
  match x with
  | S754_finite s m e =>
      let hundredths :=
        match e with
        | Zneg k => div_half_even (Zpos m * 100) (Zpos (Pos.pow 2 k))
        | _ => Zpos m * 2 ^ e * 100
        end in
      of_ratio s hundredths 100
  | _ => x
  end.

(** [int(x)] for a float: truncation toward zero. *)
Definition to_Z (x : float) : result Z :=
  match x with
  | S754_zero _ => Ok 0
  | S754_finite s m e =>
      let a := match e with
               | Zneg k => Zpos m / Zpos (Pos.pow 2 k)
               | _ => Zpos m * 2 ^ e
               end in
      Ok (if s then - a else a)
  | S754_infinity _ =>
      Err (Raise OverflowError "cannot convert float infinity to integer")
  | S754_nan =>
      Err (Raise ValueError "cannot convert float NaN to integer")
  end.

(** Literals of the source. *)
Definition one : float := Eval vm_compute in of_decimal false 1 0.
Definition two : float := Eval vm_compute in of_decimal false 2 0.
Definition tax_rate : float := Eval vm_compute in of_decimal false 35 (-4).

End PyFloat.

(** ** Strings *)

Module PyStr.

Definition code (c : ascii) : N := N_of_ascii c.

Definition between (lo hi : N) (c : ascii) : bool :=
  ((lo <=? code c) && (code c <=? hi))%N.

(** [str.isspace] on ASCII: TAB..CR, the four separators FS..US, space. *)
Definition is_space (c : ascii) : bool := between 9 13 c || between 28 32 c.
(** the blanks [int] and [float] skip around a literal: TAB..CR and space *)
Definition is_blank (c : ascii) : bool := between 9 13 c || Ascii.eqb c " ".
Definition is_digit (c : ascii) : bool := between 48 57 c.
Definition is_upper (c : ascii) : bool := between 65 90 c.
Definition is_lower (c : ascii) : bool := between 97 122 c.
(** [\w] on ASCII *)
Definition is_word (c : ascii) : bool :=
  is_digit c || is_upper c || is_lower c || Ascii.eqb c "_".

Definition lower_char (c : ascii) : ascii :=
  if is_upper c then ascii_of_N (code c + 32) else c.

Fixpoint lower (s : string) : string :=
  match s with
  | EmptyString => EmptyString
  | String c s' => String (lower_char c) (lower s')
  end.

Definition len (s : string) : Z := Z.of_nat (String.length s).

Fixpoint lstrip (s : string) : string :=
  match s with
  | String c s' => if is_space c then lstrip s' else s
  | EmptyString => EmptyString
  end.

Definition rstrip (s : string) : string := String.rev (lstrip (String.rev s)).

(** [s.strip()] *)
Definition strip (s : string) : string := rstrip (lstrip s).

Fixpoint skip_blanks (s : string) : string :=
  match s with
  | String c s' => if is_blank c then skip_blanks s' else s
  | EmptyString => EmptyString
  end.

(** a numeric literal without the blanks around it *)
Definition unblank (s : string) : string :=
  String.rev (skip_blanks (String.rev (skip_blanks s))).

(** [s.split(sep)] for a one-character separator: never an empty list. *)
Fixpoint split (sep : ascii) (s : string) : list string :=
  match s with
  | EmptyString => [EmptyString]
  | String c s' =>
      if Ascii.eqb c sep then EmptyString :: split sep s'
      else match split sep s' with
           | h :: t => String c h :: t
           | [] => [String c EmptyString]
           end
  end.

(** [s.split()]: the maximal runs of non-space characters. *)
Fixpoint split_ws_go (cur : option string) (s : string) : list string :=
  match s with
  | EmptyString =>
      match cur with Some w => [String.rev w] | None => [] end
  | String c s' =>
      if is_space c then
        match cur with
        | Some w => String.rev w :: split_ws_go None s'
        | None => split_ws_go None s'
        end
      else
        split_ws_go (Some (String c (default EmptyString cur))) s'
  end.

Definition split_ws : string -> list string := split_ws_go None.

(** [s.replace(c, by)] for a one-character pattern *)
Fixpoint replace (c : ascii) (by_ : string) (s : string) : string :=
  match s with
  | EmptyString => EmptyString
  | String a s' =>
      if Ascii.eqb a c then by_ +:+ replace c by_ s' else String a (replace c by_ s')
  end.

(** [sub in s] *)
Fixpoint contains (sub s : string) : bool :=
  String.prefix sub s ||
  match s with
  | EmptyString => false
  | String _ s' => contains sub s'
  end.

(** [s.find(sub)], [None] for -1 *)
Fixpoint find (sub s : string) : option nat :=
  if String.prefix sub s then Some 0%nat
  else match s with
       | EmptyString => None
       | String _ s' => S <$> find sub s'
       end.

(** [s[n:]] and [s[:n]] for [n >= 0] *)
Fixpoint drop (n : nat) (s : string) : string :=
  match n, s with
  | S n', String _ s' => drop n' s'
  | _, _ => s
  end.

Fixpoint take (n : nat) (s : string) : string :=
  match n, s with
  | S n', String c s' => String c (take n' s')
  | _, _ => EmptyString
  end.

Definition startswith (s p : string) : bool := String.prefix p s.

(** [l[i]] for [i >= 0] *)
Definition item (l : list string) (i : nat) : result string :=
  match l !! i with
  | Some x => Ok x
  | None => Err (Raise IndexError "list index out of range")
  end.

Definition digit_char (d : Z) : ascii := ascii_of_N (48 + Z.to_N d).

(** [f"{n:02d}"] for [0 <= n < 100] and the four-digit year of [strftime] *)
Definition fmt02 (n : Z) : string :=
  String (digit_char (n / 10)) (String (digit_char (n mod 10)) EmptyString).

Definition fmt04 (n : Z) : string :=
  String (digit_char (n / 1000)) (String (digit_char (n / 100 mod 10))
    (String (digit_char (n / 10 mod 10)) (String (digit_char (n mod 10)) EmptyString))).

(** *** [int(s)] and [float(s)] *)

(** The digits of [s] as a number, [None] unless [s] is a non-empty run of
    digits. *)
Fixpoint digits_go (acc : Z) (s : string) : option Z :=
  match s with
  | EmptyString => Some acc
  | String c s' =>
      if is_digit c then digits_go (10 * acc + Z.of_N (code c - 48)) s' else None
  end.

Definition digits (s : string) : option Z :=
  match s with
  | EmptyString => None
  | _ => digits_go 0 s
  end.

(** A numeric literal may group its digits with single underscores, each
    between two digits; [None] when one is misplaced. *)
Fixpoint ungroup_go (prev : option ascii) (s : string) : option string :=
  match s with
  | EmptyString =>
      if bool_decide (prev = Some "_"%char) then None else Some EmptyString
  | String c s' =>
      if Ascii.eqb c "_" then
        match prev with
        | Some p => if is_digit p then ungroup_go (Some c) s' else None
        | None => None
        end
      else if bool_decide (prev = Some "_"%char) && negb (is_digit c) then None
      else String c <$> ungroup_go (Some c) s'
  end.

Definition ungroup : string -> option string := ungroup_go None.

Definition split_sign (s : string) : bool * string :=
  match s with
  | String "-" s' => (true, s')
  | String "+" s' => (false, s')
  | _ => (false, s)
  end.

Definition value_error {A} (what s : string) : result A :=
  Err (Raise ValueError (what +:+ s)).

(** the default of [sys.get_int_max_str_digits()] *)
Definition MAX_STR_DIGITS : nat := 4300.

(** [int(s)], base ten; a literal of more digits than the limit is refused *)
Definition int (s : string) : result Z :=
  let '(neg, body) := split_sign (unblank s) in
  match ungroup body with
  | Some ds =>
      match digits ds with
      | Some n =>
          if (MAX_STR_DIGITS <? String.length ds)%nat
          then value_error "Exceeds the limit for integer string conversion: " s
          else Ok (if neg then - n else n)
      | None => value_error "invalid literal for int() with base 10: " s
      end
  | None => value_error "invalid literal for int() with base 10: " s
  end.

(** The first position of an exponent marker. *)
Fixpoint split_exp (s : string) : string * option string :=
  match s with
  | EmptyString => (EmptyString, None)
  | String c s' =>
      if Ascii.eqb c "e" || Ascii.eqb c "E" then (EmptyString, Some s')
      else let '(m, e) := split_exp s' in (String c m, e)
  end.

Fixpoint split_point (s : string) : string * option string :=
  match s with
  | EmptyString => (EmptyString, None)
  | String c s' =>
      if Ascii.eqb c "." then (EmptyString, Some s')
      else let '(i, f) := split_point s' in (String c i, f)
  end.

Definition digits_or_empty (s : string) : option Z := digits_go 0 s.

(** [digits [. digits] [e [sign] digits]], at least one mantissa digit:
    the mantissa and the decimal exponent. *)
Definition decimal (s : string) : option (Z * Z) :=
  let '(mant, ex) := split_exp s in
  let '(ip, fp) := split_point mant in
  let fp' := default EmptyString fp in
  if (String.length ip + String.length fp' =? 0)%nat then None
  else
    i ← digits_or_empty ip;
    f ← digits_or_empty fp';
    e ← match ex with
         | None => Some 0
         | Some x => let '(neg, d) := split_sign x in
                     n ← digits d; Some (if neg then - n else n)
         end;
    Some (i * 10 ^ Z.of_nat (String.length fp') + f, e - Z.of_nat (String.length fp')).

(** [float(s)] *)
Definition float (s : string) : result PyFloat.float :=
  let '(neg, body) := split_sign (unblank s) in
  let name := lower body in
  if decide (name = "inf" ∨ name = "infinity") then Ok (S754_infinity neg)
  else if decide (name = "nan") then Ok S754_nan
  else
    match ungroup body ≫= decimal with
    | Some (m, e) => Ok (PyFloat.of_decimal neg m e)
    | None => value_error "could not convert string to float: " s
    end.

End PyStr.

(** ** Regular expressions

    The backtracking matcher of the [re] module for the constructs the
    source's patterns use: a pattern is tried at a position, alternatives
    left to right, a greedy repetition longest first, a lazy one shortest
    first, and the first overall success is the match. *)

Module Re.

Inductive regex :=
  | Eps
  | Chr (p : ascii -> bool)          (* one character of a class *)
  | Seq (r1 r2 : regex)
  | Alt (r1 r2 : regex)              (* r1|r2 *)
  | Star (r : regex)                 (* r*  *)
  | LazyStar (r : regex)             (* r*? *)
  | Group (n : nat) (r : regex)      (* the n-th capturing group *)
  | Bol                              (* ^   *)
  | WordB.                           (* \b  *)

Record cursor := Cursor {
  prev : option ascii;               (* the character before the position *)
  rest : string;                     (* the text from the position on *)
  pos : nat;
  groups : list (nat * (nat * nat))  (* group, start, end; latest first *)
}.

Definition next (c : cursor) : option ascii :=
  match rest c with
  | String a _ => Some a
  | EmptyString => None
  end.

Definition wordish (o : option ascii) : bool :=
  match o with Some a => PyStr.is_word a | None => false end.

Section Run.
Context {A : Type}.

Definition orelse (x y : option A) : option A :=
  match x with Some _ => x | None => y end.

Fixpoint run (r : regex) (c : cursor) (k : cursor -> option A) : option A :=
  match r with
  | Eps => k c
  | Chr p =>
      match rest c with
      | String a s' =>
          if p a then k (Cursor (Some a) s' (S (pos c)) (groups c)) else None
      | EmptyString => None
      end
  | Seq r1 r2 => run r1 c (fun c' => run r2 c' k)
  | Alt r1 r2 => orelse (run r1 c k) (run r2 c k)
  | Star r' =>
      (fix iter (fuel : nat) (c : cursor) : option A :=
         match fuel with
         | O => k c
         | S fuel' =>
             orelse
               (run r' c (fun c' =>
                  if (pos c <? pos c')%nat then iter fuel' c' else None))
               (k c)
         end) (String.length (rest c)) c
  | LazyStar r' =>
      (fix iter (fuel : nat) (c : cursor) : option A :=
         match fuel with
         | O => k c
         | S fuel' =>
             orelse
               (k c)
               (run r' c (fun c' =>
                  if (pos c <? pos c')%nat then iter fuel' c' else None))
         end) (String.length (rest c)) c
  | Group n r' =>
      run r' c (fun c' =>
        k (Cursor (prev c') (rest c') (pos c')
                  ((n, (pos c, pos c')) :: groups c')))
  | Bol => if (pos c =? 0)%nat then k c else None
  | WordB => if xorb (wordish (prev c)) (wordish (next c)) then k c else None
  end.
End Run.

(** A successful match: where it ends and what its groups span. *)
Record matched := Matched {
  subject : string;
  m_start : nat;
  m_end : nat;
  m_groups : list (nat * (nat * nat))
}.

Definition try_at (r : regex) (subj : string) (c : cursor) : option matched :=
  run r c (fun c' => Some (Matched subj (pos c) (pos c') (groups c'))).

(** [re.match(r, s)] *)
Definition match_ (r : regex) (s : string) : option matched :=
  try_at r s (Cursor None s 0 []).

Fixpoint search_go (r : regex) (subj : string) (p : option ascii) (s : string)
    (i : nat) : option matched :=
  match try_at r subj (Cursor p s i []) with
  | Some m => Some m
  | None =>
      match s with
      | String a s' => search_go r subj (Some a) s' (S i)
      | EmptyString => None
      end
  end.

(** [re.search(r, s)]: the match at the leftmost position that has one. *)
Definition search (r : regex) (s : string) : option matched :=
  search_go r s None s 0.

(** [m.group(n)] for a group that took part in the match *)
Definition group (m : matched) (n : nat) : option string :=
  '(a, b) ← snd <$> List.find (fun g => (fst g =? n)%nat) (m_groups m);
  Some (String.substring a (b - a) (subject m)).

(** [re.findall(r, s)] for a pattern with one group: the group's text at
    each successive non-overlapping match, left to right. *)
Fixpoint findall_go (r : regex) (subj : string) (p : option ascii) (s : string)
    (i skip : nat) : list string :=
  match skip with
  | S skip' =>
      match s with
      | String a s' => findall_go r subj (Some a) s' (S i) skip'
      | EmptyString => []
      end
  | O =>
      match try_at r subj (Cursor p s i []) with
      | Some m =>
          default EmptyString (group m 1) ::
          match s with
          | String a s' => findall_go r subj (Some a) s' (S i) (m_end m - i - 1)
          | EmptyString => []
          end
      | None =>
          match s with
          | String a s' => findall_go r subj (Some a) s' (S i) 0
          | EmptyString => []
          end
      end
  end.

Definition findall (r : regex) (s : string) : list string :=
  findall_go r s None s 0 0.

(** *** Pattern combinators *)

Definition chr (a : ascii) : regex := Chr (Ascii.eqb a).
(** a character under [re.IGNORECASE] *)
Definition chr_i (a : ascii) : regex :=
  Chr (fun x => Ascii.eqb (PyStr.lower_char x) (PyStr.lower_char a)).

Fixpoint lit (s : string) : regex :=
  match s with
  | EmptyString => Eps
  | String a EmptyString => chr a
  | String a s' => Seq (chr a) (lit s')
  end.

Fixpoint lit_i (s : string) : regex :=
  match s with
  | EmptyString => Eps
  | String a EmptyString => chr_i a
  | String a s' => Seq (chr_i a) (lit_i s')
  end.

Fixpoint alts (rs : list regex) : regex :=
  match rs with
  | [] => Eps
  | [r] => r
  | r :: rs' => Alt r (alts rs')
  end.

Fixpoint seqs (rs : list regex) : regex :=
  match rs with
  | [] => Eps
  | [r] => r
  | r :: rs' => Seq r (seqs rs')
  end.

Definition plus (r : regex) : regex := Seq r (Star r).       (* r+ *)
Definition opt (r : regex) : regex := Alt r Eps.             (* r? *)
Definition digit : regex := Chr PyStr.is_digit.              (* \d *)
Definition word : regex := Chr PyStr.is_word.                (* \w *)
Definition space : regex := Chr PyStr.is_space.              (* \s *)
Definition any : regex := Chr (fun a => negb (Ascii.eqb a "010")). (* . *)
Definition range (lo hi : ascii) : regex :=
  Chr (PyStr.between (N_of_ascii lo) (N_of_ascii hi)).

End Re.

(** ** Calendar dates ([datetime]) *)

Module PyDate.

Record date := Date { year : Z; month : Z; day : Z }.

Definition is_leap (y : Z) : bool :=
  (y mod 4 =? 0) && (negb (y mod 100 =? 0) || (y mod 400 =? 0)).

Definition days_before_year (y : Z) : Z :=
  let y := y - 1 in y * 365 + y / 4 - y / 100 + y / 400.

Definition DAYS_IN_MONTH : list Z := [31; 28; 31; 30; 31; 30; 31; 31; 30; 31; 30; 31].
Definition DAYS_BEFORE_MONTH : list Z :=
  [0; 31; 59; 90; 120; 151; 181; 212; 243; 273; 304; 334].

Definition nth_month (table : list Z) (m : Z) : Z :=
  default 0 (table !! Z.to_nat (m - 1)).

Definition days_in_month (y m : Z) : Z :=
  if (m =? 2) && is_leap y then 29 else nth_month DAYS_IN_MONTH m.

Definition days_before_month (y m : Z) : Z :=
  nth_month DAYS_BEFORE_MONTH m + (if (2 <? m) && is_leap y then 1 else 0).

(** the proleptic Gregorian ordinal, 0001-01-01 being day 1 *)
Definition ymd2ord (d : date) : Z :=
  days_before_year (year d) + days_before_month (year d) (month d) + day d.

Definition DI400Y : Z := 146097.
Definition DI100Y : Z := 36524.
Definition DI4Y : Z := 1461.
Definition MAXORDINAL : Z := 3652059.

Definition ord2ymd (n : Z) : date :=
  let n := n - 1 in
  let n400 := n / DI400Y in let n := n mod DI400Y in
  let n100 := n / DI100Y in let n := n mod DI100Y in
  let n4 := n / DI4Y in let n := n mod DI4Y in
  let n1 := n / 365 in let n := n mod 365 in
  let y := n400 * 400 + 1 + n100 * 100 + n4 * 4 + n1 in
  if (n1 =? 4) || (n100 =? 4) then Date (y - 1) 12 31
  else
    let leapyear := (n1 =? 3) && (negb (n4 =? 24) || (n100 =? 3)) in
    let m := Z.shiftr (n + 50) 5 in
    let preceding :=
      nth_month DAYS_BEFORE_MONTH m + (if (2 <? m) && leapyear then 1 else 0) in
    if n <? preceding then
      let m' := m - 1 in
      let preceding' :=
        preceding
        - (nth_month DAYS_IN_MONTH m' + (if (m' =? 2) && leapyear then 1 else 0)) in
      Date y m' (n - preceding' + 1)
    else Date y m (n - preceding + 1).

(** [datetime(y, m, d)] *)
Definition make (y m d : Z) : result date :=
  if (1 <=? y) && (y <=? 9999) && (1 <=? m) && (m <=? 12)
     && (1 <=? d) && (d <=? days_in_month y m)
  then Ok (Date y m d)
  else Err (Raise ValueError "date value out of range").

(** the pattern [strptime] compiles ['%Y-%m-%d'] to *)
Definition ymd_regex : Re.regex :=
  Re.seqs
    [ Re.Group 1 (Re.seqs [Re.digit; Re.digit; Re.digit; Re.digit]);
      Re.chr "-";
      Re.Group 2 (Re.alts [ Re.Seq (Re.chr "1") (Re.range "0" "2");
                            Re.Seq (Re.chr "0") (Re.range "1" "9");
                            Re.range "1" "9" ]);
      Re.chr "-";
      Re.Group 3 (Re.alts [ Re.Seq (Re.chr "3") (Re.range "0" "1");
                            Re.Seq (Re.range "1" "2") Re.digit;
                            Re.Seq (Re.chr "0") (Re.range "1" "9");
                            Re.range "1" "9";
                            Re.Seq (Re.chr " ") (Re.range "1" "9") ]) ].

Definition group_int (m : Re.matched) (n : nat) : result Z :=
  match Re.group m n with
  | Some g => PyStr.int g
  | None => Err (Raise IndexError "no such group")
  end.

(** [datetime.strptime(s, '%Y-%m-%d')] *)
Definition strptime (s : string) : result date :=
  match Re.match_ ymd_regex s with
  | None => PyStr.value_error "time data does not match format '%Y-%m-%d': " s
  | Some m =>
      if negb (Re.m_end m =? String.length s)%nat
      then PyStr.value_error "unconverted data remains: " s
      else
        y ← group_int m 1;
        mo ← group_int m 2;
        d ← group_int m 3;
        make y mo d
  end.

(** [d - timedelta(days=i)] *)
Definition sub_days (d : date) (i : Z) : result date :=
  let n := ymd2ord d - i in
  if (1 <=? n) && (n <=? MAXORDINAL) then Ok (ord2ymd n)
  else Err (Raise OverflowError "date value out of range").

(** [d.strftime('%Y-%m-%d')], the year printed with four digits: so it is
    everywhere from the year 1000 on; for earlier years the C library
    decides whether zeros are put in front. *)
Definition strftime (d : date) : string :=
  PyStr.fmt04 (year d) +:+ "-" +:+ PyStr.fmt02 (month d) +:+ "-" +:+ PyStr.fmt02 (day d).

End PyDate.

(** ** The rate resolver *)

Module Ecb.

(** The historical-rate document as [ET.fromstring] hands it over: the
    [<Cube time=...>] elements in document order, each with its
    [<Cube currency=...>] children, a child being its [currency] attribute
    and its [rate] attribute, if it has one. *)
Record cube := Cube { time : string; entries : list (string * option string) }.

Definition document := list cube.

End Ecb.

(** [float(curr_cube.get('rate'))] *)
Definition float_of_attribute (rate : option string) : result PyFloat.float :=
  match rate with
  | Some s => PyStr.float s
  | None => Err (Raise TypeError "float() argument must be a string or a real number")
  end.

(** The loop over the children of a dated cube. *)
Fixpoint read_rates (entries : list (string * option string))
    (rates : gmap string PyFloat.float) : result (gmap string PyFloat.float) :=
  match entries with
  | [] => Ok rates
  | (currency, rate_attribute) :: rest =>
      rate ← float_of_attribute rate_attribute;
      read_rates rest (<[currency := rate]> rates)
  end.

(** The row built from one dated cube: EUR to EUR first, then each listed
    currency. *)
Definition rate_row (c : Ecb.cube) : result (gmap string PyFloat.float) :=
  read_rates (Ecb.entries c) {[ "EUR" := PyFloat.one ]}.

Definition cube_on (root : Ecb.document) (d : string) : option Ecb.cube :=
  List.find (fun c => String.eqb (Ecb.time c) d) root.

Definition no_rate_found (date : string) : exn :=
  Raise ValueError ("No ECB rate found for " +:+ date +:+ " or 5 days prior").

Fixpoint fallback_search (root : Ecb.document) (date : string)
    (current_date : PyDate.date) (days : list Z) : result (gmap string PyFloat.float) :=
  match days with
  | [] => Err (no_rate_found date)
  | i :: days' =>
      prev ← PyDate.sub_days current_date i;
      match cube_on root (PyDate.strftime prev) with
      | Some c => rate_row c
      | None => fallback_search root date current_date days'
      end
  end.

Definition get_rate_with_fallback (root : Ecb.document) (date : string)
  : result (gmap string PyFloat.float) :=
  current_date ← PyDate.strptime date;
  fallback_search root date current_date [1; 2; 3; 4; 5].

(** The first loop of [fetch_ecb_rates]: the rows of the requested dates
    that the document publishes, a later cube of a date replacing an
    earlier one. *)
Fixpoint published_rates (cubes : list Ecb.cube) (dates_needed : list string)
    (rates : gmap string (gmap string PyFloat.float))
  : result (gmap string (gmap string PyFloat.float)) :=
  match cubes with
  | [] => Ok rates
  | date_cube :: rest =>
      if bool_decide (Ecb.time date_cube ∈ dates_needed) then
        row ← rate_row date_cube;
        published_rates rest dates_needed (<[Ecb.time date_cube := row]> rates)
      else published_rates rest dates_needed rates
  end.

(** The second loop: each requested date still missing gets the row of a
    recent earlier date, or the whole call fails. *)
Fixpoint fill_missing (root : Ecb.document) (dates : list string)
    (rates : gmap string (gmap string PyFloat.float))
  : result (gmap string (gmap string PyFloat.float)) :=
  match dates with
  | [] => Ok rates
  | date :: dates' =>
      match rates !! date with
      | Some _ => fill_missing root dates' rates
      | None =>
          row ← get_rate_with_fallback root date;
          fill_missing root dates' (<[date := row]> rates)
      end
  end.

(** [fetch_ecb_rates], from the parsed document on; [dates_needed] is the
    requested set in the order the loop visits it. *)
Definition fetch_ecb_rates (root : Ecb.document) (dates_needed : list string)
  : result (gmap string (gmap string PyFloat.float)) :=
  rates ← published_rates root dates_needed ∅;
  fill_missing root dates_needed rates.

(** ** Transaction records

    The three dictionaries of the pipeline, one record each, the fields
    named after the dictionary keys. *)

(** what an extractor emits *)
Module Raw.
Record t := Make {
  date : string; broker : string; stock : string; type : string;
  shares : Z; currency : string; amount : PyFloat.float
}.
End Raw.

(** what [group_transactions] returns *)
Module Grouped.
Record t := Make {
  date : string; broker : string; stock : string; type : string;
  shares : Z; currency : string; amount : PyFloat.float;
  grouped_count : Z
}.
End Grouped.

(** what [calculate_tob] returns *)
Module Taxed.
Record t := Make {
  date : string; broker : string; stock : string; type : string;
  shares : Z; currency : string; amount : PyFloat.float;
  grouped_count : Z;
  rate : PyFloat.float; eur_amount : PyFloat.float; tob : PyFloat.float
}.
End Taxed.

Global Instance float_eq_dec : EqDecision PyFloat.float.
Proof. unfold PyFloat.float. solve_decision. Defined.

Global Instance raw_eq_dec : EqDecision Raw.t.
Proof. solve_decision. Defined.

Global Instance grouped_eq_dec : EqDecision Grouped.t.
Proof. solve_decision. Defined.

(** ** The grouper *)

(** (date, broker, stock, type, currency) *)
Definition group_key : Type := string * string * string * string * string.

Definition key_of (t : Raw.t) : group_key :=
  (Raw.date t, Raw.broker t, Raw.stock t, Raw.type t, Raw.currency t).

(** one value of the [defaultdict] *)
Record bucket := Bucket {
  b_shares : Z;
  b_amount : PyFloat.float;
  b_transactions : list Raw.t
}.

Definition new_bucket : bucket := Bucket 0 PyFloat.zero [].

Definition bucket_add (b : bucket) (t : Raw.t) : bucket :=
  Bucket (b_shares b + Raw.shares t)
         (PyFloat.add (b_amount b) (Raw.amount t))
         (b_transactions b ++ [t]).

(** [grouped[key]] updated in place; a key seen for the first time goes to
    the end of the dictionary. *)
Fixpoint bucket_update (k : group_key) (t : Raw.t) (grouped : list (group_key * bucket))
  : list (group_key * bucket) :=
  match grouped with
  | [] => [(k, bucket_add new_bucket t)]
  | (k', b) :: rest =>
      if decide (k = k') then (k', bucket_add b t) :: rest
      else (k', b) :: bucket_update k t rest
  end.

Definition collect (transactions : list Raw.t) : list (group_key * bucket) :=
  foldl (fun grouped t => bucket_update (key_of t) t grouped) [] transactions.

Definition group_record (kb : group_key * bucket) : Grouped.t :=
  let '(date, broker, stock, trans_type, currency, data) := kb in
  Grouped.Make date broker stock trans_type (b_shares data) currency (b_amount data)
               (Z.of_nat (length (b_transactions data))).

(** the sort key [(x['date'], x['broker'], x['stock'])] *)
Definition sort_key (g : Grouped.t) : string * string * string :=
  (Grouped.date g, Grouped.broker g, Grouped.stock g).

(** [a <= b] on such tuples: decided at the first component that differs *)
Definition tuple_leb (a b : string * string * string) : bool :=
  let '(a1, a2, a3) := a in
  let '(b1, b2, b3) := b in
  if String.eqb a1 b1 then
    if String.eqb a2 b2 then String.leb a3 b3 else String.leb a2 b2
  else String.leb a1 b1.

Definition key_le (x y : Grouped.t) : Prop := tuple_leb (sort_key x) (sort_key y).

Global Instance key_le_dec : RelDecision key_le.
Proof. intros x y. unfold key_le. apply _. Defined.

(** [sorted(l, key=...)]: a stable sort; an element goes before the first
    one whose key is not smaller. *)
Fixpoint insert_sorted (x : Grouped.t) (l : list Grouped.t) : list Grouped.t :=
  match l with
  | [] => [x]
  | y :: l' => if decide (key_le x y) then x :: l else y :: insert_sorted x l'
  end.

Definition sorted (l : list Grouped.t) : list Grouped.t := foldr insert_sorted [] l.

Definition group_transactions (transactions : list Raw.t) : list Grouped.t :=
  sorted (group_record <$> collect transactions).

(** ** The tax engine *)

Definition no_rate (currency date : string) : exn :=
  Raise ValueError ("No ECB rate for " +:+ currency +:+ " on " +:+ date).

Definition lookup_rate (ecb_rates : gmap string (gmap string PyFloat.float))
    (date currency : string) : result PyFloat.float :=
  match ecb_rates !! date ≫= (fun row => row !! currency) with
  | Some rate => Ok rate
  | None => Err (no_rate currency date)
  end.

(** the body of the loop of [calculate_tob] *)
Definition tax_transaction (ecb_rates : gmap string (gmap string PyFloat.float))
    (t : Grouped.t) : result Taxed.t :=
  let date := Grouped.date t in
  let currency := Grouped.currency t in
  let amount := Grouped.amount t in
  rate ← lookup_rate ecb_rates date currency;
  converted ← PyFloat.truediv amount rate;
  let eur_amount := PyFloat.round2 converted in
  let tob := PyFloat.round2 (PyFloat.mul eur_amount PyFloat.tax_rate) in
  Ok (Taxed.Make (Grouped.date t) (Grouped.broker t) (Grouped.stock t) (Grouped.type t)
                 (Grouped.shares t) (Grouped.currency t) (Grouped.amount t)
                 (Grouped.grouped_count t) rate eur_amount tob).

Fixpoint calculate_tob (transactions : list Grouped.t)
    (ecb_rates : gmap string (gmap string PyFloat.float)) : result (list Taxed.t) :=
  match transactions with
  | [] => Ok []
  | t :: rest =>
      r ← tax_transaction ecb_rates t;
      results ← calculate_tob rest ecb_rates;
      Ok (r :: results)
  end.

(** ** Totals *)

(** a Python number: [sum] starts from the [int] 0 *)
Inductive number :=
  | Int (n : Z)
  | Float (x : PyFloat.float).

Definition number_add (a : number) (x : PyFloat.float) : number :=
  match a with
  | Int n => Float (PyFloat.add (PyFloat.of_Z n) x)
  | Float y => Float (PyFloat.add y x)
  end.

(** [sum(xs)]: the items added left to right *)
Definition sum (xs : list PyFloat.float) : number := foldl number_add (Int 0) xs.

(** ** The Interactive Brokers extractor *)

Definition IB_CURRENCIES : list string :=
  ["JPY"; "USD"; "GBP"; "EUR"; "CAD"; "AUD"; "SEK"; "NOK"; "CHF"; "HKD"; "SGD"].

(** [\d{4}-\d{2}-\d{2},] *)
Definition ib_date_regex : Re.regex :=
  Re.seqs [ Re.digit; Re.digit; Re.digit; Re.digit; Re.chr "-";
            Re.digit; Re.digit; Re.chr "-"; Re.digit; Re.digit; Re.chr "," ].

Definition leaves_stocks_section (line : string) : bool :=
  PyStr.contains "Total in GBP" line || PyStr.contains "Forex" line
  || PyStr.contains "Symbol Date/Time Quantity T. Price Proceeds" line.

(** Does [parts[3]] look like the C.Price column: a ['.'] in it and four
    characters after its last one. *)
Definition has_c_price (parts : list string) : bool :=
  match parts !! 3%nat with
  | Some p3 =>
      (4 <=? Z.of_nat (length parts)) && PyStr.contains "." p3
      && (PyStr.len (default EmptyString (last (PyStr.split "." p3))) =? 4)
  | None => false
  end.

(** The token the proceeds are read from; the last branch is not reached
    from [ib_record], which has counted five tokens. *)
Definition proceeds_token (parts : list string) : result (option string) :=
  if has_c_price parts && (5 <=? Z.of_nat (length parts)) then
    p ← PyStr.item parts 4; Ok (Some p)
  else if 4 <=? Z.of_nat (length parts) then
    p ← PyStr.item parts 3; Ok (Some p)
  else Ok None.

(** [USD.JPY] and the like: two three-character halves around one dot *)
Definition is_forex_pair (symbol : string) : bool :=
  PyStr.contains "." symbol &&
  match PyStr.split "." symbol with
  | [a; b] => (PyStr.len a =? 3) && (PyStr.len b =? 3)
  | _ => false
  end.

(** The body of the [try] for one data row. *)
Definition ib_row (date current_currency symbol : string) (parts : list string)
  : result (option Raw.t) :=
  q ← PyStr.item parts 1;
  quantity ← PyStr.int (PyStr.replace "," "" q);
  tok ← proceeds_token parts;
  match tok with
  | None => Ok None
  | Some p =>
      proceeds ← PyStr.float (PyStr.replace "," "" p);
      if PyStr.startswith symbol "Total" then Ok None
      else if is_forex_pair symbol then Ok None
      else Ok (Some (Raw.Make date "Interactive Brokers" symbol
                              (if quantity <? 0 then "Sell" else "Buy")
                              (Z.abs quantity) current_currency
                              (PyFloat.abs proceeds)))
  end.

(** A date line and the line after it. *)
Definition ib_record (current_currency line next_line : string)
  : result (option Raw.t) :=
  date ← PyStr.item (PyStr.split "," line) 0;
  let parts := PyStr.split_ws (PyStr.strip next_line) in
  if 5 <=? Z.of_nat (length parts) then
    symbol ← PyStr.item parts 0;
    catch [ValueError; IndexError] (ib_row date current_currency symbol parts) (Ok None)
  else Ok None.

(** Truth value of [current_currency]: set, and not the empty string. *)
Definition truthy (current_currency : option string) : bool :=
  match current_currency with
  | Some c => negb (String.eqb c EmptyString)
  | None => false
  end.

(** The [while] loop, the lines from index [i] on as its argument. *)
Fixpoint ib_loop (lines : list string) (in_stocks_section : bool)
    (current_currency : option string) (transactions : list Raw.t)
  : result (list Raw.t) :=
  match lines with
  | [] => Ok transactions
  | raw :: rest =>
      let line := PyStr.strip raw in
      if bool_decide (line ∈ IB_CURRENCIES) then
        ib_loop rest true (Some line) transactions
      else
        let '(in_stocks_section, current_currency) :=
          if leaves_stocks_section line then (false, None)
          else (in_stocks_section, current_currency) in
        if in_stocks_section && truthy current_currency
           && bool_decide (is_Some (Re.match_ ib_date_regex line))
        then
          match rest with
          | next_line :: _ =>
              found ← ib_record (default EmptyString current_currency) line next_line;
              ib_loop rest in_stocks_section current_currency
                      (transactions ++ option_list found)
          | [] => ib_loop rest in_stocks_section current_currency transactions
          end
        else ib_loop rest in_stocks_section current_currency transactions
  end.

Definition extract_ib_transactions (text : string) : result (list Raw.t) :=
  ib_loop (PyStr.split "010" text) false None [].

(** ** The Saxo Bank extractor *)

Definition SAXO_MONTHS : list (string * Z) :=
  [("jan", 1); ("feb", 2); ("mrt", 3); ("apr", 4); ("mei", 5); ("jun", 6);
   ("jul", 7); ("aug", 8); ("sep", 9); ("okt", 10); ("nov", 11); ("dec", 12)].

(** [^(\d{1,2})-(jan|...|dec)-(\d{4})] under [re.IGNORECASE] *)
Definition saxo_date_regex : Re.regex :=
  Re.seqs [ Re.Bol;
            Re.Group 1 (Re.Seq Re.digit (Re.opt Re.digit));
            Re.chr "-";
            Re.Group 2 (Re.alts (Re.lit_i <$> SAXO_MONTHS.*1));
            Re.chr "-";
            Re.Group 3 (Re.seqs [Re.digit; Re.digit; Re.digit; Re.digit]) ].

(** [\b(EUR|USD|GBP|CAD|AUD|JPY|CHF|SEK|NOK)\b] *)
Definition saxo_currency_regex : Re.regex :=
  Re.seqs [ Re.WordB;
            Re.Group 1 (Re.alts (Re.lit <$>
              ["EUR"; "USD"; "GBP"; "CAD"; "AUD"; "JPY"; "CHF"; "SEK"; "NOK"]));
            Re.WordB ].

(** [-?\d+(?:\.\d+)?] *)
Definition signed_number : Re.regex :=
  Re.seqs [ Re.opt (Re.chr "-"); Re.plus Re.digit;
            Re.opt (Re.Seq (Re.chr ".") (Re.plus Re.digit)) ].

Definition koop_or_verkoop : Re.regex := Re.Alt (Re.lit "Koop") (Re.lit "Verkoop").

(** [(Koop|Verkoop)\s+\w+\s+(-?\d+(?:\.\d+)?)] *)
Definition saxo_shares_regex : Re.regex :=
  Re.seqs [ Re.Group 1 koop_or_verkoop; Re.plus Re.space; Re.plus Re.word;
            Re.plus Re.space; Re.Group 2 signed_number ].

(** [(Koop|Verkoop).*?(-?\d+(?:\.\d+)?)\s+[\d,]+] *)
Definition saxo_shares_regex_alt : Re.regex :=
  Re.seqs [ Re.Group 1 koop_or_verkoop; Re.LazyStar Re.any;
            Re.Group 2 signed_number; Re.plus Re.space;
            Re.plus (Re.Chr (fun a => PyStr.is_digit a || Ascii.eqb a ",")) ].

(** [(-?[\d.]+,\d{2})] *)
Definition saxo_amount_regex : Re.regex :=
  Re.Group 1 (Re.seqs [ Re.opt (Re.chr "-");
                        Re.plus (Re.Chr (fun a => PyStr.is_digit a || Ascii.eqb a "."));
                        Re.chr ","; Re.digit; Re.digit ]).

(** [m.group(n)] followed by a string method: a group that is [None] has
    none. *)
Definition group_text (m : Re.matched) (n : nat) : result string :=
  match Re.group m n with
  | Some g => Ok g
  | None => Err (Raise AttributeError "'NoneType' object has no attribute")
  end.

(** The magnitude a matched amount stands for: grouping dots and the sign
    dropped, the decimal comma read as a point. *)
Definition amount_value (amt_str : string) : result PyFloat.float :=
  let amount_str :=
    PyStr.replace "-" "" (PyStr.replace "," "." (PyStr.replace "." "" amt_str)) in
  PyStr.float amount_str.

(** The loop over [amount_matches]: the largest value of at least 2.0;
    [max_amount] starts as 0. *)
Fixpoint largest_amount (amount_matches : list string)
    (boekingsbedrag : option PyFloat.float) (max_amount : PyFloat.float)
  : result (option PyFloat.float) :=
  match amount_matches with
  | [] => Ok boekingsbedrag
  | amt_str :: rest =>
      step ← catch [ValueError]
                (amount_val ← amount_value amt_str;
                 if PyFloat.ltb amount_val PyFloat.two then
                   Ok (boekingsbedrag, max_amount)
                 else if PyFloat.ltb max_amount amount_val then
                   Ok (Some amount_val, amount_val)
                 else Ok (boekingsbedrag, max_amount))
                (Ok (boekingsbedrag, max_amount));
      largest_amount rest step.1 step.2
  end.

(** The body of the [try] for a line that passed the three markers. *)
Definition saxo_row (transaction_date line_stripped : string) : result (option Raw.t) :=
  let aandelen_idx :=
    match PyStr.find "Aandelen" line_stripped with
    | Some i => Z.of_nat i
    | None => -1
    end in
  let after_aandelen :=
    PyStr.strip (PyStr.drop (Z.to_nat (aandelen_idx + PyStr.len "Aandelen")) line_stripped) in
  match Re.search saxo_currency_regex after_aandelen with
  | None => Ok None
  | Some currency_match =>
      currency ← group_text currency_match 1;
      let instrument := PyStr.strip (PyStr.take (Re.m_start currency_match) after_aandelen) in
      let trans_type := if PyStr.contains "Koop" line_stripped then "Buy" else "Sell" in
      let shares_match :=
        match Re.search saxo_shares_regex line_stripped with
        | Some m => Some m
        | None => Re.search saxo_shares_regex_alt line_stripped
        end in
      match shares_match with
      | None => Ok None
      | Some shares_match =>
          g ← group_text shares_match 2;
          x ← PyStr.float (PyStr.replace "." "" (PyStr.replace "," "" g));
          n ← PyFloat.to_Z x;
          let shares := Z.abs n in
          match Re.findall saxo_amount_regex line_stripped with
          | [] => Ok None
          | amount_matches =>
              boekingsbedrag ← largest_amount amount_matches None PyFloat.zero;
              match boekingsbedrag with
              | None => Ok None
              | Some b =>
                  if PyFloat.eqb b PyFloat.zero then Ok None
                  else Ok (Some (Raw.Make transaction_date "Saxo Bank" instrument
                                          trans_type shares currency b))
              end
          end
      end
  end.

(** One line of the statement. *)
Definition saxo_line (line : string) : result (option Raw.t) :=
  let line_stripped := PyStr.strip line in
  if PyStr.contains "Cashbedrag" line_stripped
     || PyStr.contains "Storting/opname" line_stripped
  then Ok None
  else
    match Re.search saxo_date_regex line_stripped with
    | Some date_match =>
        if PyStr.contains "Aandelen" line_stripped
           && (PyStr.contains "Koop" line_stripped || PyStr.contains "Verkoop" line_stripped)
        then
          day ← group_text date_match 1;
          month_nl ← group_text date_match 2;
          year ← group_text date_match 3;
          let month := default 1 (snd <$> List.find (fun e => String.eqb (fst e) (PyStr.lower month_nl)) SAXO_MONTHS) in
          d ← PyStr.int day;
          let transaction_date := year +:+ "-" +:+ PyStr.fmt02 month +:+ "-" +:+ PyStr.fmt02 d in
          catch [ValueError; IndexError; AttributeError]
                (saxo_row transaction_date line_stripped) (Ok None)
        else Ok None
    | None => Ok None
    end.

Fixpoint saxo_loop (lines : list string) (transactions : list Raw.t)
  : result (list Raw.t) :=
  match lines with
  | [] => Ok transactions
  | line :: rest =>
      found ← saxo_line line;
      saxo_loop rest (transactions ++ option_list found)
  end.

Definition extract_saxo_transactions (text : string) : result (list Raw.t) :=
  saxo_loop (PyStr.split "010" text) [].

(** ** The pipeline *)

Definition detect_broker (text : string) : string :=
  if PyStr.contains "Interactive Brokers" text then "Interactive Brokers"
  else if PyStr.contains "Saxo Bank" text || PyStr.contains "Transacties" text
       then "Saxo Bank"
  else "Unknown".

Record statement_result := StatementResult {
  transactions : list Taxed.t;
  total_eur : number;
  total_tob : number;
  ecb_rates : gmap string (gmap string PyFloat.float)
}.

(** The first loop of [process_statements], over the texts of the
    statements. *)
Fixpoint extract_all (texts : list string) (all_transactions : list Raw.t)
  : result (list Raw.t) :=
  match texts with
  | [] => Ok all_transactions
  | text :: rest =>
      let broker := detect_broker text in
      found ← (if String.eqb broker "Interactive Brokers" then extract_ib_transactions text
               else if String.eqb broker "Saxo Bank" then extract_saxo_transactions text
               else Err (Raise Exception "Unknown broker format"));
      extract_all rest (all_transactions ++ found)
  end.

(** [process_statements], from the texts of the statements and the parsed
    rate document on.  The set of dates has no order to rely on; here the
    dates go to the resolver in the order of their first occurrence, which
    only decides the date a failing run names. *)
Definition process_statements (texts : list string) (root : Ecb.document)
  : result statement_result :=
  all_transactions ← extract_all texts [];
  let grouped := group_transactions all_transactions in
  let dates_needed := remove_dups (Grouped.date <$> grouped) in
  ecb_rates ← fetch_ecb_rates root dates_needed;
  results ← calculate_tob grouped ecb_rates;
  let total_eur := sum (Taxed.eur_amount <$> results) in
  let total_tob := sum (Taxed.tob <$> results) in
  Ok (StatementResult results total_eur total_tob ecb_rates).

(** ** Numbers in Belgian notation *)

(** [float(n)] for an [int]: a magnitude no double can hold raises. *)
Definition float_of_int (n : Z) : result PyFloat.float :=
  match PyFloat.of_Z n with
  | S754_infinity _ => Err (Raise OverflowError "int too large to convert to float")
  | x => Ok x
  end.

(** The decimal digits of a number that is not negative, the highest
    first; the fuel is the number of its binary digits. *)
Fixpoint decimal_go (fuel : nat) (n : Z) (acc : string) : string :=
  match fuel with
  | O => acc
  | S fuel' =>
      let acc' := String (PyStr.digit_char (n mod 10)) acc in
      if n <? 10 then acc' else decimal_go fuel' (n / 10) acc'
  end.

Definition decimal_of (n : Z) : string :=
  decimal_go (S (Z.to_nat (Z.log2 n))) n EmptyString.

(** A comma after every third digit, counted from the last. *)
Fixpoint group3_rev (l : list ascii) : list ascii :=
  match l with
  | a :: b :: c :: rest =>
      match rest with
      | [] => l
      | _ :: _ => a :: b :: c :: ","%char :: group3_rev rest
      end
  | _ => l
  end.

Definition group3 (s : string) : string :=
  string_of_list_ascii (rev (group3_rev (rev (list_ascii_of_string s)))).

(** zeros in front, up to [width] characters *)
Definition zero_pad (width : nat) (s : string) : string :=
  string_of_list_ascii (replicate (width - String.length s) "0"%char) +:+ s.

(** The magnitude of [x] in units of [10^-decimals], rounded half to even
    on its exact value. *)
Definition scaled (x : PyFloat.float) (decimals : nat) : Z :=
  match x with
  | S754_finite _ m e =>
      match e with
      | Zneg k =>
          PyFloat.div_half_even (Zpos m * 10 ^ Z.of_nat decimals) (Zpos (Pos.pow 2 k))
      | _ => Zpos m * 2 ^ e * 10 ^ Z.of_nat decimals
      end
  | _ => 0
  end.

Definition sign_text (s : bool) : string := if s then "-" else EmptyString.

(** [f"{x:,.{decimals}f}"] *)
Definition format_fixed (x : PyFloat.float) (decimals : nat) : string :=
  match x with
  | S754_nan => "nan"
  | S754_infinity s => sign_text s +:+ "inf"
  | S754_zero s | S754_finite s _ _ =>
      let n := scaled x decimals in
      let unit := 10 ^ Z.of_nat decimals in
      sign_text s +:+ group3 (decimal_of (n / unit)) +:+
      match decimals with
      | O => EmptyString
      | S _ => "." +:+ zero_pad decimals (decimal_of (n mod unit))
      end
  end.

(** [s.replace(old, by)] for a pattern of one character or more: the
    occurrences are taken from the left and do not overlap; [skip] counts
    the characters of an occurrence still to pass. *)
Fixpoint replace_go (old by_ : string) (skip : nat) (s : string) : string :=
  match s with
  | EmptyString => EmptyString
  | String a s' =>
      match skip with
      | S k => replace_go old by_ k s'
      | O =>
          if String.prefix old s
          then by_ +:+ replace_go old by_ (String.length old - 1) s'
          else String a (replace_go old by_ 0 s')
      end
  end.

Definition replace_text (old by_ s : string) : string := replace_go old by_ 0 s.

(** [format_belgian_number(num, decimals)], the definition in force (the
    second of the two the module gives). *)
Definition format_belgian_number (num : number) (decimals : nat) : result string :=
  x ← match num with
       | Int n => float_of_int n
       | Float x => Ok x
       end;
  let formatted := format_fixed x decimals in
  Ok (replace_text "TEMP" "."
        (PyStr.replace "." "," (PyStr.replace "," "TEMP" formatted))).

(** * Vocabulary of the statements and sample data *)

(** A taxed record carries the fields of the grouped record it came from. *)
Definition same_fields (t : Grouped.t) (r : Taxed.t) : Prop :=
  Taxed.date r = Grouped.date t ∧ Taxed.broker r = Grouped.broker t
  ∧ Taxed.stock r = Grouped.stock t ∧ Taxed.type r = Grouped.type t
  ∧ Taxed.shares r = Grouped.shares t ∧ Taxed.currency r = Grouped.currency t
  ∧ Taxed.amount r = Grouped.amount t
  ∧ Taxed.grouped_count r = Grouped.grouped_count t.

(** The two roundings of a taxed record. *)
Definition rounded (r : Taxed.t) : Prop :=
  ∃ converted,
    PyFloat.truediv (Taxed.amount r) (Taxed.rate r) = Ok converted
    ∧ Taxed.eur_amount r = PyFloat.round2 converted
    ∧ Taxed.tob r = PyFloat.round2 (PyFloat.mul (Taxed.eur_amount r) PyFloat.tax_rate).

(** A rate is on file for the transaction and it is not a zero. *)
Definition has_rate (ecb_rates : gmap string (gmap string PyFloat.float))
    (t : Grouped.t) : Prop :=
  ∃ rate, lookup_rate ecb_rates (Grouped.date t) (Grouped.currency t) = Ok rate
          ∧ PyFloat.is_zero rate = false.

Definition newline : string := String "010" EmptyString.

Definition text_of_lines (lines : list string) : string := String.concat newline lines.

(** 1500.00 USD bought on a Friday, from two fills *)
Definition sample_grouped : Grouped.t :=
  Grouped.Make "2025-01-10" "Interactive Brokers" "ABC" "Buy" 150 "USD"
               (PyFloat.of_decimal false 150000 (-2)) 2.

Definition sample_grouped_sell : Grouped.t :=
  Grouped.Make "2025-01-10" "Interactive Brokers" "ABC" "Sell" 50 "USD"
               (PyFloat.of_decimal false 50000 (-2)) 1.

Definition sample_rates : gmap string (gmap string PyFloat.float) :=
  {[ "2025-01-10" := {[ "EUR" := PyFloat.one;
                        "USD" := PyFloat.of_decimal false 105 (-2) ]} ]}.

Definition sample_document : Ecb.document :=
  [ Ecb.Cube "2025-01-10" [("USD", Some "1.05"); ("JPY", Some "160.25")];
    Ecb.Cube "2025-01-09" [("USD", Some "1.04")] ].

Definition sample_ib_text : string :=
  text_of_lines
    [ "Interactive Brokers"; "USD";
      "2025-01-10, 09:00:00"; "ABC 100 10.0000 10.0000 1000.00 -1.00";
      "2025-01-10, 09:30:00"; "ABC 50 10.0000 10.0000 500.00 -1.00";
      "2025-01-10, 10:00:00"; "ABC -50 10.0000 10.0000 -500.00 -1.00";
      "EUR";
      "2025-01-12, 09:00:00"; "XYZ 3 3.3350 3.3350 10.005 -1.00" ].

(** The date [i] days before [current], as the resolver spells it. *)
Definition days_before (current : PyDate.date) (i : Z) : string :=
  PyDate.strftime (PyDate.ord2ymd (PyDate.ymd2ord current - i)).

(** No cube of the document lists EUR with a rate of its own that reads
    as anything but 1.0. *)
Definition eur_untouched (root : Ecb.document) : Prop :=
  ∀ c a r, c ∈ root → ("EUR", a) ∈ Ecb.entries c →
           float_of_attribute a = Ok r → r = PyFloat.one.

(** Every rate attribute of the document is there and reads as a float. *)
Definition numeric (root : Ecb.document) : Prop :=
  ∀ c currency a, c ∈ root → (currency, a) ∈ Ecb.entries c →
                  is_ok (float_of_attribute a) = true.

(** The key a grouped record stands for. *)
Definition grouped_key (g : Grouped.t) : group_key :=
  (Grouped.date g, Grouped.broker g, Grouped.stock g, Grouped.type g, Grouped.currency g).

(** The raw transactions of one key, in input order. *)
Definition members (k : group_key) (ts : list Raw.t) : list Raw.t :=
  filter (fun t => key_of t = k) ts.

(** [0 + s1 + s2 + ...] and [0.0 + a1 + a2 + ...], added in input order. *)
Definition sum_shares (l : list Raw.t) : Z :=
  foldl (fun acc t => acc + Raw.shares t) 0 l.

Definition sum_amount (l : list Raw.t) : PyFloat.float :=
  foldl (fun acc t => PyFloat.add acc (Raw.amount t)) PyFloat.zero l.

Definition bucket_of (l : list Raw.t) : bucket :=
  Bucket (sum_shares l) (sum_amount l) l.

(** [grouped.get(k)] *)
Fixpoint assoc (k : group_key) (grouped : list (group_key * bucket)) : option bucket :=
  match grouped with
  | [] => None
  | (k', b) :: rest => if decide (k = k') then Some b else assoc k rest
  end.

(** A double as an accumulator leaves it: not the negative zero, and, when
    finite, with an exponent a double can have. *)
Definition settled (x : PyFloat.float) : Prop :=
  match x with
  | S754_zero s => s = false
  | S754_finite _ _ e => -1074 ≤ e
  | _ => True
  end.

Definition is_double (x : PyFloat.float) : Prop :=
  valid_binary PyFloat.prec PyFloat.emax x = true.

(** A grouped record fed back as one raw transaction. *)
Definition as_raw (g : Grouped.t) : Raw.t :=
  Raw.Make (Grouped.date g) (Grouped.broker g) (Grouped.stock g) (Grouped.type g)
           (Grouped.shares g) (Grouped.currency g) (Grouped.amount g).

(** The same group with one member. *)
Definition single (g : Grouped.t) : Grouped.t :=
  Grouped.Make (Grouped.date g) (Grouped.broker g) (Grouped.stock g) (Grouped.type g)
               (Grouped.shares g) (Grouped.currency g) (Grouped.amount g) 1.

Definition sample_raw : list Raw.t :=
  [ Raw.Make "2025-01-10" "Interactive Brokers" "ABC" "Buy" 100 "USD"
             (PyFloat.of_decimal false 100000 (-2));
    Raw.Make "2025-01-09" "Saxo Bank" "JDC Group AG" "Sell" 889 "EUR"
             (PyFloat.of_decimal false 2662596 (-2));
    Raw.Make "2025-01-10" "Interactive Brokers" "ABC" "Buy" 50 "USD"
             (PyFloat.of_decimal false 50000 (-2));
    Raw.Make "2025-01-10" "Interactive Brokers" "ABC" "Sell" 50 "USD"
             (PyFloat.of_decimal false 50000 (-2)) ].

(** The values of the matched amounts, those that decode. *)
Definition decoded (amount_matches : list string) : list PyFloat.float :=
  omap (fun s => match amount_value s with Ok v => Some v | Err _ => None end)
       amount_matches.

(** A candidate the threshold does not exclude: at least 2.0. *)
Definition qualifies (v : PyFloat.float) : Prop := PyFloat.leb PyFloat.two v = true.

(** The candidates of a line. *)
Definition candidates (line : string) : list PyFloat.float :=
  decoded (Re.findall saxo_amount_regex (PyStr.strip line)).

(** What the selection loop has settled after the candidates [seen]. *)
Definition selected (seen : list PyFloat.float)
    (boekingsbedrag : option PyFloat.float) (max_amount : PyFloat.float) : Prop :=
  match boekingsbedrag with
  | None => max_amount = PyFloat.zero ∧ ∀ c, c ∈ seen → ¬ qualifies c
  | Some v => max_amount = v ∧ v ∈ seen ∧ qualifies v
              ∧ ∀ c, c ∈ seen → qualifies c → PyFloat.leb c v = true
  end.

(** The text of a token after its last ['.'] is four characters long (and
    there is a ['.']). *)
Definition four_places (tok : string) : Prop :=
  ∃ pre suf, tok = pre +:+ "." +:+ suf
             ∧ PyStr.contains "." suf = false ∧ String.length suf = 4%nat.

(** The claim's reading of the C.Price test: a ['.'] followed by exactly
    four decimal digits that end the token. *)
Definition four_decimal_digits (tok : string) : bool :=
  PyStr.contains "." tok
  && match last (PyStr.split "." tok) with
     | Some suf => (String.length suf =? 4)%nat
                   && forallb PyStr.is_digit (list_ascii_of_string suf)
     | None => false
     end.

(** What a decoded row is made of. *)
Definition ib_emits (date current_currency : string) (parts : list string)
    (quantity : Z) (proceeds : PyFloat.float) : Raw.t :=
  Raw.Make date "Interactive Brokers" (default EmptyString (parts !! 0%nat))
           (if quantity <? 0 then "Sell" else "Buy") (Z.abs quantity)
           current_currency (PyFloat.abs proceeds).

Definition sample_saxo_line : string :=
  "28-nov-2025 01-dec-2025 6494810500 Aandelen JDC Group AG EUR Verkoop SLUITEN -889 26,000 1,0000 -26.625,96 23.102,44".

Definition sample_saxo_transaction : Raw.t :=
  Raw.Make "2025-11-28" "Saxo Bank" "JDC Group AG" "Sell" 889 "EUR"
           (PyFloat.of_decimal false 2662596 (-2)).

(** a data row with a quantity and proceeds of zero *)
Definition zero_row_text : string :=
  text_of_lines ["USD"; "2025-01-10, 09:00:00"; "ABC 0 1.0000 1.0000 0 0"].

Definition zero_row_transaction : Raw.t :=
  Raw.Make "2025-01-10" "Interactive Brokers" "ABC" "Buy" 0 "USD" PyFloat.zero.

(** a data row whose proceeds read [nan] *)
Definition nan_row_text : string :=
  text_of_lines ["USD"; "2025-01-10, 09:00:00"; "ABC 5 1.0000 1.0000 nan 0"].

Definition nan_row_transaction : Raw.t :=
  Raw.Make "2025-01-10" "Interactive Brokers" "ABC" "Buy" 5 "USD" S754_nan.

(** a Saxo Bank line with a share count of zero *)
Definition zero_shares_saxo_line : string :=
  "1-jan-2025 Aandelen X EUR Koop OPENING 0 10,00".

Definition zero_shares_saxo_transaction : Raw.t :=
  Raw.Make "2025-01-01" "Saxo Bank" "X" "Buy" 0 "EUR" (PyFloat.of_decimal false 10 0).

(** a share count of 310 digits *)
Definition overflow_text : string :=
  "1-jan-2025 Aandelen X EUR Koop OPENING 1"
  +:+ String.concat EmptyString (replicate 309 "0") +:+ " 10,00".

(** ** Vocabulary of the further properties *)

(** A number that is not below zero: no NaN, and a zero or the sign bit
    clear. *)
Definition not_negative (x : PyFloat.float) : Prop :=
  match x with
  | S754_nan => False
  | S754_zero _ => True
  | S754_infinity s | S754_finite s _ _ => s = false
  end.

(** A finite number above zero. *)
Definition positive_finite (x : PyFloat.float) : Prop :=
  match x with
  | S754_finite false _ _ => True
  | _ => False
  end.

(** A zero, an infinity or a finite number of sign [s]. *)
Definition signed (s : bool) (x : PyFloat.float) : Prop :=
  match x with
  | S754_nan => False
  | S754_zero s' | S754_infinity s' | S754_finite s' _ _ => s' = s
  end.

(** The key and the sort key of a taxed record. *)
Definition taxed_key (r : Taxed.t) : group_key :=
  (Taxed.date r, Taxed.broker r, Taxed.stock r, Taxed.type r, Taxed.currency r).

Definition taxed_sort_key (r : Taxed.t) : string * string * string :=
  (Taxed.date r, Taxed.broker r, Taxed.stock r).

(** None of the markers [detect_broker] looks for is in the text. *)
Definition no_marker (text : string) : Prop :=
  PyStr.contains "Interactive Brokers" text = false
  ∧ PyStr.contains "Saxo Bank" text = false
  ∧ PyStr.contains "Transacties" text = false.

(** The first line of a text, blanks dropped, is a currency code: the text
    opens a currency section of an Interactive Brokers statement. *)
Definition opens_section (text : string) : Prop :=
  ∃ first rest, PyStr.split "010" text = first :: rest
                ∧ PyStr.strip first ∈ IB_CURRENCIES.

(** What it is for a pattern to match from one position of a text to
    another: the declarative reading of [Re.run]. *)
Inductive matches : Re.regex → Re.cursor → Re.cursor → Prop :=
  | matches_Eps c : matches Re.Eps c c
  | matches_Chr p a s' c :
      Re.rest c = String a s' → p a = true →
      matches (Re.Chr p) c (Re.Cursor (Some a) s' (S (Re.pos c)) (Re.groups c))
  | matches_Seq r1 r2 c c1 c2 :
      matches r1 c c1 → matches r2 c1 c2 → matches (Re.Seq r1 r2) c c2
  | matches_Alt_l r1 r2 c c' : matches r1 c c' → matches (Re.Alt r1 r2) c c'
  | matches_Alt_r r1 r2 c c' : matches r2 c c' → matches (Re.Alt r1 r2) c c'
  | matches_Star_stop r c : matches (Re.Star r) c c
  | matches_Star_step r c c1 c2 :
      matches r c c1 → (Re.pos c < Re.pos c1)%nat → matches (Re.Star r) c1 c2 →
      matches (Re.Star r) c c2
  | matches_LazyStar_stop r c : matches (Re.LazyStar r) c c
  | matches_LazyStar_step r c c1 c2 :
      matches r c c1 → (Re.pos c < Re.pos c1)%nat → matches (Re.LazyStar r) c1 c2 →
      matches (Re.LazyStar r) c c2
  | matches_Group n r c c1 :
      matches r c c1 →
      matches (Re.Group n r) c
              (Re.Cursor (Re.prev c1) (Re.rest c1) (Re.pos c1)
                         ((n, (Re.pos c, Re.pos c1)) :: Re.groups c1))
  | matches_Bol c : Re.pos c = 0%nat → matches Re.Bol c c
  | matches_WordB c :
      xorb (Re.wordish (Re.prev c)) (Re.wordish (Re.next c)) = true →
      matches Re.WordB c c.

(** The ten characters of a date written [YYYY-MM-DD]: digits where the
    letters stand. *)
Definition iso_shaped (s : string) : bool :=
  match list_ascii_of_string s with
  | [y1; y2; y3; y4; h1; m1; m2; h2; d1; d2] =>
      forallb PyStr.is_digit [y1; y2; y3; y4; m1; m2; d1; d2]
      && Ascii.eqb h1 "-" && Ascii.eqb h2 "-"
  | _ => false
  end.

(** The currency codes the Saxo Bank extractor looks for. *)
Definition SAXO_CURRENCIES : list string :=
  ["EUR"; "USD"; "GBP"; "CAD"; "AUD"; "JPY"; "CHF"; "SEK"; "NOK"].

(** A pattern without capturing groups. *)
Fixpoint group_free (r : Re.regex) : bool :=
  match r with
  | Re.Seq r1 r2 | Re.Alt r1 r2 => group_free r1 && group_free r2
  | Re.Star r' | Re.LazyStar r' => group_free r'
  | Re.Group _ _ => false
  | _ => true
  end.

(** The position of a cursor lies in the text [s]: what is left to read is
    the text from that position on. *)
Definition in_text (s : string) (c : Re.cursor) : Prop :=
  ∃ pre, s = pre +:+ Re.rest c ∧ String.length pre = Re.pos c.

(** Every [','] turned into ['.'] and every ['.'] into [',']. *)
Definition swap_separator (c : ascii) : ascii :=
  if Ascii.eqb c "," then "."%char else if Ascii.eqb c "." then ","%char else c.

Fixpoint swap_separators (s : string) : string :=
  match s with
  | EmptyString => EmptyString
  | String c s' => String (swap_separator c) (swap_separators s')
  end.

(** [float(num)] as the format specification needs it. *)
Definition as_float (num : number) : result PyFloat.float :=
  match num with
  | Int n => float_of_int n
  | Float x => Ok x
  end.

(** A character a formatted number can hold: a digit, a separator, the
    sign, or a letter of [inf] and [nan]. *)
Definition number_char (c : ascii) : Prop :=
  PyStr.is_digit c = true ∨ c ∈ list_ascii_of_string ",.-infa".

(** A text of digits. *)
Definition all_digits (s : string) : Prop :=
  Forall (fun c => PyStr.is_digit c = true) (list_ascii_of_string s).

(** The characters of a list other than [c]. *)
Definition keep_but (c : ascii) (l : list ascii) : list ascii :=
  List.filter (fun a => negb (Ascii.eqb a c)) l.

(** A digit or the decimal point. *)
Definition plain_char (c : ascii) : Prop := PyStr.is_digit c = true ∨ c = "."%char.

(** * Properties *)

(** ** The tax engine *)

Lemma bind_Ok {A B} (r : result A) (k : A → result B) (b : B) :
  r ≫= k = Ok b ↔ ∃ a, r = Ok a ∧ k a = Ok b.
Proof.
  destruct r as [a|e]; simpl; split.
  - eauto.
  - intros (a' & [= <-] & H). exact H.
  - discriminate.
  - intros (a' & [=] & _).
Qed.

Section TaxEngine.
Context (ecb_rates : gmap string (gmap string PyFloat.float)).

Lemma tax_transaction_Ok t r :
  tax_transaction ecb_rates t = Ok r →
  ∃ rate converted,
    lookup_rate ecb_rates (Grouped.date t) (Grouped.currency t) = Ok rate
    ∧ PyFloat.truediv (Grouped.amount t) rate = Ok converted
    ∧ r = Taxed.Make (Grouped.date t) (Grouped.broker t) (Grouped.stock t)
            (Grouped.type t) (Grouped.shares t) (Grouped.currency t)
            (Grouped.amount t) (Grouped.grouped_count t) rate
            (PyFloat.round2 converted)
            (PyFloat.round2 (PyFloat.mul (PyFloat.round2 converted) PyFloat.tax_rate)).
Proof.
  unfold tax_transaction. intros H.
  apply bind_Ok in H as (rate & Hrate & H).
  apply bind_Ok in H as (converted & Hdiv & H).
  injection H as <-. eauto.
Qed.

Lemma tax_transaction_same_fields t r :
  tax_transaction ecb_rates t = Ok r → same_fields t r.
Proof.
  intros H. apply tax_transaction_Ok in H as (rate & q & _ & _ & ->).
  repeat split.
Qed.

Lemma tax_transaction_rounded t r :
  tax_transaction ecb_rates t = Ok r → rounded r.
Proof.
  intros H. apply tax_transaction_Ok in H as (rate & q & _ & Hq & ->).
  exists q. simpl. auto.
Qed.

Lemma tax_transaction_has_rate t :
  has_rate ecb_rates t → is_ok (tax_transaction ecb_rates t) = true.
Proof.
  intros (rate & Hrate & Hnz). unfold tax_transaction.
  rewrite Hrate. simpl. unfold PyFloat.truediv. rewrite Hnz. reflexivity.
Qed.

(** The loop is the body applied to each transaction in turn. *)
Lemma calculate_tob_Forall2 ts rs :
  calculate_tob ts ecb_rates = Ok rs ↔
  Forall2 (fun t r => tax_transaction ecb_rates t = Ok r) ts rs.
Proof.
  revert rs. induction ts as [|t ts IH]; intros rs; simpl.
  - split.
    + intros [= <-]. constructor.
    + intros H. inversion H. reflexivity.
  - split.
    + intros H. apply bind_Ok in H as (r & Hr & H).
      apply bind_Ok in H as (rs' & Hrs & H). injection H as <-.
      constructor; [exact Hr | by apply IH].
    + intros H. inversion H as [|? r ? rs' Hr Hrs]; subst.
      rewrite Hr. simpl. apply IH in Hrs. rewrite Hrs. reflexivity.
Qed.

Lemma calculate_tob_is_ok ts :
  Forall (has_rate ecb_rates) ts → is_ok (calculate_tob ts ecb_rates) = true.
Proof.
  induction 1 as [|t ts Ht _ IH]; simpl; [reflexivity|].
  apply tax_transaction_has_rate in Ht.
  destruct (tax_transaction ecb_rates t); [|discriminate]. simpl.
  destruct (calculate_tob ts ecb_rates); [reflexivity|discriminate].
Qed.

(** Reordering the input reorders the output the same way. *)
Lemma calculate_tob_Permutation ts ts' rs :
  ts ≡ₚ ts' → calculate_tob ts ecb_rates = Ok rs →
  ∃ rs', calculate_tob ts' ecb_rates = Ok rs' ∧ rs ≡ₚ rs'.
Proof.
  intros Hp. revert rs.
  induction Hp as [|t ts ts' _ IH|t1 t2 ts|ts ts' ts'' _ IH1 _ IH2]; intros rs H.
  - exists rs. split; [exact H | reflexivity].
  - simpl in H. apply bind_Ok in H as (r & Hr & H).
    apply bind_Ok in H as (rs0 & Hrs & H). injection H as <-.
    destruct (IH _ Hrs) as (rs' & H' & Hp').
    exists (r :: rs'). simpl. rewrite Hr, H'. split; [reflexivity|by constructor].
  - simpl in H. apply bind_Ok in H as (r2 & Hr2 & H).
    apply bind_Ok in H as (rs1 & H & H1). injection H1 as <-.
    apply bind_Ok in H as (r1 & Hr1 & H).
    apply bind_Ok in H as (rs0 & Hrs & H). injection H as <-.
    exists (r1 :: r2 :: rs0). simpl. rewrite Hr1, Hr2, Hrs.
    split; [reflexivity | apply perm_swap].
  - destruct (IH1 _ H) as (rs' & H' & Hp').
    destruct (IH2 _ H') as (rs'' & H'' & Hp'').
    exists rs''. split; [exact H'' | by etrans].
Qed.

End TaxEngine.

(** C10: the tax engine keeps the frame.  Whenever [calculate_tob] returns,
    its output has the length and order of its input and each record repeats
    date, broker, stock, type, shares, currency, amount (and the member
    count) of the input record at its position, the three new fields being
    the record type's only others; and it does return when every
    transaction has a rate on file that is not a zero. *)
Theorem calculate_tob_frame ecb_rates ts :
  Forall (has_rate ecb_rates) ts →
  ∃ results,
    calculate_tob ts ecb_rates = Ok results
    ∧ length results = length ts
    ∧ Forall2 same_fields ts results
    ∧ Forall2 (fun t r =>
        lookup_rate ecb_rates (Grouped.date t) (Grouped.currency t) = Ok (Taxed.rate r))
        ts results.
Proof.
  intros Hrates. pose proof (calculate_tob_is_ok ecb_rates ts Hrates) as Hok.
  destruct (calculate_tob ts ecb_rates) as [results|e] eqn:Hc; [|discriminate].
  exists results. apply calculate_tob_Forall2 in Hc.
  split; [reflexivity|]. split; [symmetry; eapply Forall2_length; exact Hc|].
  split.
  - eapply Forall2_impl; [exact Hc|]. intros t r. apply tax_transaction_same_fields.
  - eapply Forall2_impl; [exact Hc|]. intros t r H.
    apply tax_transaction_Ok in H as (rate & q & Hrate & _ & ->). exact Hrate.
Qed.

Lemma sample_has_rate :
  Forall (has_rate sample_rates) [sample_grouped; sample_grouped_sell].
Proof.
  repeat constructor; exists (PyFloat.of_decimal false 105 (-2)); split; reflexivity.
Defined.

Lemma calculate_tob_frame_witness :
  ∃ results,
    calculate_tob [sample_grouped; sample_grouped_sell] sample_rates = Ok results
    ∧ length results = 2%nat
    ∧ Forall2 same_fields [sample_grouped; sample_grouped_sell] results
    ∧ Forall2 (fun t r =>
        lookup_rate sample_rates (Grouped.date t) (Grouped.currency t) = Ok (Taxed.rate r))
        [sample_grouped; sample_grouped_sell] results.
Proof.
  exact (calculate_tob_frame sample_rates [sample_grouped; sample_grouped_sell]
           sample_has_rate).
Defined.

(** C1: rounding consistency.  Every record [calculate_tob] produces has
    [eur_amount = round(amount / rate, 2)] and
    [tob = round(eur_amount * 0.0035, 2)]; a reordered input gives the same
    records, reordered; and the totals of a run are its records' [eur_amount]
    and [tob] values added up left to right from 0, with no rounding of the
    sum. *)
Theorem tax_rounding_consistency ecb_rates ts ts' results texts root res :
  calculate_tob ts ecb_rates = Ok results →
  ts ≡ₚ ts' →
  process_statements texts root = Ok res →
  Forall rounded results
  ∧ (∃ results', calculate_tob ts' ecb_rates = Ok results'
                 ∧ results ≡ₚ results' ∧ Forall rounded results')
  ∧ Forall rounded (transactions res)
  ∧ total_eur res = foldl number_add (Int 0) (Taxed.eur_amount <$> transactions res)
  ∧ total_tob res = foldl number_add (Int 0) (Taxed.tob <$> transactions res).
Proof.
  intros Hc Hp Hrun.
  assert (Hall : ∀ rates l rs, calculate_tob l rates = Ok rs → Forall rounded rs).
  { intros rates l rs H. apply calculate_tob_Forall2 in H.
    induction H as [|t r l rs Hr _ IH]; constructor; [|exact IH].
    eapply tax_transaction_rounded; exact Hr. }
  split; [eapply Hall; exact Hc|]. split.
  - destruct (calculate_tob_Permutation _ _ _ _ Hp Hc) as (results' & H' & Hp').
    exists results'. split; [exact H'|]. split; [exact Hp'|]. eapply Hall; exact H'.
  - unfold process_statements in Hrun.
    apply bind_Ok in Hrun as (raw & _ & Hrun).
    apply bind_Ok in Hrun as (rates & _ & Hrun).
    apply bind_Ok in Hrun as (rs & Hrs & Hrun).
    injection Hrun as <-. simpl.
    split; [eapply Hall; exact Hrs|]. split; reflexivity.
Qed.

Lemma tax_rounding_consistency_witness :
  ∃ results res,
    calculate_tob [sample_grouped; sample_grouped_sell] sample_rates = Ok results
    ∧ process_statements [sample_ib_text] sample_document = Ok res
    ∧ Forall rounded results
    ∧ (∃ results', calculate_tob [sample_grouped_sell; sample_grouped] sample_rates = Ok results'
                   ∧ results ≡ₚ results' ∧ Forall rounded results')
    ∧ Forall rounded (transactions res)
    ∧ total_eur res = foldl number_add (Int 0) (Taxed.eur_amount <$> transactions res)
    ∧ total_tob res = foldl number_add (Int 0) (Taxed.tob <$> transactions res).
Proof.
  destruct (calculate_tob [sample_grouped; sample_grouped_sell] sample_rates)
    as [results|e] eqn:Hc; [|vm_compute in Hc; discriminate].
  destruct (process_statements [sample_ib_text] sample_document)
    as [res|e] eqn:Hrun; [|vm_compute in Hrun; discriminate].
  exists results, res. split; [reflexivity|]. split; [reflexivity|].
  exact (tax_rounding_consistency sample_rates _ [sample_grouped_sell; sample_grouped]
           results [sample_ib_text] sample_document res Hc (perm_swap _ _ _) Hrun).
Defined.

(** ** The rate resolver *)

Section Resolver.
Context (root : Ecb.document).

Lemma sub_days_Ok current i :
  1 ≤ PyDate.ymd2ord current - i ≤ PyDate.MAXORDINAL →
  PyDate.sub_days current i = Ok (PyDate.ord2ymd (PyDate.ymd2ord current - i)).
Proof.
  intros [H1 H2]. unfold PyDate.sub_days.
  apply Z.leb_le in H1, H2. rewrite H1, H2. reflexivity.
Qed.

(** The search ends at the first listed day that has a cube, with the row
    read from it. *)
Lemma fallback_search_found date current (days1 : list Z) i days2 c :
  Forall (fun j => 1 ≤ PyDate.ymd2ord current - j ≤ PyDate.MAXORDINAL) (days1 ++ [i])%list →
  Forall (fun j => cube_on root (days_before current j) = None) days1 →
  cube_on root (days_before current i) = Some c →
  fallback_search root date current (days1 ++ i :: days2)%list = rate_row c.
Proof.
  induction days1 as [|j days1 IH]; intros Hrange Hnone Hc; simpl.
  - inversion Hrange as [|? ? Hi _]; subst.
    rewrite sub_days_Ok by exact Hi. simpl.
    fold (days_before current i). rewrite Hc. reflexivity.
  - inversion Hrange as [|? ? Hj Hrange']; subst.
    inversion Hnone as [|? ? Hn Hnone']; subst.
    rewrite sub_days_Ok by exact Hj. simpl.
    fold (days_before current j). rewrite Hn. by apply IH.
Qed.

Lemma fallback_search_none date current days :
  Forall (fun j => 1 ≤ PyDate.ymd2ord current - j ≤ PyDate.MAXORDINAL) days →
  Forall (fun j => cube_on root (days_before current j) = None) days →
  fallback_search root date current days = Err (no_rate_found date).
Proof.
  induction days as [|j days IH]; intros Hrange Hnone; simpl; [reflexivity|].
  inversion Hrange as [|? ? Hj Hrange']; subst.
  inversion Hnone as [|? ? Hn Hnone']; subst.
  rewrite sub_days_Ok by exact Hj. simpl.
  fold (days_before current j). rewrite Hn. by apply IH.
Qed.

Lemma fallback_search_row date current days row :
  fallback_search root date current days = Ok row → ∃ c, c ∈ root ∧ rate_row c = Ok row.
Proof.
  induction days as [|j days IH]; simpl; [discriminate|].
  destruct (PyDate.sub_days current j) as [prev|e]; simpl; [|discriminate].
  destruct (cube_on root (PyDate.strftime prev)) as [c|] eqn:Hc; [|exact IH].
  intros Hrow. exists c. split; [|exact Hrow].
  unfold cube_on in Hc. apply find_some in Hc as [Hin _]. by apply list_elem_of_In.
Qed.

Lemma get_rate_with_fallback_row date row :
  get_rate_with_fallback root date = Ok row → ∃ c, c ∈ root ∧ rate_row c = Ok row.
Proof.
  unfold get_rate_with_fallback.
  destruct (PyDate.strptime date) as [current|e]; [|discriminate].
  apply fallback_search_row.
Qed.

(** What the first loop leaves under a date: what was there before, or the
    row of a cube dated so. *)
Lemma published_rates_row cubes dates_needed rates rates' d row :
  published_rates cubes dates_needed rates = Ok rates' →
  rates' !! d = Some row →
  rates !! d = Some row ∨ ∃ c, c ∈ cubes ∧ Ecb.time c = d ∧ rate_row c = Ok row.
Proof.
  revert rates. induction cubes as [|c cubes IH]; intros rates; simpl.
  - intros [= <-] Hd. by left.
  - assert (Hlater : ∀ acc, published_rates cubes dates_needed acc = Ok rates' →
                            rates' !! d = Some row →
                            acc !! d = Some row
                            ∨ ∃ c', c' ∈ c :: cubes ∧ Ecb.time c' = d ∧ rate_row c' = Ok row).
    { intros acc H Hd. destruct (IH _ H Hd) as [Hacc|(c' & Hin & Ht & Hr)]; [by left|].
      right. exists c'. split; [by apply list_elem_of_further|done]. }
    destruct (bool_decide (Ecb.time c ∈ dates_needed)); [|apply Hlater].
    intros H Hd. apply bind_Ok in H as (new & Hnew & H).
    destruct (Hlater _ H Hd) as [Hacc|Hc]; [|by right].
    destruct (decide (Ecb.time c = d)) as [Heq|Hne].
    + rewrite Heq, lookup_insert_eq in Hacc. injection Hacc as <-.
      right. exists c. split; [apply list_elem_of_here|done].
    + rewrite lookup_insert_ne in Hacc by done. by left.
Qed.

Lemma published_rates_None dates_needed rates d :
  cube_on root d = None → published_rates root dates_needed ∅ = Ok rates →
  rates !! d = None.
Proof.
  intros Hnone Hpub. destruct (rates !! d) as [row|] eqn:H; [|done].
  destruct (published_rates_row _ _ _ _ _ _ Hpub H) as [Hempty|(c & Hin & Htime & _)].
  - rewrite lookup_empty in Hempty. discriminate.
  - unfold cube_on in Hnone. apply list_elem_of_In in Hin.
    eapply find_none in Hnone; [|exact Hin]. simpl in Hnone.
    apply String.eqb_neq in Hnone. done.
Qed.

(** The second loop only adds rows, each one a cube's. *)
Lemma fill_missing_row dates rates rates' :
  fill_missing root dates rates = Ok rates' →
  ∀ d row, rates' !! d = Some row →
           rates !! d = Some row ∨ ∃ c, c ∈ root ∧ rate_row c = Ok row.
Proof.
  revert rates. induction dates as [|date dates IH]; intros rates; simpl.
  - intros [= <-] d row H. by left.
  - destruct (rates !! date) as [old|] eqn:Hold; [apply IH|].
    destruct (get_rate_with_fallback root date) as [new|e] eqn:Hnew; simpl; [|discriminate].
    intros H d row Hd. destruct (IH _ H d row Hd) as [Hin|Hc]; [|by right].
    destruct (decide (date = d)) as [<-|Hne].
    + rewrite lookup_insert_eq in Hin. injection Hin as <-.
      right. eapply get_rate_with_fallback_row; exact Hnew.
    + rewrite lookup_insert_ne in Hin by done. by left.
Qed.

(** An entry the loop meets or makes is still there at the end. *)
Lemma fill_missing_keeps dates rates rates' d row :
  fill_missing root dates rates = Ok rates' → rates !! d = Some row → rates' !! d = Some row.
Proof.
  revert rates. induction dates as [|date dates IH]; intros rates; simpl.
  - intros [= <-]. done.
  - destruct (rates !! date) as [old|] eqn:Hold; [apply IH|].
    destruct (get_rate_with_fallback root date) as [new|e]; simpl; [|discriminate].
    intros H Hd. apply (IH _ H). rewrite lookup_insert_ne; [done|]. congruence.
Qed.

Lemma fill_missing_resolves dates rates rates' d :
  fill_missing root dates rates = Ok rates' → d ∈ dates → rates !! d = None →
  ∃ row, get_rate_with_fallback root d = Ok row ∧ rates' !! d = Some row.
Proof.
  revert rates. induction dates as [|date dates IH]; intros rates; simpl; [set_solver|].
  intros H Hin Hnone. destruct (decide (date = d)) as [->|Hne].
  - rewrite Hnone in H.
    destruct (get_rate_with_fallback root d) as [new|e]; simpl in H; [|discriminate].
    exists new. split; [done|]. eapply fill_missing_keeps; [exact H|]. apply lookup_insert_eq.
  - assert (d ∈ dates) by (apply elem_of_cons in Hin as [?|?]; congruence).
    destruct (rates !! date) as [old|] eqn:Hold; [by eapply IH|].
    destruct (get_rate_with_fallback root date) as [new|e]; simpl in H; [|discriminate].
    eapply IH; [exact H|done|]. rewrite lookup_insert_ne; done.
Qed.

Lemma fill_missing_fails dates rates d :
  d ∈ dates → rates !! d = None → is_ok (get_rate_with_fallback root d) = false →
  is_ok (fill_missing root dates rates) = false.
Proof.
  intros Hin Hnone Hfail.
  destruct (fill_missing root dates rates) as [rates'|e] eqn:H; [|done].
  destruct (fill_missing_resolves _ _ _ _ H Hin Hnone) as (row & Hrow & _).
  rewrite Hrow in Hfail. discriminate.
Qed.

(** What [fetch_ecb_rates] returns has, under a requested date without a
    cube, the row the fallback gives. *)
Lemma fetch_ecb_rates_resolves dates_needed rates d :
  fetch_ecb_rates root dates_needed = Ok rates → d ∈ dates_needed →
  cube_on root d = None →
  ∃ row, get_rate_with_fallback root d = Ok row ∧ rates !! d = Some row.
Proof.
  unfold fetch_ecb_rates. intros H Hin Hnone.
  apply bind_Ok in H as (published & Hpub & H).
  eapply fill_missing_resolves; [exact H|exact Hin|].
  eapply published_rates_None; [exact Hnone|exact Hpub].
Qed.

(** Every row of the table is read from a cube of the document. *)
Lemma fetch_ecb_rates_row dates_needed rates d row :
  fetch_ecb_rates root dates_needed = Ok rates → rates !! d = Some row →
  ∃ c, c ∈ root ∧ rate_row c = Ok row.
Proof.
  unfold fetch_ecb_rates. intros H Hd.
  apply bind_Ok in H as (published & Hpub & H).
  destruct (fill_missing_row _ _ _ H d row Hd) as [Hp|Hc]; [|exact Hc].
  destruct (published_rates_row _ _ _ _ _ _ Hpub Hp) as [Hempty|(c & Hin & _ & Hr)].
  - rewrite lookup_empty in Hempty. discriminate.
  - by exists c.
Qed.

Lemma read_rates_EUR entries acc row :
  (∀ a r, ("EUR", a) ∈ entries → float_of_attribute a = Ok r → r = PyFloat.one) →
  acc !! "EUR" = Some PyFloat.one →
  read_rates entries acc = Ok row → row !! "EUR" = Some PyFloat.one.
Proof.
  revert acc. induction entries as [|[cur a] entries IH]; intros acc Hl Hacc; simpl.
  - intros [= <-]. exact Hacc.
  - intros H. apply bind_Ok in H as (r & Hr & H).
    eapply IH; [|  |exact H].
    + intros a' r' Hin. apply Hl. by apply list_elem_of_further.
    + destruct (decide (cur = "EUR")) as [->|Hne].
      * rewrite lookup_insert_eq. f_equal. eapply Hl; [apply list_elem_of_here|exact Hr].
      * rewrite lookup_insert_ne by done. exact Hacc.
Qed.

Lemma rate_row_EUR c row :
  (∀ a r, ("EUR", a) ∈ Ecb.entries c → float_of_attribute a = Ok r → r = PyFloat.one) →
  rate_row c = Ok row → row !! "EUR" = Some PyFloat.one.
Proof.
  intros Hl. unfold rate_row. apply read_rates_EUR; [exact Hl|]. apply lookup_insert_eq.
Qed.

(** A cube whose rates all read gives a row. *)
Lemma read_rates_numeric entries acc :
  (∀ cur a, (cur, a) ∈ entries → is_ok (float_of_attribute a) = true) →
  is_ok (read_rates entries acc) = true.
Proof.
  revert acc. induction entries as [|[cur a] entries IH]; intros acc Hl; simpl; [reflexivity|].
  pose proof (Hl cur a (list_elem_of_here _ _)) as Ha.
  destruct (float_of_attribute a) as [r|e]; [|discriminate]. simpl.
  apply IH. intros cur' a' Hin. eapply Hl. apply list_elem_of_further. exact Hin.
Qed.

Lemma rate_row_numeric c :
  numeric root → c ∈ root → is_ok (rate_row c) = true.
Proof.
  intros Hnum Hc. apply read_rates_numeric. intros cur a. by apply Hnum.
Qed.

Lemma cube_on_elem d c : cube_on root d = Some c → c ∈ root.
Proof.
  unfold cube_on. intros H. apply find_some in H as [Hin _]. by apply list_elem_of_In.
Qed.

(** A date that [strptime] accepts is a day of the years 1 to 9999. *)
Lemma make_range y m d current :
  PyDate.make y m d = Ok current →
  current = PyDate.Date y m d ∧ 1 ≤ y ≤ 9999 ∧ 1 ≤ m ≤ 12 ∧ 1 ≤ d ≤ PyDate.days_in_month y m.
Proof.
  unfold PyDate.make.
  destruct (1 <=? y) eqn:H1; [|discriminate]. destruct (y <=? 9999) eqn:H2; [|discriminate].
  destruct (1 <=? m) eqn:H3; [|discriminate]. destruct (m <=? 12) eqn:H4; [|discriminate].
  destruct (1 <=? d) eqn:H5; [|discriminate].
  destruct (d <=? PyDate.days_in_month y m) eqn:H6; [|discriminate].
  simpl. intros [= <-]. split; [reflexivity|]. lia.
Qed.

Lemma ymd2ord_le_max y m d :
  1 ≤ y ≤ 9999 → 1 ≤ m ≤ 12 → 1 ≤ d ≤ PyDate.days_in_month y m →
  PyDate.ymd2ord (PyDate.Date y m d) ≤ PyDate.MAXORDINAL.
Proof.
  intros Hy Hm Hd. unfold PyDate.ymd2ord, PyDate.MAXORDINAL.
  cbn [PyDate.year PyDate.month PyDate.day].
  assert (Hyear : PyDate.days_before_year y ≤ 3651329
                  ∨ (y = 9999 ∧ PyDate.days_before_year y = 3651694)).
  { destruct (decide (y = 9999)) as [->|Hne]; [right; split; reflexivity|left].
    cbv beta zeta delta [PyDate.days_before_year]. Z.div_mod_to_equations. lia. }
  assert (Hmonth : PyDate.days_before_month y m + d
                   ≤ 365 + (if PyDate.is_leap y then 1 else 0)).
  { unfold PyDate.days_before_month, PyDate.days_in_month, PyDate.nth_month,
      PyDate.DAYS_IN_MONTH, PyDate.DAYS_BEFORE_MONTH in *.
    assert (Hcases : m = 1 ∨ m = 2 ∨ m = 3 ∨ m = 4 ∨ m = 5 ∨ m = 6 ∨ m = 7 ∨ m = 8
                     ∨ m = 9 ∨ m = 10 ∨ m = 11 ∨ m = 12) by lia.
    destruct (PyDate.is_leap y);
      repeat (destruct Hcases as [->|Hcases]; [simpl in *; lia|]);
      subst; simpl in *; lia. }
  destruct Hyear as [Hle|[-> Heq]].
  - clear Hd. revert Hmonth Hle.
    generalize (PyDate.days_before_year y) (PyDate.days_before_month y m).
    destruct (PyDate.is_leap y); lia.
  - change (PyDate.is_leap 9999) with false in Hmonth. clear Hd. revert Hmonth Heq.
    generalize (PyDate.days_before_year 9999) (PyDate.days_before_month 9999 m). lia.
Qed.

Lemma strptime_le_max date current :
  PyDate.strptime date = Ok current → PyDate.ymd2ord current ≤ PyDate.MAXORDINAL.
Proof.
  unfold PyDate.strptime.
  destruct (Re.match_ PyDate.ymd_regex date) as [m|]; [|discriminate].
  destruct (negb _); [discriminate|].
  intros H. apply bind_Ok in H as (y & _ & H).
  apply bind_Ok in H as (mo & _ & H). apply bind_Ok in H as (d & _ & H).
  apply make_range in H as (-> & Hy & Hm & Hd). by apply ymd2ord_le_max.
Qed.

End Resolver.



(** C4, what the code does: when no cube lists a EUR rate of its own, every
    row of the table [fetch_ecb_rates] returns, published or filled in by the
    fallback, has EUR at exactly 1.0; and a transaction in EUR is taxed at
    that rate, its reference amount being [round(amount / 1.0, 2)]. *)
Theorem reference_currency_identity root dates_needed rates :
  eur_untouched root →
  fetch_ecb_rates root dates_needed = Ok rates →
  (∀ d row, rates !! d = Some row → row !! "EUR" = Some PyFloat.one)
  ∧ (∀ t r, Grouped.currency t = "EUR" → tax_transaction rates t = Ok r →
            Taxed.rate r = PyFloat.one
            ∧ Taxed.eur_amount r
              = PyFloat.round2 (SFdiv PyFloat.prec PyFloat.emax (Grouped.amount t) PyFloat.one)).
Proof.
  intros Heur Hfetch.
  assert (Hrows : ∀ d row, rates !! d = Some row → row !! "EUR" = Some PyFloat.one).
  { intros d row Hd.
    destruct (fetch_ecb_rates_row root _ _ _ _ Hfetch Hd) as (c & Hc & Hrow).
    eapply rate_row_EUR; [|exact Hrow]. intros a r. by apply Heur. }
  split; [exact Hrows|].
  intros t r Hcur Htax.
  apply tax_transaction_Ok in Htax as (rate & q & Hrate & Hq & ->). simpl.
  unfold lookup_rate in Hrate. rewrite Hcur in Hrate.
  destruct (rates !! Grouped.date t) as [row|] eqn:Hrow; simpl in Hrate; [|discriminate].
  rewrite (Hrows _ _ Hrow) in Hrate. injection Hrate as <-.
  split; [reflexivity|]. unfold PyFloat.truediv in Hq. simpl in Hq.
  injection Hq as <-. reflexivity.
Qed.

Lemma sample_document_eur_untouched : eur_untouched sample_document.
Proof.
  intros c a r Hc Ha. exfalso.
  repeat (apply elem_of_cons in Hc as [->|Hc]);
    [| |by apply elem_of_nil in Hc]; simpl in Ha;
    repeat (apply elem_of_cons in Ha as [Ha|Ha]; [discriminate|]);
    by apply elem_of_nil in Ha.
Defined.

Lemma reference_currency_identity_witness :
  ∃ rates,
    fetch_ecb_rates sample_document ["2025-01-10"; "2025-01-12"] = Ok rates
    ∧ (∀ d row, rates !! d = Some row → row !! "EUR" = Some PyFloat.one)
    ∧ (∀ t r, Grouped.currency t = "EUR" → tax_transaction rates t = Ok r →
              Taxed.rate r = PyFloat.one
              ∧ Taxed.eur_amount r
                = PyFloat.round2 (SFdiv PyFloat.prec PyFloat.emax (Grouped.amount t) PyFloat.one)).
Proof.
  destruct (fetch_ecb_rates sample_document ["2025-01-10"; "2025-01-12"])
    as [rates|e] eqn:H; [|vm_compute in H; discriminate].
  exists rates. split; [reflexivity|].
  exact (reference_currency_identity sample_document _ rates
           sample_document_eur_untouched H).
Defined.

(** C4, where the code departs from it and from its own comment (for EUR
    the rate is 1.0, so [eur_amount = amount]): 10.005 EUR, read from a
    statement, is taxed on a reference amount of 10.01. *)
Lemma reference_amount_is_rounded :
  ∃ res r,
    process_statements [sample_ib_text] sample_document = Ok res
    ∧ last (transactions res) = Some r
    ∧ Taxed.currency r = "EUR"
    ∧ Taxed.amount r = PyFloat.of_decimal false 10005 (-3)
    ∧ Taxed.eur_amount r = PyFloat.of_decimal false 1001 (-2)
    ∧ Taxed.eur_amount r ≠ Taxed.amount r.
Proof.
  destruct (process_statements [sample_ib_text] sample_document)
    as [res|e] eqn:H; [|vm_compute in H; discriminate].
  vm_compute in H. injection H as <-.
  eexists _, _. split; [reflexivity|]. split; [reflexivity|].
  split; [reflexivity|]. split; [reflexivity|]. split; [reflexivity|].
  vm_compute. discriminate.
Qed.

(** ** The grouper *)

Section Grouper.

Lemma bucket_update_keys_old k t (g : list (group_key * bucket)) :
  k ∈ g.*1 → (bucket_update k t g).*1 = g.*1.
Proof.
  induction g as [|[k' b] g IH]; intros Hin.
  - by apply elem_of_nil in Hin.
  - cbn [bucket_update]. destruct (decide (k = k')) as [->|Hne]; [reflexivity|].
    rewrite !fmap_cons. f_equal. apply IH.
    rewrite fmap_cons in Hin. apply elem_of_cons in Hin as [?|?]; done.
Qed.

Lemma bucket_update_keys_new k t (g : list (group_key * bucket)) :
  k ∉ g.*1 → (bucket_update k t g).*1 = (g.*1 ++ [k])%list.
Proof.
  induction g as [|[k' b] g IH]; intros Hnin; [reflexivity|].
  rewrite fmap_cons in Hnin. apply not_elem_of_cons in Hnin as [Hne Hnin].
  cbn [bucket_update]. rewrite decide_False by exact Hne.
  rewrite !fmap_cons, IH by exact Hnin. reflexivity.
Qed.

Lemma assoc_bucket_update_eq k t g :
  assoc k (bucket_update k t g) = Some (bucket_add (default new_bucket (assoc k g)) t).
Proof.
  induction g as [|[k' b] g IH]; simpl.
  - rewrite decide_True by reflexivity. reflexivity.
  - destruct (decide (k = k')) as [->|Hne]; simpl.
    + rewrite decide_True by reflexivity. reflexivity.
    + rewrite decide_False by exact Hne. exact IH.
Qed.

Lemma assoc_bucket_update_ne k k' t g :
  k' ≠ k → assoc k' (bucket_update k t g) = assoc k' g.
Proof.
  intros Hne. induction g as [|[k0 b] g IH]; simpl.
  - rewrite decide_False by exact Hne. reflexivity.
  - destruct (decide (k = k0)) as [->|Hne0]; simpl.
    + rewrite !decide_False by exact Hne. reflexivity.
    + destruct (decide (k' = k0)); [reflexivity|exact IH].
Qed.

Lemma assoc_None k (g : list (group_key * bucket)) : assoc k g = None ↔ k ∉ g.*1.
Proof.
  induction g as [|[k' b] g IH]; simpl.
  - split; [intros _; apply not_elem_of_nil | reflexivity].
  - rewrite not_elem_of_cons. destruct (decide (k = k')) as [->|Hne].
    + split; [discriminate | intros [? _]; congruence].
    + rewrite IH. tauto.
Qed.

Lemma assoc_elem_of k b (g : list (group_key * bucket)) :
  NoDup g.*1 → (k, b) ∈ g ↔ assoc k g = Some b.
Proof.
  induction g as [|[k' b'] g IH]; simpl; intros Hnd.
  - split; [intros H; by apply elem_of_nil in H | discriminate].
  - apply NoDup_cons in Hnd as [Hnin Hnd]. rewrite elem_of_cons.
    destruct (decide (k = k')) as [->|Hne].
    + split.
      * intros [[= ->]|Hin]; [reflexivity|]. exfalso. apply Hnin.
        apply list_elem_of_fmap. exists (k', b). by split.
      * intros [= ->]. by left.
    + rewrite <- (IH Hnd). split; [|by right].
      intros [Heq|?]; [|done]. injection Heq as ? ?. congruence.
Qed.

Lemma collect_snoc ts t :
  collect (ts ++ [t]) = bucket_update (key_of t) t (collect ts).
Proof. unfold collect. by rewrite foldl_snoc. Qed.

Lemma collect_keys_NoDup ts : NoDup (collect ts).*1.
Proof.
  induction ts as [|t ts IH] using rev_ind; [constructor|].
  rewrite collect_snoc. destruct (decide (key_of t ∈ (collect ts).*1)) as [Hin|Hnin].
  - by rewrite bucket_update_keys_old.
  - rewrite bucket_update_keys_new by exact Hnin.
    apply NoDup_app. split; [exact IH|]. split; [|apply NoDup_singleton].
    intros k Hk Hk'. apply list_elem_of_singleton in Hk'. congruence.
Qed.

Lemma collect_keys ts k : k ∈ (collect ts).*1 ↔ k ∈ key_of <$> ts.
Proof.
  induction ts as [|t ts IH] using rev_ind.
  - split; intros H; by apply elem_of_nil in H.
  - rewrite collect_snoc, fmap_app, elem_of_app. simpl.
    rewrite list_elem_of_singleton.
    destruct (decide (key_of t ∈ (collect ts).*1)) as [Hin|Hnin].
    + rewrite bucket_update_keys_old by exact Hin.
      rewrite IH. split; [by left|]. intros [?| ->]; [done|]. by apply IH.
    + rewrite bucket_update_keys_new by exact Hnin.
      rewrite elem_of_app, list_elem_of_singleton, IH. reflexivity.
Qed.

Lemma bucket_add_of l t : bucket_add (bucket_of l) t = bucket_of (l ++ [t]).
Proof.
  unfold bucket_add, bucket_of, sum_shares, sum_amount. simpl.
  by rewrite !foldl_snoc.
Qed.

(** The bucket of a key holds exactly the key's transactions, in input
    order, and their sums. *)
Lemma collect_assoc ts k :
  assoc k (collect ts)
  = match members k ts with [] => None | ms => Some (bucket_of ms) end.
Proof.
  induction ts as [|t ts IH] using rev_ind; [reflexivity|].
  rewrite collect_snoc. unfold members in *. rewrite filter_app.
  destruct (decide (key_of t = k)) as [<-|Hne].
  - rewrite assoc_bucket_update_eq, IH.
    rewrite (filter_cons_True _ t []) by reflexivity. rewrite filter_nil.
    destruct (filter _ ts) as [|m ms]; [reflexivity|].
    simpl default. rewrite bucket_add_of. reflexivity.
  - rewrite assoc_bucket_update_ne by congruence. rewrite IH.
    rewrite (filter_cons_False _ t []) by exact Hne. rewrite filter_nil, app_nil_r.
    reflexivity.
Qed.

Lemma group_record_key k b : grouped_key (group_record (k, b)) = k.
Proof. by destruct k as [[[[d br] s] ty] c]. Qed.

Lemma group_record_fields k b :
  Grouped.shares (group_record (k, b)) = b_shares b
  ∧ Grouped.amount (group_record (k, b)) = b_amount b
  ∧ Grouped.grouped_count (group_record (k, b)) = Z.of_nat (length (b_transactions b)).
Proof. by destruct k as [[[[d br] s] ty] c]. Qed.

Lemma grouped_keys ts : grouped_key <$> (group_record <$> collect ts) = (collect ts).*1.
Proof.
  rewrite <- list_fmap_compose. apply list_fmap_ext.
  intros _ [k b] _. apply group_record_key.
Qed.

(** *** Sorting *)

Lemma tuple_leb_total a b : tuple_leb a b = false → tuple_leb b a = true.
Proof.
  destruct a as [[a1 a2] a3], b as [[b1 b2] b3]. unfold tuple_leb.
  rewrite (String.eqb_sym b1 a1), (String.eqb_sym b2 a2).
  destruct (String.eqb a1 b1); [destruct (String.eqb a2 b2)|]; intros H.
  - destruct (String.leb_total a3 b3); congruence.
  - destruct (String.leb_total a2 b2); congruence.
  - destruct (String.leb_total a1 b1); congruence.
Qed.

Lemma key_le_total x y : ¬ key_le x y → key_le y x.
Proof.
  unfold key_le. intros H. apply Is_true_true, tuple_leb_total.
  by apply Is_true_false.
Qed.

Lemma insert_sorted_Permutation x l : insert_sorted x l ≡ₚ x :: l.
Proof.
  induction l as [|y l IH]; simpl; [reflexivity|].
  case_decide; [reflexivity|]. rewrite IH. apply perm_swap.
Qed.

Lemma sorted_Permutation l : sorted l ≡ₚ l.
Proof.
  induction l as [|x l IH]; simpl; [reflexivity|].
  rewrite insert_sorted_Permutation. by constructor.
Qed.

Lemma insert_sorted_HdRel z x l :
  key_le z x → HdRel key_le z l → HdRel key_le z (insert_sorted x l).
Proof.
  intros Hzx Hzl. destruct l as [|y l]; simpl; [by constructor|].
  case_decide; constructor; [done|]. by inversion Hzl.
Qed.

Lemma insert_sorted_Sorted x l : Sorted key_le l → Sorted key_le (insert_sorted x l).
Proof.
  induction 1 as [|y l Hl IH Hhd]; simpl; [repeat constructor|].
  case_decide as Hxy.
  - constructor; [by constructor|]. by constructor.
  - constructor; [exact IH|]. apply insert_sorted_HdRel; [|exact Hhd].
    by apply key_le_total.
Qed.

Lemma sorted_Sorted l : Sorted key_le (sorted l).
Proof.
  induction l as [|x l IH]; simpl; [constructor|]. by apply insert_sorted_Sorted.
Qed.

(** A sorted list is left as it is. *)
Lemma sorted_id l : Sorted key_le l → sorted l = l.
Proof.
  induction 1 as [|x l Hl IH Hhd]; simpl; [reflexivity|].
  rewrite IH. destruct Hhd as [|y l' Hxy]; simpl; [reflexivity|].
  by rewrite decide_True.
Qed.

End Grouper.

Lemma string_leb_trans a b c :
  String.leb a b = true → String.leb b c = true → String.leb a c = true.
Proof.
  intros H1 H2. apply Is_true_true.
  change (String.le a c). transitivity b; apply Is_true_true; assumption.
Qed.

Lemma tuple_leb_trans a b c :
  tuple_leb a b = true → tuple_leb b c = true → tuple_leb a c = true.
Proof.
  destruct a as [[a1 a2] a3], b as [[b1 b2] b3], c as [[c1 c2] c3]. unfold tuple_leb.
  assert (Hstep : ∀ x y z : string, x ≠ y → String.leb x y = true → String.leb y z = true →
                    x ≠ z ∧ String.leb x z = true).
  { intros x y z Hne Hxy Hyz. split; [|by eapply string_leb_trans].
    intros ->. apply Hne. by apply String.leb_antisym. }
  destruct (String.eqb_spec a1 b1) as [->|Hab1].
  - destruct (String.eqb_spec b1 c1) as [->|Hbc1]; [|done].
    destruct (String.eqb_spec a2 b2) as [->|Hab2].
    + destruct (String.eqb_spec b2 c2) as [->|Hbc2]; [|done]. apply string_leb_trans.
    + destruct (String.eqb_spec b2 c2) as [->|Hbc2].
      * rewrite (proj2 (String.eqb_neq a2 c2)) by exact Hab2. done.
      * intros H1 H2. destruct (Hstep a2 b2 c2 Hab2 H1 H2) as [Hne Hle].
        by rewrite (proj2 (String.eqb_neq a2 c2)).
  - destruct (String.eqb_spec b1 c1) as [->|Hbc1].
    + rewrite (proj2 (String.eqb_neq a1 c1)) by exact Hab1. by intros H1 _.
    + intros H1 H2. destruct (Hstep a1 b1 c1 Hab1 H1 H2) as [Hne Hle].
      by rewrite (proj2 (String.eqb_neq a1 c1)).
Qed.

Lemma key_le_transitive : Transitive key_le.
Proof.
  intros x y z Hxy Hyz. unfold key_le in *.
  apply Is_true_true. apply Is_true_true in Hxy, Hyz. by eapply tuple_leb_trans.
Qed.

Lemma group_transactions_Permutation ts :
  group_transactions ts ≡ₚ group_record <$> collect ts.
Proof. apply sorted_Permutation. Qed.

Lemma group_transactions_keys ts :
  grouped_key <$> group_transactions ts ≡ₚ (collect ts).*1.
Proof. by rewrite group_transactions_Permutation, grouped_keys. Qed.

(** A group records the sums and the number of its members. *)
Lemma group_transactions_sums ts g :
  g ∈ group_transactions ts →
  members (grouped_key g) ts ≠ []
  ∧ Grouped.shares g = sum_shares (members (grouped_key g) ts)
  ∧ Grouped.amount g = sum_amount (members (grouped_key g) ts)
  ∧ Grouped.grouped_count g = Z.of_nat (length (members (grouped_key g) ts)).
Proof.
  rewrite group_transactions_Permutation. intros Hin.
  apply list_elem_of_fmap in Hin as ([k b] & -> & Hin).
  apply assoc_elem_of in Hin; [|apply collect_keys_NoDup].
  rewrite collect_assoc in Hin. rewrite group_record_key.
  destruct (group_record_fields k b) as (-> & -> & ->).
  destruct (members k ts) as [|m ms]; [discriminate|].
  injection Hin as <-. done.
Qed.

Lemma group_transactions_has_key ts t :
  t ∈ ts → ∃ g, g ∈ group_transactions ts ∧ grouped_key g = key_of t.
Proof.
  intros Hin.
  assert (Hk : key_of t ∈ grouped_key <$> group_transactions ts).
  { rewrite group_transactions_keys. apply collect_keys. by apply list_elem_of_fmap_2. }
  apply list_elem_of_fmap in Hk as (g & Hg & Hin'). by exists g.
Qed.

Lemma grouping_partitions_keys ts :
  NoDup (grouped_key <$> group_transactions ts)
  ∧ ∀ k, k ∈ grouped_key <$> group_transactions ts ↔ k ∈ key_of <$> ts.
Proof.
  split.
  - rewrite group_transactions_keys. apply collect_keys_NoDup.
  - intros k. rewrite group_transactions_keys. apply collect_keys.
Qed.

(** C3: grouping partitions by the exact key.  The groups returned have
    pairwise distinct keys (date, broker, stock, type, currency), the keys
    that occur in the input and no others; each group carries the shares and
    the amount of the input transactions of its key added up in input order,
    and their number; the groups come sorted ascending on (date, broker,
    stock); and when the input holds a Buy and a Sell, whatever else they
    share, two different groups stand for them. *)
Theorem grouping_partitions ts :
  NoDup (grouped_key <$> group_transactions ts)
  ∧ (∀ k, k ∈ grouped_key <$> group_transactions ts ↔ k ∈ key_of <$> ts)
  ∧ (∀ g, g ∈ group_transactions ts →
          Grouped.shares g = sum_shares (members (grouped_key g) ts)
          ∧ Grouped.amount g = sum_amount (members (grouped_key g) ts)
          ∧ Grouped.grouped_count g = Z.of_nat (length (members (grouped_key g) ts)))
  ∧ StronglySorted key_le (group_transactions ts)
  ∧ (∀ t1 t2, t1 ∈ ts → t2 ∈ ts → Raw.type t1 = "Buy" → Raw.type t2 = "Sell" →
       ∃ g1 g2, g1 ∈ group_transactions ts ∧ g2 ∈ group_transactions ts ∧ g1 ≠ g2
                ∧ grouped_key g1 = key_of t1 ∧ grouped_key g2 = key_of t2).
Proof.
  split; [|split; [|split; [|split]]].
  - rewrite group_transactions_keys. apply collect_keys_NoDup.
  - intros k. rewrite group_transactions_keys. apply collect_keys.
  - intros g Hg. by destruct (group_transactions_sums ts g Hg) as (_ & ? & ? & ?).
  - apply Sorted_StronglySorted; [exact key_le_transitive|]. apply sorted_Sorted.
  - intros t1 t2 H1 H2 Hbuy Hsell.
    destruct (group_transactions_has_key ts t1 H1) as (g1 & Hg1 & Hk1).
    destruct (group_transactions_has_key ts t2 H2) as (g2 & Hg2 & Hk2).
    exists g1, g2. repeat split; try assumption.
    intros ->. rewrite Hk1 in Hk2. unfold key_of in Hk2.
    injection Hk2 as _ _ _ Hty _. rewrite Hbuy, Hsell in Hty. discriminate.
Qed.

(** ** Floats *)

Section Floats.

Lemma shr_1_m mrs : 0 ≤ shr_m mrs → shr_m (shr_1 mrs) = shr_m mrs / 2.
Proof.
  destruct mrs as [m r s]. simpl. destruct m as [|[p|p|]|p]; simpl; intros H;
    try reflexivity; try lia.
  - rewrite Pos2Z.inj_xI. Z.div_mod_to_equations. lia.
  - rewrite Pos2Z.inj_xO. Z.div_mod_to_equations. lia.
Qed.

Lemma iter_shr_m p mrs :
  0 ≤ shr_m mrs → shr_m (SpecFloat.iter_pos shr_1 p mrs) = shr_m mrs / 2 ^ Zpos p.
Proof.
  revert mrs. induction p as [p IH|p IH|]; intros mrs Hm; simpl SpecFloat.iter_pos.
  - assert (H1 : 0 ≤ shr_m (shr_1 mrs)).
    { rewrite shr_1_m by exact Hm. apply Z.div_pos; lia. }
    assert (H2 : 0 ≤ shr_m (SpecFloat.iter_pos shr_1 p (shr_1 mrs))).
    { rewrite IH by exact H1. apply Z.div_pos; [exact H1|]. apply Z.pow_pos_nonneg; lia. }
    rewrite IH by exact H2. rewrite IH by exact H1. rewrite shr_1_m by exact Hm.
    assert (Hpow : 0 < 2 ^ Z.pos p) by (apply Z.pow_pos_nonneg; lia).
    rewrite !Z.div_div by lia. f_equal.
    rewrite Pos2Z.inj_xI, Z.pow_add_r, Z.pow_mul_r, Z.pow_1_r by lia.
    change (2 ^ 2) with 4.
    replace (2 ^ Z.pos p * 2 ^ Z.pos p) with ((2 ^ Z.pos p) ^ 2) by (rewrite Z.pow_2_r; lia).
    rewrite <- Z.pow_mul_r, (Z.mul_comm (Z.pos p) 2), Z.pow_mul_r by lia.
    change (2 ^ 2) with 4. lia.
  - assert (H2 : 0 ≤ shr_m (SpecFloat.iter_pos shr_1 p mrs)).
    { rewrite IH by exact Hm. apply Z.div_pos; [exact Hm|]. apply Z.pow_pos_nonneg; lia. }
    rewrite IH by exact H2. rewrite IH by exact Hm.
    assert (Hpow : 0 < 2 ^ Z.pos p) by (apply Z.pow_pos_nonneg; lia).
    rewrite Z.div_div by lia. f_equal.
    rewrite Pos2Z.inj_xO, <- Z.pow_add_r by lia. f_equal. lia.
  - rewrite shr_1_m by exact Hm. reflexivity.
Qed.

Lemma digits2_lower m : 2 ^ (Zpos (digits2_pos m) - 1) ≤ Zpos m.
Proof.
  induction m as [m IH|m IH|]; simpl digits2_pos.
  - rewrite Pos2Z.inj_succ, Pos2Z.inj_xI.
    replace (Z.succ (Z.pos (digits2_pos m)) - 1) with (Z.pos (digits2_pos m) - 1 + 1) by lia.
    rewrite Z.pow_add_r by lia. change (2 ^ 1) with 2.
    revert IH. generalize (2 ^ (Z.pos (digits2_pos m) - 1)). lia.
  - rewrite Pos2Z.inj_succ. change (Z.pos m~0) with (2 * Z.pos m).
    replace (Z.succ (Z.pos (digits2_pos m)) - 1) with (Z.pos (digits2_pos m) - 1 + 1) by lia.
    rewrite Z.pow_add_r by lia. change (2 ^ 1) with 2.
    revert IH. generalize (2 ^ (Z.pos (digits2_pos m) - 1)). lia.
  - reflexivity.
Qed.

(** Shifting a mantissa to its place never empties it when the exponent is
    already a double's. *)
Lemma shr_fexp_pos m e l :
  0 < m → -1074 ≤ e →
  0 < shr_m (shr_fexp PyFloat.prec PyFloat.emax m e l).1
  ∧ -1074 ≤ (shr_fexp PyFloat.prec PyFloat.emax m e l).2.
Proof.
  intros Hm He. unfold shr_fexp, shr.
  destruct m as [|p|p]; try lia. simpl Zdigits2.
  pose proof (digits2_lower p) as Hd. revert Hd.
  generalize (Z.pos (digits2_pos p)) as d. intros d Hd.
  assert (Hm0 : shr_m (shr_record_of_loc (Z.pos p) l) = Z.pos p)
    by (destruct l as [|[]]; reflexivity).
  destruct (fexp PyFloat.prec PyFloat.emax (d + e) - e) as [|n|n] eqn:Hn;
    cbn [fst snd]; rewrite ?Hm0; try (split; lia).
  rewrite iter_shr_m by (rewrite Hm0; lia). rewrite Hm0.
  unfold fexp, emin, PyFloat.prec, PyFloat.emax in Hn.
  assert (Hshift : Z.pos n = d - 53) by lia.
  split; [|lia]. rewrite Hshift.
  apply Z.div_str_pos. split; [apply Z.pow_pos_nonneg; lia|].
  transitivity (2 ^ (d - 1)); [apply Z.pow_le_mono_r; lia | exact Hd].
Qed.

Lemma round_nearest_even_pos m l : 0 < m → 0 < round_nearest_even m l.
Proof.
  intros Hm. destruct l as [|[]]; simpl; try lia. destruct (Z.even m); lia.
Qed.

Lemma binary_round_aux_settled s mx ex lx :
  0 < mx → -1074 ≤ ex →
  settled (binary_round_aux PyFloat.prec PyFloat.emax s mx ex lx)
  ∧ binary_round_aux PyFloat.prec PyFloat.emax s mx ex lx ≠ S754_zero s.
Proof.
  intros Hm He. unfold binary_round_aux.
  destruct (shr_fexp_pos mx ex lx Hm He) as [Hm1 He1].
  destruct (shr_fexp PyFloat.prec PyFloat.emax mx ex lx) as [mrs1 e1].
  cbn [fst snd] in Hm1, He1.
  pose proof (round_nearest_even_pos _ (loc_of_shr_record mrs1) Hm1) as Hr.
  destruct (shr_fexp_pos _ e1 loc_Exact Hr He1) as [Hm2 He2].
  destruct (shr_fexp PyFloat.prec PyFloat.emax _ e1 loc_Exact) as [mrs2 e2].
  cbn [fst snd] in Hm2, He2.
  destruct (shr_m mrs2) as [|q|q]; try lia.
  destruct (e2 <=? PyFloat.emax - PyFloat.prec); split; simpl; done.
Qed.

Lemma binary_round_settled s m e :
  -1074 ≤ e →
  settled (binary_round PyFloat.prec PyFloat.emax s m e)
  ∧ binary_round PyFloat.prec PyFloat.emax s m e ≠ S754_zero s.
Proof.
  intros He. unfold binary_round, shl_align.
  destruct (fexp PyFloat.prec PyFloat.emax (Z.pos (digits2_pos m) + e) - e) eqn:Hn;
    apply binary_round_aux_settled; try lia.
  unfold fexp, emin, PyFloat.prec, PyFloat.emax in *. lia.
Qed.

Lemma binary_normalize_settled m e :
  -1074 ≤ e → settled (binary_normalize PyFloat.prec PyFloat.emax m e false).
Proof.
  intros He. destruct m as [|p|p]; simpl; [reflexivity| |];
    by destruct (binary_round_settled false p e He), (binary_round_settled true p e He).
Qed.

Lemma is_double_settled x : is_double x → x ≠ S754_zero true → settled x.
Proof.
  destruct x as [[]| | |s m e]; simpl; try done.
  unfold is_double. simpl. unfold bounded, canonical_mantissa.
  intros H _. apply andb_prop in H as [H _]. apply Z.eqb_eq in H.
  unfold fexp, emin, PyFloat.prec, PyFloat.emax in H. lia.
Qed.

(** A sum whose operands are settled or doubles is settled. *)
Lemma add_settled x y : settled x → is_double y → settled (PyFloat.add x y).
Proof.
  intros Hx Hy.
  destruct x as [sx|sx| |sx mx ex], y as [sy|sy| |sy my ey]; simpl in *; try done.
  - subst sx. by destruct sy.
  - unfold is_double in Hy. simpl in Hy. unfold bounded, canonical_mantissa in Hy.
    apply andb_prop in Hy as [Hy _]. apply Z.eqb_eq in Hy.
    unfold fexp, emin, PyFloat.prec, PyFloat.emax in Hy. lia.
  - by destruct sx, sy.
  - assert (Hey : -1074 ≤ ey).
    { unfold is_double in Hy. simpl in Hy. unfold bounded, canonical_mantissa in Hy.
      apply andb_prop in Hy as [Hy _]. apply Z.eqb_eq in Hy.
      unfold fexp, emin, PyFloat.prec, PyFloat.emax in Hy. lia. }
    apply binary_normalize_settled. lia.
Qed.

(** Adding a settled value to [0.0] gives it back unchanged. *)
Lemma add_zero_l x : settled x → PyFloat.add PyFloat.zero x = x.
Proof. destruct x as [[]| | |]; simpl; done. Qed.

End Floats.

(** ** Grouping again *)

Section Regroup.

Lemma sum_amount_settled l :
  Forall (fun t => is_double (Raw.amount t)) l → settled (sum_amount l).
Proof.
  unfold sum_amount. intros Hl.
  assert (H : ∀ acc, settled acc →
                settled (foldl (fun acc t => PyFloat.add acc (Raw.amount t)) acc l)).
  { induction Hl as [|t l Ht _ IH]; intros acc Hacc; simpl; [exact Hacc|].
    apply IH. by apply add_settled. }
  apply H. reflexivity.
Qed.

Lemma group_amount_settled ts g :
  Forall (fun t => is_double (Raw.amount t)) ts →
  g ∈ group_transactions ts → settled (Grouped.amount g).
Proof.
  intros Hts Hg. destruct (group_transactions_sums ts g Hg) as (_ & _ & -> & _).
  apply sum_amount_settled. apply Forall_forall. intros t Ht.
  apply list_elem_of_filter in Ht as [_ Ht]. revert t Ht. by apply Forall_forall.
Qed.

Lemma bucket_update_new k t (g : list (group_key * bucket)) :
  k ∉ g.*1 → bucket_update k t g = (g ++ [(k, bucket_add new_bucket t)])%list.
Proof.
  induction g as [|[k' b] g IH]; intros Hnin; [reflexivity|].
  rewrite fmap_cons in Hnin. apply not_elem_of_cons in Hnin as [Hne Hnin].
  cbn [bucket_update]. rewrite decide_False by exact Hne.
  rewrite IH by exact Hnin. reflexivity.
Qed.

(** Transactions of pairwise different keys each open a bucket of their
    own, in input order. *)
Lemma collect_distinct (l : list Raw.t) :
  NoDup (key_of <$> l) →
  collect l = (fun t => (key_of t, bucket_add new_bucket t)) <$> l.
Proof.
  induction l as [|t l IH] using rev_ind; intros Hnd; [reflexivity|].
  rewrite fmap_app in Hnd. apply NoDup_app in Hnd as (Hnd & Hnin & _).
  rewrite collect_snoc, fmap_app, IH by exact Hnd.
  apply bucket_update_new. rewrite <- list_fmap_compose.
  intros Hin. apply (Hnin _ Hin). apply list_elem_of_here.
Qed.

Lemma regroup_record g :
  settled (Grouped.amount g) →
  group_record (key_of (as_raw g), bucket_add new_bucket (as_raw g)) = single g.
Proof.
  intros Hg. pose proof (add_zero_l _ Hg) as Hz.
  destruct g as [d b s ty sh c a n]. unfold single, as_raw, key_of, group_record.
  cbn [Grouped.date Grouped.broker Grouped.stock Grouped.type Grouped.shares
       Grouped.currency Grouped.amount Raw.date Raw.broker Raw.stock Raw.type
       Raw.shares Raw.currency Raw.amount bucket_add new_bucket b_shares b_amount
       b_transactions] in *.
  rewrite Hz. reflexivity.
Qed.

Lemma single_Sorted l : Sorted key_le l → Sorted key_le (single <$> l).
Proof.
  induction 1 as [|x l Hl IH Hhd]; simpl; [constructor|constructor; [exact IH|]].
  destruct Hhd as [|y l' Hxy]; simpl; constructor. exact Hxy.
Qed.

Lemma single_counts l :
  foldl Z.add 0 (Grouped.grouped_count <$> (single <$> l)) = Z.of_nat (length l).
Proof.
  assert (H : ∀ acc, foldl Z.add acc (Grouped.grouped_count <$> (single <$> l))
                     = acc + Z.of_nat (length l)).
  { induction l as [|g l IH]; intros acc; simpl; [lia|]. rewrite IH. simpl. lia. }
  apply H.
Qed.

End Regroup.

(** C6: grouping is idempotent.  When the amounts are doubles, feeding the
    groups back as one raw transaction each and grouping again returns the
    same groups, in the same order, with the same key, shares and amount,
    each now counting one member; so the member counts of the second pass
    add up to the number of groups fed back. *)
Theorem grouping_idempotent ts :
  Forall (fun t => is_double (Raw.amount t)) ts →
  group_transactions (as_raw <$> group_transactions ts) = single <$> group_transactions ts
  ∧ foldl Z.add 0
      (Grouped.grouped_count <$> group_transactions (as_raw <$> group_transactions ts))
    = Z.of_nat (length (group_transactions ts)).
Proof.
  intros Hts.
  assert (Hfix : group_transactions (as_raw <$> group_transactions ts)
                 = single <$> group_transactions ts).
  { unfold group_transactions at 1.
    rewrite collect_distinct.
    - rewrite <- !list_fmap_compose.
      rewrite (list_fmap_ext _ single (group_transactions ts)).
      + apply sorted_id, single_Sorted. apply sorted_Sorted.
      + intros i g Hg. simpl. apply regroup_record.
        eapply group_amount_settled; [exact Hts|].
        apply list_elem_of_lookup. eauto.
    - rewrite <- list_fmap_compose.
      destruct (grouping_partitions_keys ts) as [Hnd _]. exact Hnd. }
  split; [exact Hfix|]. rewrite Hfix. apply single_counts.
Qed.

Lemma grouping_idempotent_witness :
  group_transactions (as_raw <$> group_transactions sample_raw)
  = single <$> group_transactions sample_raw
  ∧ foldl Z.add 0
      (Grouped.grouped_count <$> group_transactions (as_raw <$> group_transactions sample_raw))
    = Z.of_nat (length (group_transactions sample_raw)).
Proof.
  apply (grouping_idempotent sample_raw).
  repeat first [apply Forall_nil; exact I | apply Forall_cons; split; [reflexivity|]].
Defined.

(** ** Comparing floats *)

Section FloatOrder.

Ltac order_cases :=
  repeat match goal with
         | |- context [Pos.compare_cont Eq ?a ?b] =>
             change (Pos.compare_cont Eq a b) with (Pos.compare a b)
         | H : context [Pos.compare_cont Eq ?a ?b] |- _ =>
             change (Pos.compare_cont Eq a b) with (Pos.compare a b) in H
         end;
  repeat match goal with
         | H : context [Z.compare ?a ?b] |- _ =>
             destruct (Z.compare_spec a b); simpl in H
         | |- context [Z.compare ?a ?b] => destruct (Z.compare_spec a b); simpl
         | H : context [Pos.compare ?a ?b] |- _ =>
             destruct (Pos.compare_spec a b); simpl in H
         | |- context [Pos.compare ?a ?b] => destruct (Pos.compare_spec a b); simpl
         end;
  try discriminate; try reflexivity; try lia.

(** [x <= y < z] gives [x <= z]. *)
Lemma leb_ltb_trans x y z :
  PyFloat.leb x y = true → PyFloat.ltb y z = true → PyFloat.leb x z = true.
Proof.
  unfold PyFloat.leb, PyFloat.ltb, SFleb, SFltb.
  destruct x as [sx|sx| |sx mx ex], y as [sy|sy| |sy my ey], z as [sz|sz| |sz mz ez];
    try destruct sx; try destruct sy; try destruct sz; simpl;
    try discriminate; try reflexivity; intros H1 H2; order_cases.
Qed.

(** Of two numbers, one is not above the other. *)
Lemma ltb_false_leb x y :
  x ≠ S754_nan → y ≠ S754_nan → PyFloat.ltb x y = false → PyFloat.leb y x = true.
Proof.
  unfold PyFloat.leb, PyFloat.ltb, SFleb, SFltb.
  destruct x as [sx|sx| |sx mx ex], y as [sy|sy| |sy my ey];
    try destruct sx; try destruct sy; simpl;
    try done; intros _ _ H; order_cases.
Qed.

Lemma ltb_leb_false x y : PyFloat.ltb x y = true → PyFloat.leb y x = false.
Proof.
  unfold PyFloat.leb, PyFloat.ltb, SFleb, SFltb.
  destruct x as [sx|sx| |sx mx ex], y as [sy|sy| |sy my ey];
    try destruct sx; try destruct sy; simpl;
    try done; intros H; order_cases.
Qed.

Lemma ltb_not_nan x y : PyFloat.ltb x y = true → x ≠ S754_nan ∧ y ≠ S754_nan.
Proof. destruct x, y; simpl; try discriminate; done. Qed.

Lemma leb_not_nan x y : PyFloat.leb x y = true → x ≠ S754_nan ∧ y ≠ S754_nan.
Proof. destruct x, y; simpl; try discriminate; done. Qed.

Lemma leb_refl x : x ≠ S754_nan → PyFloat.leb x x = true.
Proof.
  unfold PyFloat.leb, SFleb.
  destruct x as [sx|sx| |sx mx ex]; try destruct sx; simpl; try done;
    intros _; rewrite Z.compare_refl;
    change (Pos.compare_cont Eq mx mx) with (Pos.compare mx mx);
    rewrite Pos.compare_refl; reflexivity.
Qed.

(** What is at least 2.0 is above 0. *)
Lemma two_leb_pos v : PyFloat.leb PyFloat.two v = true → PyFloat.ltb PyFloat.zero v = true.
Proof. destruct v as [s|[]| |[] m e]; simpl; try discriminate; reflexivity. Qed.

Lemma abs_not_below_zero x : PyFloat.ltb (PyFloat.abs x) PyFloat.zero = false.
Proof. by destruct x. Qed.

(** An absolute value is NaN or at least zero. *)
Lemma abs_nan_or_leb x :
  PyFloat.abs x = S754_nan ∨ PyFloat.leb PyFloat.zero (PyFloat.abs x) = true.
Proof. destruct x as [s|s| |s m e]; [right|right|left|right]; reflexivity. Qed.

End FloatOrder.

(** ** The Saxo Bank extractor *)

Ltac inv_result :=
  repeat match goal with
         | H : Ok _ = Ok _ |- _ => injection H as H; try subst
         | H : Err _ = Ok _ |- _ => discriminate H
         | H : None = Some _ |- _ => discriminate H
         | H : Some _ = Some _ |- _ => injection H as H; try subst
         | H : (_ ≫= _) = Ok _ |- _ =>
             let x := fresh "x" in let Hx := fresh "Hx" in
             apply bind_Ok in H as (x & Hx & H)
         | H : (if ?c then _ else _) = Ok _ |- _ =>
             let Hc := fresh "Hc" in destruct c eqn:Hc
         | H : (match ?x with _ => _ end) = Ok _ |- _ =>
             let Hx := fresh "Hx" in destruct x eqn:Hx
         end.

Section Saxo.

Lemma float_raises_ValueError s e : PyStr.float s = Err e → kind e = ValueError.
Proof.
  unfold PyStr.float. destruct (PyStr.split_sign (PyStr.unblank s)) as [neg body].
  repeat case_decide; try discriminate.
  destruct (PyStr.ungroup body ≫= PyStr.decimal) as [[m x]|]; [discriminate|].
  intros [= <-]. reflexivity.
Qed.

Lemma int_raises_ValueError s e : PyStr.int s = Err e → kind e = ValueError.
Proof.
  unfold PyStr.int. destruct (PyStr.split_sign (PyStr.unblank s)) as [neg body].
  destruct (PyStr.ungroup body) as [ds|]; [|by intros [= <-]].
  destruct (PyStr.digits ds) as [n|]; [|by intros [= <-]].
  destruct (_ <? _)%nat; [by intros [= <-]|discriminate].
Qed.

Lemma catch_Ok {A} kinds (body handler : result A) a :
  catch kinds body handler = Ok a → body = Ok a ∨ handler = Ok a.
Proof.
  unfold catch. destruct body as [b|e]; [by left|]. case_decide; [by right|discriminate].
Qed.

Lemma selected_step seen b m v :
  selected seen b m →
  ∃ b' m',
    (if PyFloat.ltb v PyFloat.two then Ok (b, m)
     else if PyFloat.ltb m v then Ok (Some v, v) else Ok (b, m)) = Ok (b', m')
    ∧ selected (seen ++ [v]) b' m'.
Proof.
  intros Hsel.
  destruct (PyFloat.ltb v PyFloat.two) eqn:Hlow.
  { exists b, m. split; [reflexivity|].
    pose proof (ltb_leb_false _ _ Hlow) as Hnq.
    destruct b as [w|]; simpl in *.
    - destruct Hsel as (-> & Hin & Hq & Hmax). repeat split; try done.
      + apply elem_of_app. by left.
      + intros c Hc Hqc. apply elem_of_app in Hc as [Hc|Hc]; [by apply Hmax|].
        apply list_elem_of_singleton in Hc as ->. unfold qualifies in Hqc. congruence.
    - destruct Hsel as [-> Hnone]. split; [done|].
      intros c Hc Hqc. apply elem_of_app in Hc as [Hc|Hc]; [by apply (Hnone c)|].
      apply list_elem_of_singleton in Hc as ->. unfold qualifies in Hqc. congruence. }
  destruct (PyFloat.ltb m v) eqn:Hgt.
  { exists (Some v), v. split; [reflexivity|].
    destruct (ltb_not_nan _ _ Hgt) as [Hm Hv].
    assert (Hqv : qualifies v) by (by apply ltb_false_leb).
    simpl. repeat split; try done.
    - apply elem_of_app. right. apply list_elem_of_here.
    - intros c Hc Hqc. apply elem_of_app in Hc as [Hc|Hc].
      + destruct b as [w|]; simpl in Hsel.
        * destruct Hsel as (-> & _ & _ & Hmax). eapply leb_ltb_trans; [by apply Hmax|done].
        * destruct Hsel as [_ Hnone]. by destruct (Hnone c Hc).
      + apply list_elem_of_singleton in Hc as ->. by apply leb_refl. }
  exists b, m. split; [reflexivity|].
  destruct b as [w|]; simpl in *.
  - destruct Hsel as (-> & Hin & Hq & Hmax). repeat split; try done.
    + apply elem_of_app. by left.
    + intros c Hc Hqc. apply elem_of_app in Hc as [Hc|Hc]; [by apply Hmax|].
      apply list_elem_of_singleton in Hc as ->.
      apply ltb_false_leb; [by apply (leb_not_nan _ _ Hq) | by apply (leb_not_nan _ _ Hqc) | done].
  - destruct Hsel as [-> Hnone]. split; [done|].
    intros c Hc Hqc. apply elem_of_app in Hc as [Hc|Hc]; [by apply (Hnone c)|].
    apply list_elem_of_singleton in Hc as ->.
    apply two_leb_pos in Hqc. congruence.
Qed.

(** The loop never raises and ends with the selection settled over all the
    candidates. *)
Lemma largest_amount_selected amount_matches seen b m :
  selected seen b m →
  ∃ r m', largest_amount amount_matches b m = Ok r
          ∧ selected (seen ++ decoded amount_matches) r m'.
Proof.
  revert seen b m. induction amount_matches as [|s rest IH]; intros seen b m Hsel.
  - exists b, m. simpl. rewrite app_nil_r. done.
  - cbn [largest_amount]. unfold decoded. cbn [omap list_omap].
    destruct (amount_value s) as [v|e] eqn:Hv.
    + cbn [mbind result_bind catch].
      destruct (selected_step seen b m v Hsel) as (b' & m' & Hstep & Hsel').
      rewrite Hstep. cbn [fst snd].
      destruct (IH _ _ _ Hsel') as (r & m'' & Hr & Hfinal).
      exists r, m''. split; [exact Hr|].
      by rewrite <- app_assoc in Hfinal.
    + cbn [mbind result_bind catch].
      rewrite decide_True
        by (rewrite (float_raises_ValueError _ _ Hv); apply list_elem_of_here).
      cbn [fst snd]. by apply IH.
Qed.

Lemma largest_amount_spec amount_matches :
  ∃ r, largest_amount amount_matches None PyFloat.zero = Ok r
       ∧ match r with
         | None => ∀ c, c ∈ decoded amount_matches → ¬ qualifies c
         | Some v => v ∈ decoded amount_matches ∧ qualifies v
                     ∧ ∀ c, c ∈ decoded amount_matches → qualifies c →
                            PyFloat.leb c v = true
         end.
Proof.
  destruct (largest_amount_selected amount_matches [] None PyFloat.zero)
    as (r & m' & Hr & Hsel).
  { split; [reflexivity|]. intros c Hc. by apply elem_of_nil in Hc. }
  exists r. split; [exact Hr|]. rewrite app_nil_l in Hsel.
  destruct r as [v|]; simpl in Hsel; [|by destruct Hsel].
  by destruct Hsel as (_ & ? & ? & ?).
Qed.

(** A transaction a line yields carries the amount the loop selected among
    the line's matches, and shares that are an absolute value. *)
Lemma saxo_row_amount transaction_date line_stripped t :
  saxo_row transaction_date line_stripped = Ok (Some t) →
  largest_amount (Re.findall saxo_amount_regex line_stripped) None PyFloat.zero
  = Ok (Some (Raw.amount t))
  ∧ 0 ≤ Raw.shares t.
Proof.
  unfold saxo_row. intros H. inv_result; cbn [Raw.amount Raw.shares];
    (split; [assumption|lia]).
Qed.

Lemma saxo_line_row line t :
  saxo_line line = Ok (Some t) →
  ∃ transaction_date, saxo_row transaction_date (PyStr.strip line) = Ok (Some t).
Proof.
  unfold saxo_line. intros H.
  destruct (_ || _); [discriminate|].
  destruct (Re.search saxo_date_regex (PyStr.strip line)) as [m|]; [|discriminate].
  destruct (_ && _); [|discriminate].
  inv_result. apply catch_Ok in H as [H|H]; [|discriminate]. eauto.
Qed.

Lemma saxo_loop_Forall (P : Raw.t → Prop) lines acc l :
  (∀ line t, saxo_line line = Ok (Some t) → P t) →
  Forall P acc → saxo_loop lines acc = Ok l → Forall P l.
Proof.
  intros Hline. revert acc. induction lines as [|line lines IH]; intros acc Hacc; simpl.
  - by intros [= <-].
  - intros H. apply bind_Ok in H as (found & Hfound & H).
    eapply IH; [|exact H].
    apply Forall_app. split; [exact Hacc|].
    destruct found as [t|]; simpl; [|constructor].
    constructor; [|constructor]. by eapply Hline.
Qed.

End Saxo.

(** ** The Interactive Brokers extractor *)

Section InteractiveBrokers.

Lemma split_cons sep s : ∃ h t, PyStr.split sep s = h :: t.
Proof.
  induction s as [|c s (h & t & IH)]; simpl; [by eexists _, _|].
  destruct (Ascii.eqb c sep); [by eexists _, _|]. rewrite IH. by eexists _, _.
Qed.

Lemma item_Ok l i x : l !! i = Some x → PyStr.item l i = Ok x.
Proof. unfold PyStr.item. by intros ->. Qed.

Lemma item_Some l i x : PyStr.item l i = Ok x → l !! i = Some x.
Proof. unfold PyStr.item. destruct (l !! i); [by intros [= ->]|discriminate]. Qed.

Lemma item_raises_IndexError l i e : PyStr.item l i = Err e → kind e = IndexError.
Proof. unfold PyStr.item. destruct (l !! i); [discriminate|]. by intros [= <-]. Qed.

Lemma proceeds_token_raises parts e :
  proceeds_token parts = Err e → kind e = IndexError.
Proof.
  unfold proceeds_token. destruct (_ && _).
  - destruct (PyStr.item parts 4) eqn:H; [discriminate|].
    intros [= <-]. by eapply item_raises_IndexError.
  - destruct (4 <=? _); [|discriminate].
    destruct (PyStr.item parts 3) eqn:H; [discriminate|].
    intros [= <-]. by eapply item_raises_IndexError.
Qed.

(** Whatever the body of the [try] raises, the [except] clause names. *)
Lemma ib_row_raises date cur symbol parts e :
  ib_row date cur symbol parts = Err e → kind e ∈ [ValueError; IndexError].
Proof.
  unfold ib_row.
  destruct (PyStr.item parts 1) as [q|e1] eqn:H1; simpl.
  2:{ intros [= <-]. rewrite (item_raises_IndexError _ _ _ H1).
      apply list_elem_of_further, list_elem_of_here. }
  destruct (PyStr.int _) as [quantity|e2] eqn:H2; simpl.
  2:{ intros [= <-]. rewrite (int_raises_ValueError _ _ H2). apply list_elem_of_here. }
  destruct (proceeds_token parts) as [tok|e3] eqn:H3; simpl.
  2:{ intros [= <-]. rewrite (proceeds_token_raises _ _ H3).
      apply list_elem_of_further, list_elem_of_here. }
  destruct tok as [p|]; [|discriminate].
  destruct (PyStr.float _) as [proceeds|e4] eqn:H4; simpl.
  2:{ intros [= <-]. rewrite (float_raises_ValueError _ _ H4). apply list_elem_of_here. }
  destruct (PyStr.startswith _ _); [discriminate|].
  destruct (is_forex_pair _); discriminate.
Qed.

Lemma ib_record_total cur line next_line :
  ∃ found, ib_record cur line next_line = Ok found.
Proof.
  unfold ib_record. destruct (split_cons "," line) as (h & t & ->). simpl.
  destruct (PyStr.split_ws (PyStr.strip next_line)) as [|symbol rest] eqn:Hparts.
  - simpl. by eexists.
  - destruct (5 <=? _); [|by eexists]. simpl.
    destruct (ib_row h cur symbol (symbol :: rest)) as [r|e] eqn:Hrow; simpl; [by eexists|].
    rewrite decide_True by (by eapply ib_row_raises). by eexists.
Qed.

(** The loop reaches the end of the text whatever the lines hold. *)
Lemma ib_loop_total lines in_section cur acc :
  ∃ l, ib_loop lines in_section cur acc = Ok l.
Proof.
  revert in_section cur acc.
  induction lines as [|raw rest IH]; intros in_section cur acc; simpl; [by eexists|].
  case_bool_decide; [apply IH|].
  destruct (leaves_stocks_section _).
  - simpl. apply IH.
  - destruct (_ && _); [|apply IH].
    destruct rest as [|next_line rest']; [apply IH|].
    destruct (ib_record_total (default EmptyString cur) (PyStr.strip raw) next_line)
      as (found & ->).
    simpl. apply IH.
Qed.

(** A row that is emitted is the decoding of its tokens: five at least,
    the quantity at index 1, the proceeds at the token [proceeds_token]
    picks. *)
Lemma ib_record_Some cur line next_line t :
  ib_record cur line next_line = Ok (Some t) →
  let parts := PyStr.split_ws (PyStr.strip next_line) in
  ∃ date q p quantity proceeds,
    (5 ≤ length parts)%nat
    ∧ parts !! 1%nat = Some q ∧ PyStr.int (PyStr.replace "," "" q) = Ok quantity
    ∧ proceeds_token parts = Ok (Some p)
    ∧ PyStr.float (PyStr.replace "," "" p) = Ok proceeds
    ∧ t = ib_emits date cur parts quantity proceeds.
Proof.
  unfold ib_record. intros H. simpl.
  apply bind_Ok in H as (date & _ & H).
  destruct (5 <=? _) eqn:Hlen; [|discriminate]. apply Z.leb_le in Hlen.
  apply bind_Ok in H as (symbol & Hsym & H).
  apply catch_Ok in H as [H|H]; [|discriminate].
  unfold ib_row in H.
  apply bind_Ok in H as (q & Hq & H). apply bind_Ok in H as (quantity & Hint & H).
  apply bind_Ok in H as (tok & Htok & H). destruct tok as [p|]; [|discriminate].
  apply bind_Ok in H as (proceeds & Hfl & H).
  destruct (PyStr.startswith _ _); [discriminate|].
  destruct (is_forex_pair _); [discriminate|]. injection H as <-.
  exists date, q, p, quantity, proceeds.
  unfold PyStr.item in Hq, Hsym.
  destruct (_ !! 1%nat) as [q'|] eqn:Hq'; [|discriminate]. injection Hq as ->.
  destruct (_ !! 0%nat) as [s'|] eqn:Hs'; [|discriminate]. injection Hsym as ->.
  repeat split; try done; [lia|]. unfold ib_emits. by rewrite Hs'.
Qed.

Lemma ib_loop_Forall (P : Raw.t → Prop) lines in_section cur acc l :
  (∀ c line next_line t, ib_record c line next_line = Ok (Some t) → P t) →
  Forall P acc → ib_loop lines in_section cur acc = Ok l → Forall P l.
Proof.
  intros Hrec. revert in_section cur acc.
  induction lines as [|raw rest IH]; intros in_section cur acc Hacc; simpl.
  - by intros [= <-].
  - case_bool_decide; [by apply IH|].
    destruct (leaves_stocks_section _); simpl.
    + by apply IH.
    + destruct (_ && _); [|by apply IH].
      destruct rest as [|next_line rest']; [by apply IH|].
      intros Hrun. apply bind_Ok in Hrun as (found & Hfound & Hrun).
      eapply IH; [|exact Hrun]. apply Forall_app. split; [exact Hacc|].
      destruct found as [t|]; simpl; [|constructor].
      constructor; [|constructor]. by eapply Hrec.
Qed.

End InteractiveBrokers.

(** C5, as the code has it: what either extractor emits has shares that are
    an absolute value, so never below zero.  The amount of an Interactive
    Brokers row is an absolute value too: it is never below zero, and it is
    at least zero unless it is NaN.  From a Saxo Bank line the amount is at
    least 2.0, so above zero. *)
Theorem extracted_not_negative text :
  (∀ l, extract_ib_transactions text = Ok l →
        Forall (fun t => 0 ≤ Raw.shares t
                         ∧ PyFloat.ltb (Raw.amount t) PyFloat.zero = false
                         ∧ (Raw.amount t = S754_nan
                            ∨ PyFloat.leb PyFloat.zero (Raw.amount t) = true)) l)
  ∧ (∀ l, extract_saxo_transactions text = Ok l →
          Forall (fun t => 0 ≤ Raw.shares t
                           ∧ PyFloat.leb PyFloat.two (Raw.amount t) = true
                           ∧ PyFloat.ltb PyFloat.zero (Raw.amount t) = true) l).
Proof.
  split; intros l H.
  - eapply ib_loop_Forall; [|constructor|exact H].
    intros c line next_line t Ht.
    apply ib_record_Some in Ht as (date & q & p & quantity & proceeds & _ & _ & _ & _ & _ & ->).
    simpl. split; [lia|]. split; [apply abs_not_below_zero|apply abs_nan_or_leb].
  - eapply saxo_loop_Forall; [|constructor|exact H].
    intros line t Ht. apply saxo_line_row in Ht as (date & Ht).
    apply saxo_row_amount in Ht as [Hsel Hshares].
    destruct (largest_amount_spec (Re.findall saxo_amount_regex (PyStr.strip line)))
      as (r & Hr & Hspec).
    rewrite Hsel in Hr. injection Hr as <-. destruct Hspec as (_ & Hq & _).
    split; [exact Hshares|]. split; [exact Hq|]. by apply two_leb_pos.
Qed.

Lemma extracted_not_negative_witness :
  Forall (fun t => 0 ≤ Raw.shares t
                   ∧ PyFloat.ltb (Raw.amount t) PyFloat.zero = false
                   ∧ (Raw.amount t = S754_nan
                      ∨ PyFloat.leb PyFloat.zero (Raw.amount t) = true))
         [zero_row_transaction]
  ∧ Forall (fun t => 0 ≤ Raw.shares t
                     ∧ PyFloat.leb PyFloat.two (Raw.amount t) = true
                     ∧ PyFloat.ltb PyFloat.zero (Raw.amount t) = true)
           [sample_saxo_transaction].
Proof.
  split.
  - apply (proj1 (extracted_not_negative zero_row_text)). vm_compute. reflexivity.
  - apply (proj2 (extracted_not_negative sample_saxo_line)). vm_compute. reflexivity.
Defined.

(** C5 as stated fails, in each way the code leaves open.  An Interactive
    Brokers row whose quantity and proceeds read 0 is emitted with zero
    shares and a zero amount; one whose proceeds read [nan] is emitted with
    a NaN amount, which is neither above nor at least zero; and a Saxo Bank
    line whose share count reads 0 is emitted with zero shares. *)
Lemma extracted_zero_shares :
  (extract_ib_transactions zero_row_text = Ok [zero_row_transaction]
   ∧ ¬ (0 < Raw.shares zero_row_transaction)
   ∧ PyFloat.ltb PyFloat.zero (Raw.amount zero_row_transaction) = false)
  ∧ (extract_ib_transactions nan_row_text = Ok [nan_row_transaction]
     ∧ PyFloat.ltb PyFloat.zero (Raw.amount nan_row_transaction) = false
     ∧ PyFloat.leb PyFloat.zero (Raw.amount nan_row_transaction) = false)
  ∧ (extract_saxo_transactions zero_shares_saxo_line = Ok [zero_shares_saxo_transaction]
     ∧ ¬ (0 < Raw.shares zero_shares_saxo_transaction)).
Proof.
  split; [|split].
  - split; [vm_compute; reflexivity|]. split; [simpl; lia|reflexivity].
  - split; [vm_compute; reflexivity|]. split; reflexivity.
  - split; [vm_compute; reflexivity|]. simpl. lia.
Qed.

(** C8: the amount of a Saxo Bank line.  A transaction a line yields carries,
    of the values of the line's matches of the amount pattern, one that is at
    least 2.0 and that no other such value exceeds; and when none of the
    values reaches 2.0 the line yields no transaction. *)
Theorem largest_qualifying_amount line :
  (∀ t, saxo_line line = Ok (Some t) →
        Raw.amount t ∈ candidates line ∧ qualifies (Raw.amount t)
        ∧ ∀ c, c ∈ candidates line → qualifies c → PyFloat.leb c (Raw.amount t) = true)
  ∧ ((∀ c, c ∈ candidates line → ¬ qualifies c) → ∀ t, saxo_line line ≠ Ok (Some t)).
Proof.
  assert (Hsome : ∀ t, saxo_line line = Ok (Some t) →
            Raw.amount t ∈ candidates line ∧ qualifies (Raw.amount t)
            ∧ ∀ c, c ∈ candidates line → qualifies c →
                   PyFloat.leb c (Raw.amount t) = true).
  { intros t Ht. apply saxo_line_row in Ht as (date & Ht).
    apply saxo_row_amount in Ht as [Hsel _].
    destruct (largest_amount_spec (Re.findall saxo_amount_regex (PyStr.strip line)))
      as (r & Hr & Hspec).
    rewrite Hsel in Hr. injection Hr as <-. exact Hspec. }
  split; [exact Hsome|].
  intros Hnone t Ht. destruct (Hsome t Ht) as (Hin & Hq & _). by apply (Hnone _ Hin).
Qed.

Lemma largest_qualifying_amount_witness :
  Raw.amount sample_saxo_transaction ∈ candidates sample_saxo_line
  ∧ qualifies (Raw.amount sample_saxo_transaction)
  ∧ ∀ c, c ∈ candidates sample_saxo_line → qualifies c →
         PyFloat.leb c (Raw.amount sample_saxo_transaction) = true.
Proof.
  apply (proj1 (largest_qualifying_amount sample_saxo_line) sample_saxo_transaction).
  vm_compute. reflexivity.
Defined.

(** C9, on the code: the Interactive Brokers extractor returns a list for
    every text, but the Saxo Bank extractor raises on a line whose share
    count is too long a number: [int(float(...))] meets an infinity and the
    [OverflowError] is none of the classes its [except] clause names. *)
Theorem extraction_totality :
  (∀ text, ∃ l, extract_ib_transactions text = Ok l)
  ∧ extract_saxo_transactions overflow_text
    = Err (Raise OverflowError "cannot convert float infinity to integer").
Proof.
  split.
  - intros text. apply ib_loop_total.
  - vm_compute. reflexivity.
Qed.

(** ** The C.Price test *)

Section PriceColumn.

Lemma prefix_empty s : String.prefix EmptyString s = true.
Proof. by destruct s. Qed.

Lemma contains_char_cons c a s :
  PyStr.contains (String c EmptyString) (String a s)
  = if Ascii.eqb a c then true else PyStr.contains (String c EmptyString) s.
Proof.
  simpl. destruct (ascii_dec c a) as [->|Hne].
  - by rewrite prefix_empty, Ascii.eqb_refl.
  - destruct (Ascii.eqb_spec a c) as [->|_]; [done|reflexivity].
Qed.

Lemma contains_char_empty c : PyStr.contains (String c EmptyString) EmptyString = false.
Proof. reflexivity. Qed.

(** A text without the separator is its own single field. *)
Lemma split_no_sep c s :
  PyStr.contains (String c EmptyString) s = false → PyStr.split c s = [s].
Proof.
  induction s as [|a s IH]; [reflexivity|].
  rewrite contains_char_cons. cbn [PyStr.split].
  destruct (Ascii.eqb a c); [discriminate|]. intros H. by rewrite IH.
Qed.

Lemma split_app_two c pre suf :
  ∃ h1 h2 t, PyStr.split c (pre +:+ String c suf) = h1 :: h2 :: t.
Proof.
  induction pre as [|a pre (h1 & h2 & t & IH)]; simpl.
  - rewrite Ascii.eqb_refl. destruct (split_cons c suf) as (h & t & ->). by eexists _, _, _.
  - destruct (Ascii.eqb a c).
    + destruct (split_cons c (pre +:+ String c suf)) as (h & t' & ->). by eexists _, _, _.
    + rewrite IH. by eexists _, _, _.
Qed.

(** The last field starts after the last separator. *)
Lemma split_app_last c pre suf :
  last (PyStr.split c (pre +:+ String c suf)) = last (PyStr.split c suf).
Proof.
  induction pre as [|a pre IH]; simpl.
  - rewrite Ascii.eqb_refl. by destruct (split_cons c suf) as (h & t & ->).
  - destruct (Ascii.eqb a c).
    + rewrite <- IH. by destruct (split_cons c (pre +:+ String c suf)) as (h & t & ->).
    + rewrite <- IH. by destruct (split_app_two c pre suf) as (h1 & h2 & t & ->).
Qed.

Lemma contains_char_app c pre suf :
  PyStr.contains (String c EmptyString) (pre +:+ String c suf) = true.
Proof.
  induction pre as [|a pre IH].
  - change (EmptyString +:+ String c suf) with (String c suf).
    by rewrite contains_char_cons, Ascii.eqb_refl.
  - change (String a pre +:+ String c suf) with (String a (pre +:+ String c suf)).
    rewrite contains_char_cons, IH. by destruct (Ascii.eqb a c).
Qed.

(** A text with the separator splits at its last one. *)
Lemma contains_char_last c s :
  PyStr.contains (String c EmptyString) s = true →
  ∃ pre suf, s = pre +:+ String c suf
             ∧ PyStr.contains (String c EmptyString) suf = false.
Proof.
  induction s as [|a s IH]; [discriminate|].
  rewrite contains_char_cons.
  destruct (PyStr.contains (String c EmptyString) s) eqn:Hs.
  - intros _. destruct (IH eq_refl) as (pre & suf & -> & Hsuf).
    exists (String a pre), suf. by split.
  - destruct (Ascii.eqb_spec a c) as [->|_]; [|discriminate].
    intros _. exists EmptyString, s. by split.
Qed.

Lemma has_c_price_four_places parts :
  has_c_price parts = true ↔ ∃ p3, parts !! 3%nat = Some p3 ∧ four_places p3.
Proof.
  unfold has_c_price, four_places. split.
  - destruct (parts !! 3%nat) as [p3|]; [|discriminate].
    intros H. apply andb_prop in H as [H Hlen]. apply andb_prop in H as [_ Hdot].
    destruct (contains_char_last _ _ Hdot) as (pre & suf & -> & Hsuf).
    rewrite split_app_last, (split_no_sep _ _ Hsuf) in Hlen. simpl in Hlen.
    exists (pre +:+ String "." suf). split; [reflexivity|].
    exists pre, suf. split; [reflexivity|]. split; [exact Hsuf|].
    unfold PyStr.len in Hlen. apply Z.eqb_eq in Hlen. lia.
  - intros (p3 & Hp3 & pre & suf & -> & Hsuf & Hlen). rewrite Hp3.
    apply lookup_lt_Some in Hp3.
    change (pre +:+ "." +:+ suf) with (pre +:+ String "." suf).
    rewrite contains_char_app, split_app_last, (split_no_sep _ _ Hsuf). simpl.
    unfold PyStr.len. rewrite Hlen. simpl. rewrite !andb_true_r. apply Z.leb_le. lia.
Qed.

Lemma four_decimal_digits_has_c_price parts p3 :
  parts !! 3%nat = Some p3 → four_decimal_digits p3 = true → has_c_price parts = true.
Proof.
  intros Hp3 H. unfold has_c_price. rewrite Hp3. unfold four_decimal_digits in H.
  apply andb_prop in H as [Hdot H]. rewrite Hdot.
  destruct (last (PyStr.split "." p3)) as [suf|]; [|discriminate].
  apply andb_prop in H as [Hlen _]. apply Nat.eqb_eq in Hlen. simpl.
  unfold PyStr.len. rewrite Hlen. apply lookup_lt_Some in Hp3.
  simpl. rewrite !andb_true_r. apply Z.leb_le. lia.
Qed.

(** With five tokens or more the proceeds token is the one at index 4 or
    3, as the test says. *)
Lemma proceeds_token_index parts :
  (5 ≤ length parts)%nat →
  proceeds_token parts
  = PyStr.item parts (if has_c_price parts then 4%nat else 3%nat) ≫= fun p => Ok (Some p).
Proof.
  intros Hlen. unfold proceeds_token.
  assert (H5 : (5 <=? Z.of_nat (length parts)) = true) by (apply Z.leb_le; lia).
  assert (H4 : (4 <=? Z.of_nat (length parts)) = true) by (apply Z.leb_le; lia).
  rewrite H5, H4, andb_true_r. by destruct (has_c_price parts).
Qed.

End PriceColumn.

(** C7, as the code has it: a data row of at least five tokens has its
    proceeds read from token 4 when token 3 has a ['.'] with exactly four
    characters after its last one (so whenever four decimal digits end it),
    and from token 3 otherwise; the row is emitted with the magnitude of
    that token's value whenever the quantity and that token read as numbers
    and the symbol is neither a total nor a currency pair. *)
Theorem proceeds_choice cur line next_line :
  (has_c_price (PyStr.split_ws (PyStr.strip next_line)) = true
   ↔ ∃ p3, PyStr.split_ws (PyStr.strip next_line) !! 3%nat = Some p3 ∧ four_places p3)
  ∧ (∀ p3, PyStr.split_ws (PyStr.strip next_line) !! 3%nat = Some p3 →
           four_decimal_digits p3 = true →
           has_c_price (PyStr.split_ws (PyStr.strip next_line)) = true)
  ∧ (∀ t, ib_record cur line next_line = Ok (Some t) →
       (5 ≤ length (PyStr.split_ws (PyStr.strip next_line)))%nat
       ∧ ∃ p proceeds,
           PyStr.split_ws (PyStr.strip next_line)
             !! (if has_c_price (PyStr.split_ws (PyStr.strip next_line))
                 then 4%nat else 3%nat) = Some p
           ∧ PyStr.float (PyStr.replace "," "" p) = Ok proceeds
           ∧ Raw.amount t = PyFloat.abs proceeds)
  ∧ (∀ symbol q quantity p proceeds,
       (5 ≤ length (PyStr.split_ws (PyStr.strip next_line)))%nat →
       PyStr.split_ws (PyStr.strip next_line) !! 0%nat = Some symbol →
       PyStr.split_ws (PyStr.strip next_line) !! 1%nat = Some q →
       PyStr.int (PyStr.replace "," "" q) = Ok quantity →
       PyStr.split_ws (PyStr.strip next_line)
         !! (if has_c_price (PyStr.split_ws (PyStr.strip next_line))
             then 4%nat else 3%nat) = Some p →
       PyStr.float (PyStr.replace "," "" p) = Ok proceeds →
       PyStr.startswith symbol "Total" = false → is_forex_pair symbol = false →
       ∃ t, ib_record cur line next_line = Ok (Some t)
            ∧ Raw.amount t = PyFloat.abs proceeds).
Proof.
  split; [apply has_c_price_four_places|].
  split; [apply four_decimal_digits_has_c_price|]. split.
  - intros t Ht.
    apply ib_record_Some in Ht
      as (date & q & p & quantity & proceeds & Hlen & Hq & Hint & Htok & Hfl & ->).
    split; [exact Hlen|]. exists p, proceeds.
    rewrite proceeds_token_index in Htok by exact Hlen.
    apply bind_Ok in Htok as (p' & Hitem & Htok). injection Htok as ->.
    apply item_Some in Hitem. done.
  - intros symbol q quantity p proceeds Hlen Hsym Hq Hint Hp Hfl Htotal Hforex.
    unfold ib_record. destruct (split_cons "," line) as (date & rest & ->).
    cbn [PyStr.item lookup list_lookup mbind result_bind].
    assert (H5 : (5 <=? Z.of_nat (length (PyStr.split_ws (PyStr.strip next_line)))) = true)
      by (apply Z.leb_le; lia).
    rewrite H5. unfold PyStr.item at 1. rewrite Hsym. cbn [mbind result_bind].
    unfold ib_row. rewrite proceeds_token_index by exact Hlen.
    unfold PyStr.item. rewrite Hq, Hp. cbn [mbind result_bind].
    rewrite Hint. cbn [mbind result_bind]. rewrite Hfl. cbn [mbind result_bind].
    rewrite Htotal, Hforex. cbn [catch]. eexists. split; reflexivity.
Qed.

Lemma proceeds_choice_witness :
  ∃ t, ib_record "JPY" "2025-11-28, 09:00:00"
                 "3836.T -5,000 1,736.0000 1,730.0000 8,680,000 -4,577.06"
       = Ok (Some t)
       ∧ Raw.amount t = PyFloat.abs (PyFloat.of_decimal false 8680000 0).
Proof.
  apply (proj2 (proj2 (proj2 (proceeds_choice "JPY" "2025-11-28, 09:00:00"
                  "3836.T -5,000 1,736.0000 1,730.0000 8,680,000 -4,577.06")))
           "3836.T" "-5,000" (-5000) "8,680,000" (PyFloat.of_decimal false 8680000 0));
    try reflexivity.
  vm_compute. lia.
Defined.

(** C7 as stated fails: four characters that are no digits after the ['.']
    of token 3 make the code read the proceeds from token 4; and a row of
    four tokens, the proceeds at index 3, is not read at all. *)
Lemma proceeds_choice_not_by_digits :
  four_decimal_digits "x.abcd" = false
  ∧ is_ok (PyStr.float (PyStr.replace "," "" "x.abcd")) = false
  ∧ ib_record "USD" "2025-01-10, 09:00:00" "ABC 1 2.0000 x.abcd 4 5"
    = Ok (Some (Raw.Make "2025-01-10" "Interactive Brokers" "ABC" "Buy" 1 "USD"
                         (PyFloat.of_decimal false 4 0)))
  ∧ ib_record "USD" "2025-01-10, 09:00:00" "ABC 100 10.0000 1000.00" = Ok None.
Proof. split; [|split; [|split]]; vm_compute; reflexivity. Qed.

(** A cube that lists EUR itself replaces the 1.0 put in first: the
    condition of [reference_currency_identity] on the document is needed. *)
Example rate_row_overrides_eur :
  ∃ row, rate_row (Ecb.Cube "2025-01-10" [("EUR", Some "2")]) = Ok row
         ∧ row !! "EUR" = Some PyFloat.two.
Proof. eexists. split; reflexivity. Qed.

(** The scenario of the specification: two buys of 1000.00 and 500.00 USD
    group into one of 1500.00, which at 1.05 is 1428.57 EUR and 5.00 of tax. *)
Example end_to_end_scenario :
  (found ← extract_ib_transactions
             (text_of_lines ["USD"; "2025-01-10, 09:00:00";
                             "ABC 100 10.0000 10.0000 1000.00 -1.00";
                             "2025-01-10, 09:30:00";
                             "ABC 50 10.0000 10.0000 500.00 -1.00"]);
   calculate_tob (group_transactions found) sample_rates)
  = Ok [Taxed.Make "2025-01-10" "Interactive Brokers" "ABC" "Buy" 150 "USD"
                   (PyFloat.of_decimal false 150000 (-2)) 2
                   (PyFloat.of_decimal false 105 (-2))
                   (PyFloat.of_decimal false 142857 (-2))
                   (PyFloat.of_decimal false 500 (-2))].
Proof. vm_compute. reflexivity. Qed.

(** * Further properties *)

Lemma is_ok_Ok {A} (r : result A) : is_ok r = true → ∃ a, r = Ok a.
Proof. destruct r as [a|e]; [by exists a|discriminate]. Defined.

(** ** The rate table as a whole *)

Section RateTable.
Context (root : Ecb.document).

Lemma published_rates_app cubes1 cubes2 dates_needed rates :
  published_rates (cubes1 ++ cubes2) dates_needed rates
  = published_rates cubes1 dates_needed rates ≫= published_rates cubes2 dates_needed.
Proof.
  revert rates. induction cubes1 as [|c cubes1 IH]; intros rates; simpl; [reflexivity|].
  destruct (bool_decide _); [|apply IH].
  destruct (rate_row c) as [row|e]; simpl; [apply IH|reflexivity].
Qed.

(** The first loop writes under requested dates only. *)
Lemma published_rates_requested cubes dates_needed rates rates' d :
  published_rates cubes dates_needed rates = Ok rates' →
  is_Some (rates' !! d) → is_Some (rates !! d) ∨ d ∈ dates_needed.
Proof.
  revert rates. induction cubes as [|c cubes IH]; intros rates; simpl.
  - intros [= <-] Hd. by left.
  - case_bool_decide as Hc.
    + intros Hrun Hd. apply bind_Ok in Hrun as (row & _ & Hrun).
      destruct (IH _ Hrun Hd) as [Hin|Hin]; [|by right].
      destruct (decide (Ecb.time c = d)) as [<-|Hne]; [by right|].
      rewrite lookup_insert_ne in Hin by done. by left.
    + apply IH.
Qed.

(** It leaves alone the dates none of its cubes carries. *)
Lemma published_rates_untouched cubes dates_needed rates rates' d :
  Forall (fun c => Ecb.time c ≠ d) cubes →
  published_rates cubes dates_needed rates = Ok rates' → rates' !! d = rates !! d.
Proof.
  intros Hcubes. revert rates.
  induction Hcubes as [|c cubes Hc _ IH]; intros rates; simpl.
  - by intros [= <-].
  - destruct (bool_decide _); [|apply IH].
    intros Hrun. apply bind_Ok in Hrun as (row & _ & Hrun).
    rewrite (IH _ Hrun). by apply lookup_insert_ne.
Qed.

Lemma fill_missing_requested dates rates rates' d :
  fill_missing root dates rates = Ok rates' →
  is_Some (rates' !! d) → is_Some (rates !! d) ∨ d ∈ dates.
Proof.
  revert rates. induction dates as [|date dates IH]; intros rates; simpl.
  - intros [= <-] Hd. by left.
  - destruct (rates !! date) as [old|] eqn:Hold.
    + intros Hrun Hd. destruct (IH _ Hrun Hd) as [?|?]; [by left|].
      right. by apply list_elem_of_further.
    + intros Hrun Hd. apply bind_Ok in Hrun as (row & _ & Hrun).
      destruct (IH _ Hrun Hd) as [Hin|Hin]; [|right; by apply list_elem_of_further].
      destruct (decide (date = d)) as [<-|Hne]; [right; apply list_elem_of_here|].
      rewrite lookup_insert_ne in Hin by done. by left.
Qed.

Lemma fill_missing_covers dates rates rates' d :
  fill_missing root dates rates = Ok rates' → d ∈ dates → is_Some (rates' !! d).
Proof.
  intros Hrun Hin. destruct (rates !! d) as [row|] eqn:Hd.
  - exists row. eapply fill_missing_keeps; [exact Hrun|exact Hd].
  - destruct (fill_missing_resolves root _ _ _ _ Hrun Hin Hd) as (row & _ & Hrow).
    by exists row.
Qed.

(** The table has the requested dates as its keys. *)
Lemma fetch_ecb_rates_requested dates_needed rates :
  fetch_ecb_rates root dates_needed = Ok rates →
  ∀ d, is_Some (rates !! d) ↔ d ∈ dates_needed.
Proof.
  unfold fetch_ecb_rates. intros Hfetch d.
  apply bind_Ok in Hfetch as (published & Hpub & Hfill). split.
  - intros Hd. destruct (fill_missing_requested _ _ _ _ Hfill Hd) as [Hp|Hin]; [|exact Hin].
    destruct (published_rates_requested _ _ _ _ _ Hpub Hp) as [He|Hin]; [|exact Hin].
    rewrite lookup_empty in He. by destruct He.
  - intros Hin. eapply fill_missing_covers; [exact Hfill|exact Hin].
Qed.

(** The last cube of a requested date gives the date's row. *)
Lemma fetch_ecb_rates_last cubes1 c cubes2 dates_needed rates :
  root = (cubes1 ++ c :: cubes2)%list →
  fetch_ecb_rates root dates_needed = Ok rates →
  Ecb.time c ∈ dates_needed →
  Forall (fun c' => Ecb.time c' ≠ Ecb.time c) cubes2 →
  ∃ row, rate_row c = Ok row ∧ rates !! Ecb.time c = Some row.
Proof.
  intros -> Hfetch Hin Hlast. unfold fetch_ecb_rates in Hfetch.
  apply bind_Ok in Hfetch as (published & Hpub & Hfill).
  rewrite published_rates_app in Hpub. apply bind_Ok in Hpub as (before & _ & Hpub).
  simpl in Hpub. rewrite bool_decide_eq_true_2 in Hpub by exact Hin.
  apply bind_Ok in Hpub as (row & Hrow & Hpub).
  exists row. split; [exact Hrow|].
  eapply fill_missing_keeps; [exact Hfill|].
  rewrite (published_rates_untouched _ _ _ _ _ Hlast Hpub). apply lookup_insert_eq.
Qed.

(** Where the last cube of a date stands. *)
Lemma last_cube (cubes : list Ecb.cube) d c :
  c ∈ cubes → Ecb.time c = d →
  ∃ cubes1 c' cubes2,
    cubes = (cubes1 ++ c' :: cubes2)%list ∧ Ecb.time c' = d
    ∧ Forall (fun c'' => Ecb.time c'' ≠ d) cubes2.
Proof.
  induction cubes as [|c0 cubes IH] using rev_ind; intros Hin Ht.
  - by apply elem_of_nil in Hin.
  - destruct (decide (Ecb.time c0 = d)) as [Heq|Hne].
    + exists cubes, c0, []. split; [done|]. split; [done|constructor].
    + apply elem_of_app in Hin as [Hin|Hin].
      * destruct (IH Hin Ht) as (cubes1 & c' & cubes2 & -> & Ht' & Hl).
        exists cubes1, c', (cubes2 ++ [c0])%list. rewrite <- app_assoc. simpl.
        split; [done|]. split; [done|]. apply Forall_app. split; [done|].
        by constructor.
      * apply list_elem_of_singleton in Hin. congruence.
Qed.

End RateTable.

(** X1: the table [fetch_ecb_rates] returns has an entry for each requested
    date and for no other date. *)
Theorem fetch_ecb_rates_dates root dates_needed rates :
  fetch_ecb_rates root dates_needed = Ok rates →
  ∀ d, is_Some (rates !! d) ↔ d ∈ dates_needed.
Proof. apply fetch_ecb_rates_requested. Qed.

Lemma fetch_ecb_rates_dates_witness :
  ∃ rates,
    fetch_ecb_rates sample_document ["2025-01-10"; "2025-01-13"] = Ok rates
    ∧ ∀ d, is_Some (rates !! d) ↔ d ∈ ["2025-01-10"; "2025-01-13"].
Proof.
  destruct (is_ok_Ok (fetch_ecb_rates sample_document ["2025-01-10"; "2025-01-13"]))
    as [rates H]; [vm_compute; reflexivity|].
  exists rates. split; [exact H|].
  exact (fetch_ecb_rates_dates sample_document _ rates H).
Defined.

(** X2: a requested date the document publishes gets the row read from the
    last cube that carries it. *)
Theorem published_date_last_cube (cubes1 : list Ecb.cube) c cubes2 dates_needed rates :
  fetch_ecb_rates (cubes1 ++ c :: cubes2)%list dates_needed = Ok rates →
  Ecb.time c ∈ dates_needed →
  Forall (fun c' => Ecb.time c' ≠ Ecb.time c) cubes2 →
  ∃ row, rate_row c = Ok row ∧ rates !! Ecb.time c = Some row.
Proof.
  intros Hfetch Hin Hlast.
  eapply fetch_ecb_rates_last; [reflexivity|exact Hfetch|exact Hin|exact Hlast].
Qed.

Lemma published_date_last_cube_witness :
  ∃ rates row,
    fetch_ecb_rates ([Ecb.Cube "2025-01-10" [("USD", Some "1.00")]] ++
                     Ecb.Cube "2025-01-10" [("USD", Some "1.05")] ::
                     [Ecb.Cube "2025-01-09" [("USD", Some "1.04")]])%list
                    ["2025-01-10"] = Ok rates
    ∧ rate_row (Ecb.Cube "2025-01-10" [("USD", Some "1.05")]) = Ok row
    ∧ rates !! "2025-01-10" = Some row.
Proof.
  destruct (is_ok_Ok (fetch_ecb_rates ([Ecb.Cube "2025-01-10" [("USD", Some "1.00")]] ++
                     Ecb.Cube "2025-01-10" [("USD", Some "1.05")] ::
                     [Ecb.Cube "2025-01-09" [("USD", Some "1.04")]])%list
                    ["2025-01-10"])) as [rates H];
    [vm_compute; reflexivity|].
  destruct (published_date_last_cube _ _ _ _ rates H) as (row & Hrow & Hlook).
  - apply list_elem_of_here.
  - repeat constructor. discriminate.
  - exists rates, row. done.
Defined.

(** X3: each date is resolved on its own: the row a date gets does not depend
    on the other dates requested with it. *)
Theorem fetch_ecb_rates_independent root dates1 dates2 rates1 rates2 d :
  fetch_ecb_rates root dates1 = Ok rates1 →
  fetch_ecb_rates root dates2 = Ok rates2 →
  d ∈ dates1 → d ∈ dates2 →
  rates1 !! d = rates2 !! d.
Proof.
  intros H1 H2 Hd1 Hd2.
  destruct (cube_on root d) as [c|] eqn:Hc.
  - assert (Ht : Ecb.time c = d).
    { unfold cube_on in Hc. apply find_some in Hc as [_ Ht]. by apply String.eqb_eq in Ht. }
    destruct (last_cube root d c (cube_on_elem root d c Hc) Ht)
      as (cubes1 & c' & cubes2 & Hroot & <- & Hlast).
    destruct (fetch_ecb_rates_last root _ _ _ _ _ Hroot H1 Hd1 Hlast) as (row1 & Hr1 & ->).
    destruct (fetch_ecb_rates_last root _ _ _ _ _ Hroot H2 Hd2 Hlast) as (row2 & Hr2 & ->).
    congruence.
  - destruct (fetch_ecb_rates_resolves root _ _ d H1 Hd1 Hc) as (row1 & Hr1 & ->).
    destruct (fetch_ecb_rates_resolves root _ _ d H2 Hd2 Hc) as (row2 & Hr2 & ->).
    congruence.
Qed.

Lemma fetch_ecb_rates_independent_witness :
  ∃ rates1 rates2,
    fetch_ecb_rates sample_document ["2025-01-10"; "2025-01-13"] = Ok rates1
    ∧ fetch_ecb_rates sample_document ["2025-01-13"] = Ok rates2
    ∧ rates1 !! "2025-01-13" = rates2 !! "2025-01-13".
Proof.
  destruct (is_ok_Ok (fetch_ecb_rates sample_document ["2025-01-10"; "2025-01-13"]))
    as [rates1 H1]; [vm_compute; reflexivity|].
  destruct (is_ok_Ok (fetch_ecb_rates sample_document ["2025-01-13"])) as [rates2 H2];
    [vm_compute; reflexivity|].
  exists rates1, rates2. split; [exact H1|]. split; [exact H2|].
  apply (fetch_ecb_rates_independent sample_document _ _ _ _ _ H1 H2).
  - apply list_elem_of_further, list_elem_of_here.
  - apply list_elem_of_here.
Defined.

(** X4: a requested date that the document does not publish and that is no
    calendar date stops the whole call, with the error [strptime] raised. *)
Theorem unreadable_date_fails root dates_needed date e :
  date ∈ dates_needed →
  cube_on root date = None →
  PyDate.strptime date = Err e →
  get_rate_with_fallback root date = Err e
  ∧ is_ok (fetch_ecb_rates root dates_needed) = false.
Proof.
  intros Hin Hnone Hparse.
  assert (Hfail : get_rate_with_fallback root date = Err e).
  { unfold get_rate_with_fallback. rewrite Hparse. reflexivity. }
  split; [exact Hfail|].
  destruct (fetch_ecb_rates root dates_needed) as [rates|e'] eqn:Hfetch; [|reflexivity].
  destruct (fetch_ecb_rates_resolves root _ _ date Hfetch Hin Hnone) as (row & Hrow & _).
  rewrite Hfail in Hrow. discriminate.
Qed.

Lemma unreadable_date_fails_witness :
  ∃ e, PyDate.strptime "2025-02-30" = Err e
       ∧ get_rate_with_fallback sample_document "2025-02-30" = Err e
       ∧ is_ok (fetch_ecb_rates sample_document ["2025-01-10"; "2025-02-30"]) = false.
Proof.
  eexists. split; [reflexivity|].
  apply (unreadable_date_fails sample_document ["2025-01-10"; "2025-02-30"] "2025-02-30").
  - apply list_elem_of_further, list_elem_of_here.
  - reflexivity.
  - reflexivity.
Defined.

(** ** Failures and signs in the tax engine *)

Section TaxFailures.
Context (ecb_rates : gmap string (gmap string PyFloat.float)).

(** The loop stops at the first transaction whose taxing fails. *)
Lemma calculate_tob_stops ts1 t ts2 e :
  Forall (has_rate ecb_rates) ts1 →
  tax_transaction ecb_rates t = Err e →
  calculate_tob (ts1 ++ t :: ts2) ecb_rates = Err e.
Proof.
  intros Hts1 Ht. induction Hts1 as [|t1 ts1 H1 _ IH]; simpl.
  - rewrite Ht. reflexivity.
  - apply tax_transaction_has_rate in H1.
    destruct (tax_transaction ecb_rates t1) as [r1|e1]; [|discriminate].
    simpl. rewrite IH. reflexivity.
Qed.

End TaxFailures.

(** X5: a transaction without a rate on file, the first of its kind, ends
    [calculate_tob] with the error that names its currency and date; no record
    is returned, not even for the transactions before it. *)
Theorem calculate_tob_missing_rate ecb_rates (ts1 : list Grouped.t) t ts2 :
  Forall (has_rate ecb_rates) ts1 →
  (ecb_rates !! Grouped.date t = None
   ∨ ∃ row, ecb_rates !! Grouped.date t = Some row ∧ row !! Grouped.currency t = None) →
  calculate_tob (ts1 ++ t :: ts2)%list ecb_rates
  = Err (Raise ValueError
           ("No ECB rate for " +:+ Grouped.currency t +:+ " on " +:+ Grouped.date t)).
Proof.
  intros Hts1 Hmiss. apply calculate_tob_stops; [exact Hts1|].
  unfold tax_transaction, lookup_rate.
  destruct Hmiss as [->|(row & -> & Hrow)]; simpl; [reflexivity|].
  rewrite Hrow. reflexivity.
Qed.

Lemma calculate_tob_missing_rate_witness :
  calculate_tob ([sample_grouped] ++
                 Grouped.Make "2025-01-10" "Saxo Bank" "XYZ" "Buy" 1 "GBP" PyFloat.two 1
                 :: [sample_grouped_sell])%list sample_rates
  = Err (Raise ValueError ("No ECB rate for " +:+ "GBP" +:+ " on " +:+ "2025-01-10")).
Proof.
  apply (calculate_tob_missing_rate sample_rates [sample_grouped]
           (Grouped.Make "2025-01-10" "Saxo Bank" "XYZ" "Buy" 1 "GBP" PyFloat.two 1)
           [sample_grouped_sell]).
  - repeat constructor. exists (PyFloat.of_decimal false 105 (-2)). split; reflexivity.
  - right. eexists. split; reflexivity.
Defined.

(** X6: a rate on file that is a zero ends [calculate_tob] with the division
    error. *)
Theorem calculate_tob_zero_rate ecb_rates (ts1 : list Grouped.t) t ts2 rate :
  Forall (has_rate ecb_rates) ts1 →
  lookup_rate ecb_rates (Grouped.date t) (Grouped.currency t) = Ok rate →
  PyFloat.is_zero rate = true →
  calculate_tob (ts1 ++ t :: ts2)%list ecb_rates
  = Err (Raise ZeroDivisionError "float division by zero").
Proof.
  intros Hts1 Hrate Hzero. apply calculate_tob_stops; [exact Hts1|].
  unfold tax_transaction. rewrite Hrate. simpl.
  unfold PyFloat.truediv. rewrite Hzero. reflexivity.
Qed.

Lemma calculate_tob_zero_rate_witness :
  calculate_tob ([] ++ sample_grouped :: [])%list
                {[ "2025-01-10" := {[ "USD" := PyFloat.zero ]} ]}
  = Err (Raise ZeroDivisionError "float division by zero").
Proof.
  apply (calculate_tob_zero_rate _ [] sample_grouped [] PyFloat.zero).
  - constructor.
  - reflexivity.
  - reflexivity.
Defined.

Section Signs.

Lemma shr_fexp_nonneg m e l :
  0 ≤ m → 0 ≤ shr_m (shr_fexp PyFloat.prec PyFloat.emax m e l).1.
Proof.
  intros Hm. unfold shr_fexp, shr.
  assert (Hm0 : shr_m (shr_record_of_loc m l) = m) by (destruct l as [|[]]; reflexivity).
  destruct (fexp PyFloat.prec PyFloat.emax (Zdigits2 m + e) - e) as [|n|n];
    cbn [fst]; rewrite ?Hm0; try exact Hm.
  rewrite iter_shr_m by (rewrite Hm0; exact Hm). rewrite Hm0.
  apply Z.div_pos; [exact Hm|]. apply Z.pow_pos_nonneg; lia.
Qed.

Lemma round_nearest_even_nonneg m l : 0 ≤ m → 0 ≤ round_nearest_even m l.
Proof.
  intros Hm. destruct l as [|[]]; simpl; try lia. destruct (Z.even m); lia.
Qed.

(** Rounding a mantissa that is not negative gives a number of the sign it
    was given. *)
Lemma binary_round_aux_signed s mx ex lx :
  0 ≤ mx → signed s (binary_round_aux PyFloat.prec PyFloat.emax s mx ex lx).
Proof.
  intros Hm. unfold binary_round_aux.
  pose proof (shr_fexp_nonneg mx ex lx Hm) as Hm1.
  destruct (shr_fexp PyFloat.prec PyFloat.emax mx ex lx) as [mrs1 e1].
  cbn [fst] in Hm1.
  pose proof (round_nearest_even_nonneg _ (loc_of_shr_record mrs1) Hm1) as Hr.
  pose proof (shr_fexp_nonneg _ e1 loc_Exact Hr) as Hm2.
  destruct (shr_fexp PyFloat.prec PyFloat.emax _ e1 loc_Exact) as [mrs2 e2].
  cbn [fst] in Hm2.
  destruct (shr_m mrs2) as [|q|q]; try lia; [reflexivity|].
  destruct (e2 <=? PyFloat.emax - PyFloat.prec); reflexivity.
Qed.

Lemma div_finite_signed sx mx ex sy my ey :
  signed (xorb sx sy)
    (SFdiv PyFloat.prec PyFloat.emax (S754_finite sx mx ex) (S754_finite sy my ey)).
Proof.
  unfold SFdiv, SFdiv_core_binary.
  set (e' := Z.min _ _). set (s := ex - ey - e').
  set (m' := match s with Z.pos _ => Z.shiftl (Z.pos mx) s | 0 => Z.pos mx | _ => 0 end).
  assert (Hm' : 0 ≤ m').
  { subst m'. destruct s; try lia. apply Z.shiftl_nonneg. lia. }
  pose proof (Z_div_mod m' (Z.pos my) ltac:(lia)) as Hdiv.
  destruct (Z.div_eucl m' (Z.pos my)) as [q r]. destruct Hdiv as [Hq Hr].
  apply binary_round_aux_signed. nia.
Qed.

Lemma of_ratio_signed s n d : signed s (PyFloat.of_ratio s n d).
Proof.
  unfold PyFloat.of_ratio. destruct n as [|p|p]; try reflexivity.
  pose proof (div_finite_signed s p 0 false d 0) as H.
  by rewrite xorb_false_r in H.
Qed.

Lemma round2_signed s x : signed s x → signed s (PyFloat.round2 x).
Proof.
  destruct x as [s'|s'| |s' m e]; simpl; try done.
  intros ->. apply of_ratio_signed.
Qed.

Lemma signed_not_negative x : signed false x → not_negative x.
Proof. by destruct x. Qed.

(** Two roundings and a product keep a quotient at or above zero. *)
Lemma tax_signs amount rate converted :
  not_negative amount → positive_finite rate →
  PyFloat.truediv amount rate = Ok converted →
  not_negative (PyFloat.round2 converted)
  ∧ not_negative (PyFloat.round2
                    (PyFloat.mul (PyFloat.round2 converted) PyFloat.tax_rate)).
Proof.
  intros Ha Hr Hdiv. unfold PyFloat.truediv in Hdiv.
  destruct rate as [| | |[] mr er]; try done. simpl in Hdiv. injection Hdiv as <-.
  assert (Hq : not_negative (PyFloat.round2
            (SFdiv PyFloat.prec PyFloat.emax amount (S754_finite false mr er)))
          ∧ (signed false (PyFloat.round2
               (SFdiv PyFloat.prec PyFloat.emax amount (S754_finite false mr er)))
             ∨ PyFloat.round2
                 (SFdiv PyFloat.prec PyFloat.emax amount (S754_finite false mr er))
               = S754_zero true)).
  { destruct amount as [sa|sa| |sa ma ea]; try done.
    - simpl. split; [done|]. destruct sa; [by right|by left].
    - simpl in Ha. subst sa. simpl. split; [done|by left].
    - simpl in Ha. subst sa.
      pose proof (round2_signed false _ (div_finite_signed false ma ea false mr er)) as H.
      split; [by apply signed_not_negative|by left]. }
  destruct Hq as [Hq Hs]. split; [exact Hq|].
  destruct Hs as [Hs| ->]; [|done].
  apply signed_not_negative, round2_signed.
  destruct (PyFloat.round2 _) as [se|se| |se me ee]; simpl in Hs; try done; subst se;
    try reflexivity.
  unfold PyFloat.mul, PyFloat.tax_rate, SFmul. by apply binary_round_aux_signed.
Qed.

End Signs.

(** X7: amounts that are not below zero, taxed at rates that are finite and
    above zero, give reference amounts and taxes that are not below zero, and
    numbers: the engine makes no amount negative and no NaN. *)
Theorem tax_not_negative ecb_rates ts results :
  calculate_tob ts ecb_rates = Ok results →
  Forall (fun t => not_negative (Grouped.amount t)) ts →
  (∀ d row c rate, ecb_rates !! d = Some row → row !! c = Some rate →
                   positive_finite rate) →
  Forall (fun r => not_negative (Taxed.eur_amount r) ∧ not_negative (Taxed.tob r))
         results.
Proof.
  intros Hrun Hts Hrates. apply calculate_tob_Forall2 in Hrun.
  induction Hrun as [|t r ts rs Hr _ IH]; [constructor|].
  inversion Hts as [|? ? Ht Hts']; subst. constructor; [|by apply IH].
  apply tax_transaction_Ok in Hr as (rate & converted & Hrate & Hdiv & ->). simpl.
  apply (tax_signs (Grouped.amount t) rate converted); [exact Ht| |exact Hdiv].
  unfold lookup_rate in Hrate.
  destruct (ecb_rates !! Grouped.date t) as [row|] eqn:Hrow; simpl in Hrate; [|discriminate].
  destruct (row !! Grouped.currency t) as [rate'|] eqn:Hcur; [|discriminate].
  injection Hrate as ->. by eapply Hrates.
Qed.

Lemma sample_rates_positive d row c rate :
  sample_rates !! d = Some row → row !! c = Some rate → positive_finite rate.
Proof.
  unfold sample_rates. intros Hd Hc.
  apply lookup_singleton_Some in Hd as [_ <-].
  apply lookup_insert_Some in Hc as [[_ <-]|[_ Hc]]; [exact I|].
  apply lookup_singleton_Some in Hc as [_ <-]. exact I.
Defined.

Lemma tax_not_negative_witness :
  ∃ results,
    calculate_tob [sample_grouped; sample_grouped_sell] sample_rates = Ok results
    ∧ Forall (fun r => not_negative (Taxed.eur_amount r) ∧ not_negative (Taxed.tob r))
             results.
Proof.
  destruct (is_ok_Ok (calculate_tob [sample_grouped; sample_grouped_sell] sample_rates))
    as [results H]; [vm_compute; reflexivity|].
  exists results. split; [exact H|].
  apply (tax_not_negative sample_rates _ results H).
  - repeat constructor.
  - exact sample_rates_positive.
Defined.

(** ** What grouping conserves, and the order it gives *)

Section GroupingMore.

Lemma foldl_add_acc (a : Z) l : foldl Z.add a l = a + foldl Z.add 0 l.
Proof.
  revert a. induction l as [|x l IH]; intros a; simpl; [lia|].
  rewrite (IH (a + x)), (IH (0 + x)). lia.
Qed.

Lemma foldl_add_Permutation (l l' : list Z) :
  l ≡ₚ l' → foldl Z.add 0 l = foldl Z.add 0 l'.
Proof.
  induction 1 as [|x l l' _ IH|x y l|l l' l'' _ IH1 _ IH2]; simpl.
  - reflexivity.
  - rewrite (foldl_add_acc (0 + x) l), (foldl_add_acc (0 + x) l'). lia.
  - rewrite (foldl_add_acc (0 + y + x)), (foldl_add_acc (0 + x + y)). lia.
  - congruence.
Qed.

Lemma sum_shares_fmap l : sum_shares l = foldl Z.add 0 (Raw.shares <$> l).
Proof.
  unfold sum_shares. generalize 0.
  induction l as [|t l IH]; intros a; simpl; [reflexivity|]. apply IH.
Qed.

Lemma sum_shares_Permutation l l' : l ≡ₚ l' → sum_shares l = sum_shares l'.
Proof.
  intros H. rewrite !sum_shares_fmap. apply foldl_add_Permutation. by rewrite H.
Qed.

(** What one more transaction adds to the buckets' shares and member
    counts. *)
Lemma bucket_update_totals k t (g : list (group_key * bucket)) :
  foldl Z.add 0 ((fun kb => b_shares kb.2) <$> bucket_update k t g)
  = foldl Z.add 0 ((fun kb => b_shares kb.2) <$> g) + Raw.shares t
  ∧ foldl Z.add 0 ((fun kb => Z.of_nat (length (b_transactions kb.2))) <$> bucket_update k t g)
    = foldl Z.add 0 ((fun kb => Z.of_nat (length (b_transactions kb.2))) <$> g) + 1.
Proof.
  induction g as [|[k' b] g [IH1 IH2]]; cbn [bucket_update].
  - simpl. split; lia.
  - destruct (decide (k = k')) as [->|Hne]; rewrite !fmap_cons; cbn [foldl snd].
    + rewrite !(foldl_add_acc (0 + _)). cbn [bucket_add b_shares b_transactions].
      rewrite length_app. simpl. split; lia.
    + rewrite !(foldl_add_acc (0 + _)), IH1, IH2. split; lia.
Qed.

Lemma collect_totals ts :
  foldl Z.add 0 ((fun kb => b_shares kb.2) <$> collect ts) = sum_shares ts
  ∧ foldl Z.add 0 ((fun kb => Z.of_nat (length (b_transactions kb.2))) <$> collect ts)
    = Z.of_nat (length ts).
Proof.
  induction ts as [|t ts [IH1 IH2]] using rev_ind; [done|].
  rewrite collect_snoc.
  destruct (bucket_update_totals (key_of t) t (collect ts)) as [-> ->].
  rewrite IH1, IH2, length_app. unfold sum_shares. rewrite foldl_snoc. simpl.
  split; [reflexivity|lia].
Qed.

Lemma collect_length ts : (length (collect ts) ≤ length ts)%nat.
Proof.
  induction ts as [|t ts IH] using rev_ind; [done|].
  rewrite collect_snoc, length_app. simpl.
  rewrite <- (length_fmap fst (bucket_update _ _ _)), <- (length_fmap fst (collect ts)) in *.
  destruct (decide (key_of t ∈ (collect ts).*1)) as [Hin|Hnin].
  - rewrite bucket_update_keys_old by exact Hin. lia.
  - rewrite bucket_update_keys_new by exact Hnin. rewrite length_app. simpl. lia.
Qed.

(** *** Stability of the sort *)

Lemma tuple_leb_refl a : tuple_leb a a = true.
Proof.
  destruct a as [[a1 a2] a3]. unfold tuple_leb. rewrite !String.eqb_refl.
  destruct (String.leb_total a3 a3); assumption.
Qed.

Lemma insert_sorted_filter k x l :
  filter (fun g => sort_key g = k) (insert_sorted x l)
  = filter (fun g => sort_key g = k) (x :: l).
Proof.
  induction l as [|y l IH]; simpl; [reflexivity|].
  case_decide as Hxy; [reflexivity|].
  rewrite filter_cons, IH, !filter_cons.
  destruct (decide (sort_key y = k)) as [Hy|Hy]; [|reflexivity].
  destruct (decide (sort_key x = k)) as [Hx|Hx]; [|reflexivity].
  exfalso. apply Hxy. unfold key_le. rewrite Hx, Hy. apply Is_true_true, tuple_leb_refl.
Qed.

Lemma sorted_filter k l :
  filter (fun g => sort_key g = k) (sorted l) = filter (fun g => sort_key g = k) l.
Proof.
  induction l as [|x l IH]; simpl; [reflexivity|].
  rewrite insert_sorted_filter, !filter_cons, IH. reflexivity.
Qed.

(** Two elements that a filter keeps in some order stand in that order in
    the list filtered. *)
Lemma filter_order {A} (P : A → Prop) `{∀ x, Decision (P x)} (l : list A) x1 y1 z1 a b :
  filter P l = (x1 ++ a :: y1 ++ b :: z1)%list →
  ∃ x y z, l = (x ++ a :: y ++ b :: z)%list.
Proof.
  revert x1. induction l as [|c l IH]; intros x1; [by destruct x1|].
  rewrite filter_cons. destruct (decide (P c)) as [Hc|Hc].
  - destruct x1 as [|c' x1]; simpl.
    + intros [= -> Hrest].
      assert (Hb : b ∈ l).
      { assert (Hb : b ∈ filter P l) by (rewrite Hrest; set_solver).
        by apply list_elem_of_filter in Hb as [_ ?]. }
      apply list_elem_of_split in Hb as (y & z & ->). by exists [], y, z.
    + intros [= -> Hrest]. destruct (IH _ Hrest) as (x & y & z & ->).
      by exists (c' :: x), y, z.
  - intros Hrest. destruct (IH _ Hrest) as (x & y & z & ->). by exists (c :: x), y, z.
Qed.

(** The table lists its keys in the order of their first transactions. *)
Lemma collect_first_seen ts (a : list group_key) k1 b k2 c :
  (collect ts).*1 = (a ++ k1 :: b ++ k2 :: c)%list →
  ∃ l1 t l2, ts = (l1 ++ t :: l2)%list ∧ key_of t = k1
             ∧ k2 ∉ key_of <$> (l1 ++ [t])%list.
Proof.
  revert a b c. induction ts as [|x ts IH] using rev_ind; intros a b c.
  - by destruct a.
  - rewrite collect_snoc.
    destruct (decide (key_of x ∈ (collect ts).*1)) as [Hin|Hnin].
    + rewrite bucket_update_keys_old by exact Hin. intros Hk.
      destruct (IH _ _ _ Hk) as (l1 & t & l2 & -> & Ht & Hk2).
      exists l1, t, (l2 ++ [x])%list. rewrite <- app_assoc. done.
    + rewrite bucket_update_keys_new by exact Hnin. intros Hk.
      destruct c as [|k3 c _] using rev_ind.
      * assert (Hsplit : (a ++ k1 :: b ++ [k2] = (a ++ k1 :: b) ++ [k2])%list)
          by (by rewrite <- app_assoc).
        rewrite Hsplit in Hk. apply app_inj_tail in Hk as [Hkeys <-].
        assert (Hk1 : k1 ∈ key_of <$> ts).
        { apply collect_keys. rewrite Hkeys. set_solver. }
        apply list_elem_of_fmap in Hk1 as (t & -> & Ht).
        apply list_elem_of_split in Ht as (l1 & l2 & ->).
        exists l1, t, (l2 ++ [x])%list. rewrite <- app_assoc. split; [done|]. split; [done|].
        intros Hx. apply Hnin, collect_keys.
        rewrite fmap_app, elem_of_app in Hx. rewrite fmap_app, fmap_cons, elem_of_app.
        destruct Hx as [Hx|Hx]; [by left|]. right.
        apply list_elem_of_singleton in Hx. rewrite Hx. apply list_elem_of_here.
      * assert (Hsplit : (a ++ k1 :: b ++ k2 :: c ++ [k3]
                          = (a ++ k1 :: b ++ k2 :: c) ++ [k3])%list).
        { rewrite <- !app_assoc. simpl. rewrite <- !app_assoc. reflexivity. }
        rewrite Hsplit in Hk. apply app_inj_tail in Hk as [Hkeys _].
        destruct (IH _ _ _ Hkeys) as (l1 & t & l2 & -> & Ht & Hk2).
        exists l1, t, (l2 ++ [x])%list. rewrite <- app_assoc. done.
Qed.

End GroupingMore.

(** X8: grouping loses no share and no transaction: the shares of the groups
    add up to the shares of the input, their member counts to its length, and
    there are at most as many groups as transactions. *)
Theorem grouping_conserves ts :
  foldl Z.add 0 (Grouped.shares <$> group_transactions ts) = sum_shares ts
  ∧ foldl Z.add 0 (Grouped.grouped_count <$> group_transactions ts)
    = Z.of_nat (length ts)
  ∧ (length (group_transactions ts) ≤ length ts)%nat.
Proof.
  destruct (collect_totals ts) as [Hshares Hcount].
  pose proof (group_transactions_Permutation ts) as Hperm.
  split; [|split].
  - rewrite <- Hshares.
    rewrite (foldl_add_Permutation _ (Grouped.shares <$> (group_record <$> collect ts)))
      by (by rewrite Hperm).
    rewrite <- list_fmap_compose. f_equal. apply list_fmap_ext.
    intros i [k b] _. by destruct (group_record_fields k b) as (H1 & _).
  - rewrite <- Hcount.
    rewrite (foldl_add_Permutation _
               (Grouped.grouped_count <$> (group_record <$> collect ts)))
      by (by rewrite Hperm).
    rewrite <- list_fmap_compose. f_equal. apply list_fmap_ext.
    intros i [k b] _. by destruct (group_record_fields k b) as (_ & _ & H3).
  - rewrite Hperm, length_fmap. apply collect_length.
Qed.

(** X9: the order of the input does not matter to what a group holds: a
    reordered input gives, for each group, a group of the same key with the
    same shares and the same number of members. *)
Theorem grouping_order_independent ts ts' :
  ts ≡ₚ ts' →
  ∀ g, g ∈ group_transactions ts →
       ∃ g', g' ∈ group_transactions ts'
             ∧ grouped_key g' = grouped_key g
             ∧ Grouped.shares g' = Grouped.shares g
             ∧ Grouped.grouped_count g' = Grouped.grouped_count g.
Proof.
  intros Hperm g Hg.
  destruct (group_transactions_sums ts g Hg) as (Hne & Hs & _ & Hc).
  assert (Hm : members (grouped_key g) ts ≡ₚ members (grouped_key g) ts').
  { unfold members. by rewrite Hperm. }
  assert (Hk : grouped_key g ∈ grouped_key <$> group_transactions ts').
  { destruct (grouping_partitions_keys ts') as [_ Hkeys]. apply Hkeys.
    rewrite <- Hperm.
    destruct (grouping_partitions_keys ts) as [_ Hkeys']. apply Hkeys'.
    by apply list_elem_of_fmap_2. }
  apply list_elem_of_fmap in Hk as (g' & Hkey & Hg').
  exists g'. split; [exact Hg'|]. split; [done|].
  destruct (group_transactions_sums ts' g' Hg') as (_ & Hs' & _ & Hc').
  rewrite Hs, Hs', Hc, Hc', <- Hkey. split.
  - symmetry. by apply sum_shares_Permutation.
  - by rewrite Hm.
Qed.

Lemma grouping_order_independent_witness :
  sample_raw ≡ₚ reverse sample_raw
  ∧ ∀ g, g ∈ group_transactions sample_raw →
         ∃ g', g' ∈ group_transactions (reverse sample_raw)
               ∧ grouped_key g' = grouped_key g
               ∧ Grouped.shares g' = Grouped.shares g
               ∧ Grouped.grouped_count g' = Grouped.grouped_count g.
Proof.
  assert (H : sample_raw ≡ₚ reverse sample_raw)
    by (symmetry; apply reverse_Permutation).
  split; [exact H|].
  exact (grouping_order_independent sample_raw (reverse sample_raw) H).
Defined.

(** X10: the sort is stable: of two groups with the same date, broker and
    stock, the one that comes first in the output is the one whose key is met
    first in the input. *)
Theorem grouping_stable ts (o1 : list Grouped.t) g1 o2 g2 o3 :
  group_transactions ts = (o1 ++ g1 :: o2 ++ g2 :: o3)%list →
  sort_key g1 = sort_key g2 →
  ∃ l1 t l2, ts = (l1 ++ t :: l2)%list ∧ key_of t = grouped_key g1
             ∧ grouped_key g2 ∉ key_of <$> (l1 ++ [t])%list.
Proof.
  intros Hout Hkey.
  pose proof (sorted_filter (sort_key g1) (group_record <$> collect ts)) as Hf.
  fold (group_transactions ts) in Hf. rewrite Hout in Hf.
  rewrite filter_app, filter_cons_True, filter_app, filter_cons_True in Hf by done.
  symmetry in Hf. apply filter_order in Hf as (x & y & z & Hcollect).
  apply (f_equal (fmap grouped_key)) in Hcollect.
  rewrite grouped_keys in Hcollect.
  rewrite fmap_app, fmap_cons, fmap_app, fmap_cons in Hcollect.
  by apply collect_first_seen in Hcollect.
Qed.

Lemma grouping_stable_witness :
  ∃ l1 t l2, sample_raw = (l1 ++ t :: l2)%list
             ∧ key_of t = ("2025-01-10", "Interactive Brokers", "ABC", "Buy", "USD")
             ∧ ("2025-01-10", "Interactive Brokers", "ABC", "Sell", "USD")
               ∉ key_of <$> (l1 ++ [t])%list.
Proof.
  apply (grouping_stable sample_raw
           [Grouped.Make "2025-01-09" "Saxo Bank" "JDC Group AG" "Sell" 889 "EUR"
              (PyFloat.of_decimal false 2662596 (-2)) 1]
           (Grouped.Make "2025-01-10" "Interactive Brokers" "ABC" "Buy" 150 "USD"
              (PyFloat.of_decimal false 150000 (-2)) 2)
           []
           (Grouped.Make "2025-01-10" "Interactive Brokers" "ABC" "Sell" 50 "USD"
              (PyFloat.of_decimal false 50000 (-2)) 1)
           []).
  - vm_compute. reflexivity.
  - reflexivity.
Defined.

(** ** The run as a whole *)

Section Pipeline.

Lemma extract_all_unknown texts acc text :
  text ∈ texts → no_marker text → is_ok (extract_all texts acc) = false.
Proof.
  intros Hin (Hib & Hsaxo & Htr). revert acc.
  induction texts as [|text' texts IH]; intros acc; [by apply elem_of_nil in Hin|].
  apply elem_of_cons in Hin as [<-|Hin]; simpl.
  - unfold detect_broker. rewrite Hib, Hsaxo, Htr. reflexivity.
  - destruct (if String.eqb (detect_broker text') "Interactive Brokers" then _ else _)
      as [found|e]; simpl; [by apply IH|reflexivity].
Qed.

Lemma published_rates_nothing_requested cubes rates :
  published_rates cubes [] rates = Ok rates.
Proof. induction cubes as [|c cubes IH]; simpl; [reflexivity|exact IH]. Qed.

Lemma calculate_tob_fields ecb_rates ts rs :
  calculate_tob ts ecb_rates = Ok rs →
  Forall2 (fun t r => same_fields t r
                      ∧ lookup_rate ecb_rates (Grouped.date t) (Grouped.currency t)
                        = Ok (Taxed.rate r)) ts rs.
Proof.
  intros H. apply calculate_tob_Forall2 in H.
  eapply Forall2_impl; [exact H|]. intros t r Hr. split.
  - eapply tax_transaction_same_fields; exact Hr.
  - apply tax_transaction_Ok in Hr as (rate & q & Hrate & _ & ->). exact Hrate.
Qed.

Lemma same_fields_keys ts rs :
  Forall2 same_fields ts rs →
  taxed_key <$> rs = grouped_key <$> ts
  ∧ taxed_sort_key <$> rs = sort_key <$> ts
  ∧ Taxed.date <$> rs = Grouped.date <$> ts.
Proof.
  induction 1 as [|t r ts rs (Hd & Hb & Hs & Hty & _ & Hc & _) _ (IH1 & IH2 & IH3)];
    [done|].
  rewrite !fmap_cons, IH1, IH2, IH3.
  unfold taxed_key, taxed_sort_key, grouped_key, sort_key.
  rewrite Hd, Hb, Hs, Hty, Hc. done.
Qed.

Lemma process_statements_Ok texts root res :
  process_statements texts root = Ok res →
  ∃ raw, extract_all texts [] = Ok raw
         ∧ fetch_ecb_rates root (remove_dups (Grouped.date <$> group_transactions raw))
           = Ok (ecb_rates res)
         ∧ calculate_tob (group_transactions raw) (ecb_rates res) = Ok (transactions res).
Proof.
  unfold process_statements. intros H.
  apply bind_Ok in H as (raw & Hraw & H).
  apply bind_Ok in H as (rates & Hrates & H).
  apply bind_Ok in H as (rs & Hrs & H). injection H as <-. simpl. by exists raw.
Qed.

Lemma StronglySorted_fmap_keys {A B} (f : A → string * string * string)
    (g : B → string * string * string) (l : list A) (l' : list B) :
  f <$> l = g <$> l' →
  StronglySorted (fun x y => tuple_leb (f x) (f y)) l →
  StronglySorted (fun x y => tuple_leb (g x) (g y)) l'.
Proof.
  revert l'. induction l as [|x l IH]; intros [|y l'] Heq Hs; try done; [constructor|].
  rewrite !fmap_cons in Heq.
  assert (Hxy : f x = g y) by congruence.
  assert (Heq' : f <$> l = g <$> l') by congruence. clear Heq. rename Heq' into Heq.
  inversion Hs as [|? ? Hs' Hall]; subst.
  constructor; [by apply IH|].
  apply Forall_forall. intros z Hz.
  assert (Hgz : g z ∈ g <$> l') by (by apply list_elem_of_fmap_2).
  rewrite <- Heq in Hgz. apply list_elem_of_fmap in Hgz as (w & -> & Hw).
  rewrite <- Hxy. rewrite Forall_forall in Hall. by apply Hall.
Qed.

End Pipeline.

(** X11: one statement without any of the three broker markers makes the whole
    run fail, whatever the other statements hold. *)
Theorem unknown_statement_fails texts root text :
  text ∈ texts → no_marker text → is_ok (process_statements texts root) = false.
Proof.
  intros Hin Hno. unfold process_statements.
  pose proof (extract_all_unknown texts [] text Hin Hno) as H.
  destruct (extract_all texts []); [discriminate|reflexivity].
Qed.

Lemma unknown_statement_fails_witness :
  is_ok (process_statements [sample_ib_text; "Account statement"] sample_document) = false.
Proof.
  apply (unknown_statement_fails _ _ "Account statement").
  - apply list_elem_of_further, list_elem_of_here.
  - repeat split; reflexivity.
Defined.

(** X12: statements that yield no transaction give the empty report whatever
    the rate document holds, none of its rates being read: no row, both totals
    the integer 0, no rate. *)
Theorem empty_report texts root :
  extract_all texts [] = Ok [] →
  process_statements texts root = Ok (StatementResult [] (Int 0) (Int 0) ∅).
Proof.
  intros H. unfold process_statements. rewrite H. cbn [mbind result_bind].
  change (group_transactions []) with (@nil Grouped.t). cbn [fmap list_fmap remove_dups].
  unfold fetch_ecb_rates. rewrite published_rates_nothing_requested. reflexivity.
Qed.

Lemma empty_report_witness :
  process_statements ["Interactive Brokers"; "Saxo Bank"]
                     [Ecb.Cube "2025-01-10" [("USD", Some "n/a")]]
  = Ok (StatementResult [] (Int 0) (Int 0) ∅).
Proof. apply empty_report. reflexivity. Defined.

(** X13: the rates a report carries are those of its rows: the table has an
    entry for the date of each row and for no other date, and each row shows
    the rate the table holds for its date and currency. *)
Theorem report_rates texts root res :
  process_statements texts root = Ok res →
  (∀ d, is_Some (ecb_rates res !! d) ↔ d ∈ Taxed.date <$> transactions res)
  ∧ Forall (fun r => ∃ row, ecb_rates res !! Taxed.date r = Some row
                            ∧ row !! Taxed.currency r = Some (Taxed.rate r))
           (transactions res).
Proof.
  intros H. apply process_statements_Ok in H as (raw & _ & Hrates & Hrs).
  apply calculate_tob_fields in Hrs.
  assert (Hsame : Forall2 same_fields (group_transactions raw) (transactions res)).
  { eapply Forall2_impl; [exact Hrs|]. by intros t r [? _]. }
  destruct (same_fields_keys _ _ Hsame) as (_ & _ & Hdates).
  split.
  - intros d.
    pose proof (fetch_ecb_rates_requested root _ _ Hrates d) as Hdom.
    rewrite Hdom, elem_of_remove_dups, Hdates. reflexivity.
  - clear Hsame Hdates Hrates.
    induction Hrs as [|t r ts rs [Hf Hrate] _ IH]; [constructor|].
    constructor; [|exact IH].
    destruct Hf as (Hd & _ & _ & _ & _ & Hc & _). rewrite Hd, Hc.
    unfold lookup_rate in Hrate.
    destruct (ecb_rates res !! Grouped.date t) as [row|]; simpl in Hrate; [|discriminate].
    exists row. split; [reflexivity|].
    destruct (row !! Grouped.currency t) as [rate|]; [|discriminate]. congruence.
Qed.

Lemma report_rates_witness :
  ∃ res,
    process_statements [sample_ib_text] sample_document = Ok res
    ∧ (∀ d, is_Some (ecb_rates res !! d) ↔ d ∈ Taxed.date <$> transactions res)
    ∧ Forall (fun r => ∃ row, ecb_rates res !! Taxed.date r = Some row
                              ∧ row !! Taxed.currency r = Some (Taxed.rate r))
             (transactions res).
Proof.
  destruct (is_ok_Ok (process_statements [sample_ib_text] sample_document)) as [res H];
    [vm_compute; reflexivity|].
  exists res. split; [exact H|].
  exact (report_rates [sample_ib_text] sample_document res H).
Defined.

(** X14: the rows of a report come sorted on (date, broker, stock), no two of
    them with the same date, broker, stock, type and currency. *)
Theorem report_rows_sorted texts root res :
  process_statements texts root = Ok res →
  StronglySorted (fun r1 r2 => tuple_leb (taxed_sort_key r1) (taxed_sort_key r2))
                 (transactions res)
  ∧ NoDup (taxed_key <$> transactions res).
Proof.
  intros H. apply process_statements_Ok in H as (raw & _ & _ & Hrs).
  apply calculate_tob_fields in Hrs.
  assert (Hsame : Forall2 same_fields (group_transactions raw) (transactions res)).
  { eapply Forall2_impl; [exact Hrs|]. by intros t r [? _]. }
  destruct (same_fields_keys _ _ Hsame) as (Hkeys & Hsort & _).
  split.
  - eapply (StronglySorted_fmap_keys sort_key taxed_sort_key); [symmetry; exact Hsort|].
    assert (Hs : StronglySorted key_le (group_transactions raw)).
    { apply Sorted_StronglySorted; [exact key_le_transitive|]. apply sorted_Sorted. }
    exact Hs.
  - rewrite Hkeys. by destruct (grouping_partitions_keys raw) as [Hnd _].
Qed.

Lemma report_rows_sorted_witness :
  ∃ res,
    process_statements [sample_ib_text] sample_document = Ok res
    ∧ StronglySorted (fun r1 r2 => tuple_leb (taxed_sort_key r1) (taxed_sort_key r2))
                     (transactions res)
    ∧ NoDup (taxed_key <$> transactions res).
Proof.
  destruct (is_ok_Ok (process_statements [sample_ib_text] sample_document)) as [res H];
    [vm_compute; reflexivity|].
  exists res. split; [exact H|].
  exact (report_rows_sorted [sample_ib_text] sample_document res H).
Defined.

(** ** Rows of rates, and taxing piece by piece *)

Section Rows.

Lemma read_rates_currencies entries acc row cur :
  read_rates entries acc = Ok row →
  is_Some (row !! cur) ↔ is_Some (acc !! cur) ∨ cur ∈ entries.*1.
Proof.
  revert acc. induction entries as [|[c a] entries IH]; intros acc; simpl.
  - intros [= <-]. split; [by left|]. intros [H|H]; [exact H|by apply elem_of_nil in H].
  - intros H. apply bind_Ok in H as (r & _ & H). rewrite (IH _ H).
    rewrite elem_of_cons. destruct (decide (c = cur)) as [->|Hne].
    + rewrite lookup_insert_eq. split; [intros _; right; by left|intros _; by left].
    + rewrite lookup_insert_ne by done. intuition congruence.
Qed.

(** The last child of a currency gives its rate. *)
Lemma read_rates_last entries1 cur a entries2 acc row :
  read_rates (entries1 ++ (cur, a) :: entries2) acc = Ok row →
  cur ∉ entries2.*1 →
  ∃ r, float_of_attribute a = Ok r ∧ row !! cur = Some r.
Proof.
  revert acc. induction entries1 as [|[c' a'] entries1 IH]; intros acc; simpl.
  - intros H Hlast. apply bind_Ok in H as (r & Hr & H). exists r. split; [exact Hr|].
    clear Hr. revert acc H.
    induction entries2 as [|[c2 a2] entries2 IH2]; intros acc; simpl.
    + intros [= <-]. apply lookup_insert_eq.
    + intros H. apply bind_Ok in H as (r2 & _ & H).
      rewrite fmap_cons in Hlast. apply not_elem_of_cons in Hlast as [Hne Hlast].
      simpl in Hne. rewrite insert_insert_ne in H by done.
      by apply (IH2 Hlast _ H).
  - intros H Hlast. apply bind_Ok in H as (r' & _ & H). by apply (IH _ H).
Qed.

Lemma calculate_tob_app ecb_rates ts1 ts2 :
  calculate_tob (ts1 ++ ts2) ecb_rates
  = (results1 ← calculate_tob ts1 ecb_rates;
     results2 ← calculate_tob ts2 ecb_rates;
     Ok (results1 ++ results2)%list).
Proof.
  induction ts1 as [|t ts1 IH]; simpl.
  - destruct (calculate_tob ts2 ecb_rates); reflexivity.
  - destruct (tax_transaction ecb_rates t) as [r|e]; simpl; [|reflexivity].
    rewrite IH. destruct (calculate_tob ts1 ecb_rates) as [rs1|e]; simpl; [|reflexivity].
    destruct (calculate_tob ts2 ecb_rates); reflexivity.
Qed.

End Rows.

(** X15: the currencies a row of rates knows are EUR and those the cube lists,
    no others; and of several children for one currency the last gives the
    rate. *)
Theorem rate_row_currencies c row :
  rate_row c = Ok row →
  (∀ cur, is_Some (row !! cur) ↔ cur = "EUR" ∨ cur ∈ (Ecb.entries c).*1)
  ∧ (∀ entries1 cur a entries2,
       Ecb.entries c = (entries1 ++ (cur, a) :: entries2)%list →
       cur ∉ entries2.*1 →
       ∃ r, float_of_attribute a = Ok r ∧ row !! cur = Some r).
Proof.
  unfold rate_row. intros H. split.
  - intros cur. rewrite (read_rates_currencies _ _ _ cur H).
    rewrite lookup_singleton_is_Some. intuition congruence.
  - intros entries1 cur a entries2 Heq Hlast. rewrite Heq in H.
    eapply read_rates_last; [exact H|exact Hlast].
Qed.

Lemma rate_row_currencies_witness :
  ∃ row,
    rate_row (Ecb.Cube "2025-01-10" [("USD", Some "1.05"); ("JPY", Some "160.25")]) = Ok row
    ∧ (∀ cur, is_Some (row !! cur)
              ↔ cur = "EUR" ∨ cur ∈ [("USD", Some "1.05"); ("JPY", Some "160.25")].*1)
    ∧ (∀ entries1 cur a entries2,
         [("USD", Some "1.05"); ("JPY", Some "160.25")]
         = (entries1 ++ (cur, a) :: entries2)%list →
         cur ∉ entries2.*1 →
         ∃ r, float_of_attribute a = Ok r ∧ row !! cur = Some r).
Proof.
  destruct (is_ok_Ok (rate_row (Ecb.Cube "2025-01-10"
                                  [("USD", Some "1.05"); ("JPY", Some "160.25")])))
    as [row H]; [vm_compute; reflexivity|].
  exists row. split; [exact H|].
  exact (rate_row_currencies _ row H).
Defined.

(** X16: each transaction is taxed on its own: taxing a list in two pieces and
    putting the results together is taxing the whole list, failures included. *)
Theorem tax_piecewise ecb_rates (ts1 ts2 : list Grouped.t) :
  calculate_tob (ts1 ++ ts2)%list ecb_rates
  = (results1 ← calculate_tob ts1 ecb_rates;
     results2 ← calculate_tob ts2 ecb_rates;
     Ok (results1 ++ results2)%list).
Proof. apply calculate_tob_app. Qed.

(** ** Texts put together *)

Section Texts.

Lemma append_cons a s t : String a s +:+ t = String a (s +:+ t).
Proof. reflexivity. Qed.

(** The fields of two texts joined by a separator are the fields of the one
    followed by the fields of the other. *)
Lemma split_join sep a b :
  PyStr.split sep (a +:+ String sep b) = (PyStr.split sep a ++ PyStr.split sep b)%list.
Proof.
  induction a as [|c a IH].
  - simpl. rewrite Ascii.eqb_refl. reflexivity.
  - rewrite append_cons. cbn [PyStr.split]. destruct (Ascii.eqb c sep); [by rewrite IH|].
    rewrite IH. destruct (split_cons sep a) as (h & t & ->). reflexivity.
Qed.

Lemma saxo_loop_acc lines acc :
  saxo_loop lines acc = found ← saxo_loop lines []; Ok (acc ++ found)%list.
Proof.
  revert acc. induction lines as [|line lines IH]; intros acc; simpl.
  - by rewrite app_nil_r.
  - destruct (saxo_line line) as [found|e]; simpl; [|reflexivity].
    rewrite (IH (acc ++ option_list found)%list), (IH (option_list found)).
    destruct (saxo_loop lines []) as [l|e]; simpl; [|reflexivity].
    by rewrite app_assoc.
Qed.

Lemma saxo_loop_app lines1 lines2 acc :
  saxo_loop (lines1 ++ lines2) acc = saxo_loop lines1 acc ≫= saxo_loop lines2.
Proof.
  revert acc. induction lines1 as [|line lines1 IH]; intros acc; simpl; [reflexivity|].
  destruct (saxo_line line) as [found|e]; simpl; [apply IH|reflexivity].
Qed.

Lemma ib_loop_acc lines in_section cur acc :
  ib_loop lines in_section cur acc
  = found ← ib_loop lines in_section cur []; Ok (acc ++ found)%list.
Proof.
  revert in_section cur acc.
  induction lines as [|raw rest IH]; intros in_section cur acc; simpl.
  - by rewrite app_nil_r.
  - case_bool_decide; [apply IH|].
    destruct (leaves_stocks_section _); [apply IH|].
    destruct (_ && _); [|apply IH].
    destruct rest as [|next_line rest']; [apply IH|].
    destruct (ib_record _ _ next_line) as [found|e]; cbn [mbind result_bind];
      [|reflexivity].
    rewrite (IH _ _ (acc ++ option_list found)%list), (IH _ _ ([] ++ option_list found)%list).
    destruct (ib_loop (next_line :: rest') in_section cur []) as [l|e];
      cbn [mbind result_bind]; [|reflexivity].
    by rewrite app_assoc.
Qed.

(** A currency header has one token: as the line after a date line it
    decodes to nothing. *)
Lemma ib_record_header cur line next_line :
  PyStr.strip next_line ∈ IB_CURRENCIES → ib_record cur line next_line = Ok None.
Proof.
  intros Hin. unfold ib_record. destruct (split_cons "," line) as (date & rest & ->).
  cbn [PyStr.item lookup list_lookup mbind result_bind].
  unfold IB_CURRENCIES in Hin.
  repeat (apply elem_of_cons in Hin as [->|Hin]; [reflexivity|]).
  by apply elem_of_nil in Hin.
Qed.

(** A header line sets the state of the loop whatever it was. *)
Lemma ib_loop_header first rest in_section cur acc :
  PyStr.strip first ∈ IB_CURRENCIES →
  ib_loop (first :: rest) in_section cur acc = ib_loop (first :: rest) false None acc.
Proof. intros Hin. simpl. by rewrite !bool_decide_eq_true_2. Qed.

Lemma ib_loop_app lines1 first rest in_section cur acc :
  PyStr.strip first ∈ IB_CURRENCIES →
  ib_loop (lines1 ++ first :: rest) in_section cur acc
  = ib_loop lines1 in_section cur acc ≫= ib_loop (first :: rest) false None.
Proof.
  intros Hin. revert in_section cur acc.
  induction lines1 as [|raw lines1 IH]; intros in_section cur acc.
  - simpl app. cbn [ib_loop mbind result_bind]. by apply ib_loop_header.
  - rewrite <- app_comm_cons. cbn [ib_loop].
    case_bool_decide; [apply IH|].
    destruct (leaves_stocks_section _); [apply IH|].
    destruct (_ && _); [|apply IH].
    destruct lines1 as [|next_line lines1'].
    + cbn [app]. rewrite ib_record_header by exact Hin.
      cbn [mbind result_bind option_list]. rewrite app_nil_r.
      exact (IH in_section cur acc).
    + rewrite <- app_comm_cons.
      destruct (ib_record _ _ next_line) as [found|e]; cbn [mbind result_bind];
        [|reflexivity].
      rewrite app_comm_cons. apply IH.
Qed.

(** Outside a currency section the loop emits nothing. *)
Lemma ib_loop_outside lines acc :
  Forall (fun line => PyStr.strip line ∉ IB_CURRENCIES) lines →
  ib_loop lines false None acc = Ok acc.
Proof.
  induction 1 as [|raw lines Hraw _ IH]; simpl; [reflexivity|].
  rewrite bool_decide_eq_false_2 by exact Hraw.
  destruct (leaves_stocks_section _); exact IH.
Qed.

End Texts.

(** X17: the Saxo Bank extractor works line by line: the transactions of two
    texts joined by a line break are those of the first followed by those of
    the second, and the joined text fails where either one fails. *)
Theorem saxo_texts_compose a b :
  extract_saxo_transactions (a +:+ newline +:+ b)
  = (found_a ← extract_saxo_transactions a;
     found_b ← extract_saxo_transactions b;
     Ok (found_a ++ found_b)%list).
Proof.
  unfold extract_saxo_transactions, newline. rewrite append_cons.
  change (EmptyString +:+ b) with b.
  rewrite split_join, saxo_loop_app.
  destruct (saxo_loop (PyStr.split "010" a) []) as [found_a|e]; simpl; [|reflexivity].
  apply saxo_loop_acc.
Qed.

(** X18: currency sections of an Interactive Brokers statement are read
    independently: when the second of two texts starts with a currency header,
    the joined text gives the transactions of the first followed by those of
    the second. *)
Theorem ib_sections_compose a b :
  opens_section b →
  ∃ found_a found_b,
    extract_ib_transactions a = Ok found_a
    ∧ extract_ib_transactions b = Ok found_b
    ∧ extract_ib_transactions (a +:+ newline +:+ b) = Ok (found_a ++ found_b)%list.
Proof.
  intros (first & rest & Hb & Hfirst).
  unfold extract_ib_transactions, newline. rewrite append_cons.
  change (EmptyString +:+ b) with b.
  rewrite split_join, Hb, ib_loop_app by exact Hfirst.
  destruct (ib_loop_total (PyStr.split "010" a) false None []) as (found_a & ->).
  destruct (ib_loop_total (first :: rest) false None []) as (found_b & Hfb).
  exists found_a, found_b. split; [reflexivity|]. split; [exact Hfb|].
  cbn [mbind result_bind]. rewrite ib_loop_acc, Hfb. reflexivity.
Qed.

Lemma ib_sections_compose_witness :
  ∃ found_a found_b,
    extract_ib_transactions sample_ib_text = Ok found_a
    ∧ extract_ib_transactions zero_row_text = Ok found_b
    ∧ extract_ib_transactions (sample_ib_text +:+ newline +:+ zero_row_text)
      = Ok (found_a ++ found_b)%list.
Proof.
  apply (ib_sections_compose sample_ib_text zero_row_text).
  exists "USD", ["2025-01-10, 09:00:00"; "ABC 0 1.0000 1.0000 0 0"].
  split; [reflexivity|]. apply list_elem_of_further, list_elem_of_here.
Defined.

(** X19: a text none of whose lines is a currency code yields no Interactive
    Brokers transaction: rows count only inside a currency section. *)
Theorem ib_needs_section text :
  Forall (fun line => PyStr.strip line ∉ IB_CURRENCIES) (PyStr.split "010" text) →
  extract_ib_transactions text = Ok [].
Proof. intros H. unfold extract_ib_transactions. by apply ib_loop_outside. Qed.

Lemma ib_needs_section_witness :
  extract_ib_transactions
    (text_of_lines ["Interactive Brokers"; "2025-01-10, 09:00:00";
                    "ABC 100 10.0000 10.0000 1000.00 -1.00"]) = Ok [].
Proof.
  apply ib_needs_section. apply (bool_decide_unpack _). vm_compute. exact I.
Defined.

(** ** What a match tells *)

Section Matching.

(** A successful run went through a match and then on with the
    continuation. *)
Lemma run_sound {A} r :
  ∀ c (k : Re.cursor → option A) a,
    Re.run r c k = Some a → ∃ c', matches r c c' ∧ k c' = Some a.
Proof.
  induction r as [|p|r1 IH1 r2 IH2|r1 IH1 r2 IH2|r IH|r IH|n r IH| |]; intros c k a; simpl.
  - intros H. exists c. split; [constructor|exact H].
  - destruct (Re.rest c) as [|x s'] eqn:Hrest; [discriminate|].
    destruct (p x) eqn:Hp; [|discriminate].
    intros H. eexists. split; [by constructor|exact H].
  - intros H. apply IH1 in H as (c1 & H1 & H). apply IH2 in H as (c2 & H2 & H).
    exists c2. split; [by econstructor|exact H].
  - unfold Re.orelse. destruct (Re.run r1 c k) as [x|] eqn:E.
    + intros [= ->]. apply IH1 in E as (c' & H1 & H). exists c'. split; [by constructor|exact H].
    + intros H. apply IH2 in H as (c' & H2 & H). exists c'. split; [by apply matches_Alt_r|exact H].
  - generalize (String.length (Re.rest c)). intros fuel. revert c.
    induction fuel as [|fuel IHf]; intros c.
    + intros H. exists c. split; [constructor|exact H].
    + unfold Re.orelse at 1.
      match goal with |- context [Re.run r c ?k'] => destruct (Re.run r c k') as [x|] eqn:E end.
      * intros [= ->]. apply IH in E as (c1 & H1 & H).
        destruct (Re.pos c <? Re.pos c1)%nat eqn:Hlt; [|discriminate].
        apply Nat.ltb_lt in Hlt. apply IHf in H as (c2 & H2 & H).
        exists c2. split; [by econstructor|exact H].
      * intros H. exists c. split; [constructor|exact H].
  - generalize (String.length (Re.rest c)). intros fuel. revert c.
    induction fuel as [|fuel IHf]; intros c.
    + intros H. exists c. split; [constructor|exact H].
    + unfold Re.orelse at 1. destruct (k c) as [x|] eqn:E.
      * intros [= ->]. exists c. split; [constructor|exact E].
      * intros H. apply IH in H as (c1 & H1 & H).
        destruct (Re.pos c <? Re.pos c1)%nat eqn:Hlt; [|discriminate].
        apply Nat.ltb_lt in Hlt. apply IHf in H as (c2 & H2 & H).
        exists c2. split; [by econstructor|exact H].
  - intros H. apply IH in H as (c1 & H1 & H). eexists. split; [by constructor|exact H].
  - destruct (Re.pos c =? 0)%nat eqn:Hpos; [|discriminate].
    apply Nat.eqb_eq in Hpos. intros H. exists c. split; [by constructor|exact H].
  - destruct (xorb _ _) eqn:Hx; [|discriminate].
    intros H. exists c. split; [by constructor|exact H].
Qed.

Lemma try_at_sound r subj c m :
  Re.try_at r subj c = Some m →
  ∃ c', matches r c c'
        ∧ m = Re.Matched subj (Re.pos c) (Re.pos c') (Re.groups c').
Proof.
  unfold Re.try_at. intros H. apply run_sound in H as (c' & Hm & H).
  exists c'. split; [exact Hm|]. by injection H.
Qed.

(** [re.search] finds its match at some position of the text. *)
Lemma search_go_sound r subj p s i m :
  Re.search_go r subj p s i = Some m →
  ∃ pre suf p', s = pre +:+ suf
                ∧ Re.try_at r subj (Re.Cursor p' suf (i + String.length pre) []) = Some m.
Proof.
  revert p i. induction s as [|a s IH]; intros p i; simpl.
  - destruct (Re.try_at r subj (Re.Cursor p EmptyString i [])) as [m'|] eqn:E; [|discriminate].
    intros [= ->]. exists EmptyString, EmptyString, p. simpl. by rewrite Nat.add_0_r.
  - destruct (Re.try_at r subj (Re.Cursor p (String a s) i [])) as [m'|] eqn:E.
    + intros [= ->]. exists EmptyString, (String a s), p. simpl. by rewrite Nat.add_0_r.
    + intros H. apply IH in H as (pre & suf & p' & -> & H).
      exists (String a pre), suf, p'. simpl. split; [reflexivity|].
      by rewrite <- Nat.add_succ_comm.
Qed.

Lemma search_sound r s m :
  Re.search r s = Some m →
  ∃ pre suf p', s = pre +:+ suf
                ∧ Re.try_at r s (Re.Cursor p' suf (String.length pre) []) = Some m.
Proof. unfold Re.search. intros H. by apply search_go_sound in H. Qed.

(** A literal matches its own text and leaves the groups alone. *)
Lemma matches_lit s c c' :
  matches (Re.lit s) c c' →
  Re.rest c = s +:+ Re.rest c' ∧ Re.pos c' = (Re.pos c + String.length s)%nat
  ∧ Re.groups c' = Re.groups c.
Proof.
  revert c. induction s as [|a s IH]; intros c; simpl.
  - inversion 1; subst. simpl. by rewrite Nat.add_0_r.
  - destruct s as [|b s].
    + inversion 1 as [|p x s' c0 Hrest Hp| | | | | | | | | |]; subst. simpl.
      unfold Re.chr in *. apply Ascii.eqb_eq in Hp. subst x.
      rewrite Hrest. split; [reflexivity|]. split; [lia|reflexivity].
    + inversion 1 as [| |r1 r2 c0 c1 c2 H1 H2| | | | | | | | |]; subst.
      inversion H1 as [|p x s' c0 Hrest Hp| | | | | | | | | |]; subst.
      apply Ascii.eqb_eq in Hp. subst x.
      apply IH in H2 as (Hr & Hp & Hg). cbn [Re.rest Re.pos Re.groups] in *.
      rewrite Hrest, Hr. split; [reflexivity|]. split; [|exact Hg].
      rewrite Hp. simpl. lia.
Qed.

Lemma matches_alts rs c c' :
  rs ≠ [] → matches (Re.alts rs) c c' → ∃ r, r ∈ rs ∧ matches r c c'.
Proof.
  induction rs as [|r rs IH]; [done|]. intros _. simpl.
  destruct rs as [|r' rs].
  - intros H. exists r. split; [apply list_elem_of_here|exact H].
  - inversion 1; subst.
    + exists r. split; [apply list_elem_of_here|assumption].
    + destruct IH as (r0 & Hin & Hm); [done|assumption|].
      exists r0. split; [by apply list_elem_of_further|exact Hm].
Qed.

(** The part of a text that starts after [pre] and has the length of
    [mid]. *)
Lemma substring_middle pre mid suf :
  String.substring (String.length pre) (String.length mid) (pre +:+ mid +:+ suf) = mid.
Proof.
  induction pre as [|a pre IH]; [|exact IH].
  change (EmptyString +:+ mid +:+ suf) with (mid +:+ suf).
  change (String.length EmptyString) with 0%nat.
  induction mid as [|b mid IH]; [by destruct suf|].
  cbn [String.length]. rewrite append_cons. cbn [String.substring]. by rewrite IH.
Qed.

End Matching.

(** ** The shape of what the extractors emit *)

Section Shapes.

Lemma matches_Chr_inv p c c' :
  matches (Re.Chr p) c c' →
  ∃ a, Re.rest c = String a (Re.rest c') ∧ p a = true
       ∧ Re.pos c' = S (Re.pos c) ∧ Re.groups c' = Re.groups c.
Proof. inversion 1; subst. by exists a. Qed.

Lemma matches_Seq_inv r1 r2 c c' :
  matches (Re.Seq r1 r2) c c' → ∃ c1, matches r1 c c1 ∧ matches r2 c1 c'.
Proof. inversion 1; subst. by eexists. Qed.

Lemma matches_Group_inv n r c c' :
  matches (Re.Group n r) c c' →
  ∃ c1, matches r c c1 ∧ Re.rest c' = Re.rest c1 ∧ Re.pos c' = Re.pos c1
        ∧ Re.groups c' = (n, (Re.pos c, Re.pos c1)) :: Re.groups c1.
Proof. inversion 1; subst. by eexists. Qed.

(** A run of character classes matches as many characters, one of each
    class. *)
Lemma matches_chrs ps c c' :
  ps ≠ [] → matches (Re.seqs (Re.Chr <$> ps)) c c' →
  ∃ text, Re.rest c = text +:+ Re.rest c'
          ∧ Forall2 (fun (p : ascii → bool) a => p a = true) ps (list_ascii_of_string text)
          ∧ Re.pos c' = (Re.pos c + String.length text)%nat
          ∧ Re.groups c' = Re.groups c.
Proof.
  revert c. induction ps as [|p ps IH]; [done|]. intros c _.
  destruct ps as [|p' ps].
  - simpl. intros H. apply matches_Chr_inv in H as (a & Hrest & Hp & Hpos & Hg).
    exists (String a EmptyString). simpl. split; [exact Hrest|].
    split; [by repeat constructor|]. split; [lia|exact Hg].
  - change (Re.seqs (Re.Chr <$> p :: p' :: ps))
      with (Re.Seq (Re.Chr p) (Re.seqs (Re.Chr <$> p' :: ps))).
    intros H. apply matches_Seq_inv in H as (c1 & H1 & H2).
    apply matches_Chr_inv in H1 as (a & Hrest & Hp & Hpos & Hg).
    apply IH in H2 as (text & Hrest' & Hall & Hpos' & Hg'); [|done].
    exists (String a text). simpl. rewrite Hrest, Hrest'. split; [reflexivity|].
    split; [by constructor|]. split; [lia|congruence].
Qed.

Lemma digit_not_comma a : PyStr.is_digit a = true → Ascii.eqb a "," = false.
Proof. destruct (Ascii.eqb_spec a ",") as [->|]; [discriminate|reflexivity]. Qed.

(** A line that passes the date test starts with a date-shaped text and a
    comma, and that text is what the loop takes as the date. *)
Lemma ib_date_line line :
  is_Some (Re.match_ ib_date_regex line) →
  ∃ date, PyStr.item (PyStr.split "," line) 0 = Ok date ∧ iso_shaped date = true.
Proof.
  intros [m Hm]. unfold Re.match_ in Hm.
  apply try_at_sound in Hm as (c' & Hm & _).
  change ib_date_regex
    with (Re.seqs (Re.Chr <$> [PyStr.is_digit; PyStr.is_digit; PyStr.is_digit;
                               PyStr.is_digit; Ascii.eqb "-"; PyStr.is_digit;
                               PyStr.is_digit; Ascii.eqb "-"; PyStr.is_digit;
                               PyStr.is_digit; Ascii.eqb ","])) in Hm.
  apply matches_chrs in Hm as (text & Hrest & Hall & _); [|done].
  cbn [Re.rest] in Hrest. subst line.
  destruct text as [|y1 [|y2 [|y3 [|y4 [|h1 [|m1 [|m2 [|h2 [|d1 [|d2 [|cm [|x text]]]]]]]]]]]];
    simpl in Hall;
    repeat match goal with
           | H : Forall2 _ _ _ |- _ => inversion H; clear H; subst
           end.
  repeat match goal with
         | H : Ascii.eqb _ _ = true |- _ => apply Ascii.eqb_eq in H; subst
         end.
  exists (String y1 (String y2 (String y3 (String y4 (String "-"
            (String m1 (String m2 (String "-" (String d1 (String d2 EmptyString)))))))))).
  split.
  - rewrite !append_cons. change (EmptyString +:+ Re.rest c') with (Re.rest c').
    cbn [PyStr.split].
    repeat match goal with
           | H : PyStr.is_digit ?a = true |- context [Ascii.eqb ?a ","] =>
               rewrite (digit_not_comma a H)
           end.
    cbn [Ascii.eqb Bool.eqb andb]. 
    destruct (split_cons "," (Re.rest c')) as (h & t & ->). reflexivity.
  - unfold iso_shaped. cbn [list_ascii_of_string forallb].
    repeat match goal with
           | H : PyStr.is_digit ?a = true |- _ => rewrite H; clear H
           end.
    reflexivity.
Qed.

Lemma ib_record_fields cur line next_line t :
  ib_record cur line next_line = Ok (Some t) →
  PyStr.item (PyStr.split "," line) 0 = Ok (Raw.date t)
  ∧ Raw.broker t = "Interactive Brokers" ∧ Raw.currency t = cur
  ∧ (Raw.type t = "Buy" ∨ Raw.type t = "Sell")
  ∧ PyStr.startswith (Raw.stock t) "Total" = false
  ∧ is_forex_pair (Raw.stock t) = false.
Proof.
  unfold ib_record. intros H.
  apply bind_Ok in H as (date & Hdate & H).
  destruct (5 <=? _); [|discriminate].
  apply bind_Ok in H as (symbol & _ & H).
  apply catch_Ok in H as [H|H]; [|discriminate].
  unfold ib_row in H.
  apply bind_Ok in H as (q & _ & H). apply bind_Ok in H as (quantity & _ & H).
  apply bind_Ok in H as (tok & _ & H). destruct tok as [p|]; [|discriminate].
  apply bind_Ok in H as (proceeds & _ & H).
  destruct (PyStr.startswith symbol "Total") eqn:Htotal; [discriminate|].
  destruct (is_forex_pair symbol) eqn:Hforex; [discriminate|].
  injection H as <-. cbn [Raw.date Raw.broker Raw.currency Raw.type Raw.stock].
  repeat split; try done. destruct (quantity <? 0); [by right|by left].
Qed.

Lemma ib_loop_Forall_section (P : Raw.t → Prop) lines in_section cur acc l :
  (∀ c line next_line t,
     c ∈ IB_CURRENCIES → is_Some (Re.match_ ib_date_regex line) →
     ib_record c line next_line = Ok (Some t) → P t) →
  (∀ c, cur = Some c → c ∈ IB_CURRENCIES) →
  Forall P acc → ib_loop lines in_section cur acc = Ok l → Forall P l.
Proof.
  intros Hrec. revert in_section cur acc.
  induction lines as [|raw rest IH]; intros in_section cur acc Hcur Hacc; simpl.
  - by intros [= <-].
  - case_bool_decide as Hhead; [apply IH; [by intros c [= <-]|exact Hacc]|].
    destruct (leaves_stocks_section _); simpl.
    + by apply IH.
    + destruct in_section; [|by apply IH]. simpl.
      destruct (truthy cur) eqn:Htruthy; [|by apply IH]. simpl.
      case_bool_decide as Hdate; [|by apply IH].
      destruct rest as [|next_line rest']; [by apply IH|].
      intros Hrun. apply bind_Ok in Hrun as (found & Hfound & Hrun).
      eapply IH; [exact Hcur| |exact Hrun]. apply Forall_app. split; [exact Hacc|].
      destruct found as [t|]; simpl; [|constructor].
      constructor; [|constructor].
      destruct cur as [c|]; [|discriminate]. eapply Hrec; [by apply Hcur|exact Hdate|exact Hfound].
Qed.

End Shapes.

(** X20: what the Interactive Brokers extractor emits: a date of the form
    YYYY-MM-DD (digits and hyphens, not checked against the calendar), the
    broker's name, the currency of the section, one of the eleven codes, the
    type Buy or Sell, and a symbol that is neither a total nor a currency
    pair. *)
Theorem ib_transactions_shape text found :
  extract_ib_transactions text = Ok found →
  Forall (fun t => iso_shaped (Raw.date t) = true
                   ∧ Raw.broker t = "Interactive Brokers"
                   ∧ Raw.currency t ∈ IB_CURRENCIES
                   ∧ (Raw.type t = "Buy" ∨ Raw.type t = "Sell")
                   ∧ PyStr.startswith (Raw.stock t) "Total" = false
                   ∧ is_forex_pair (Raw.stock t) = false) found.
Proof.
  intros H.
  eapply (ib_loop_Forall_section _ _ false None []); [|done|constructor|exact H].
  intros c line next_line t Hc Hline Ht.
  apply ib_record_fields in Ht as (Hdate & Hb & Hcur & Hty & Htot & Hfx).
  destruct (ib_date_line line Hline) as (date & Hd & Hshape).
  rewrite Hd in Hdate. injection Hdate as ->.
  repeat split; try done. by rewrite Hcur.
Qed.

Lemma ib_transactions_shape_witness :
  ∃ found,
    extract_ib_transactions sample_ib_text = Ok found
    ∧ Forall (fun t => iso_shaped (Raw.date t) = true
                       ∧ Raw.broker t = "Interactive Brokers"
                       ∧ Raw.currency t ∈ IB_CURRENCIES
                       ∧ (Raw.type t = "Buy" ∨ Raw.type t = "Sell")
                       ∧ PyStr.startswith (Raw.stock t) "Total" = false
                       ∧ is_forex_pair (Raw.stock t) = false) found.
Proof.
  destruct (is_ok_Ok (extract_ib_transactions sample_ib_text)) as [found H];
    [vm_compute; reflexivity|].
  exists found. split; [exact H|].
  exact (ib_transactions_shape sample_ib_text found H).
Defined.

Section SaxoShapes.

Lemma append_assoc (a b c : string) : (a +:+ b) +:+ c = a +:+ b +:+ c.
Proof. induction a as [|x a IH]; [reflexivity|]. rewrite !append_cons. by rewrite IH. Qed.

Lemma append_nil_r (a : string) : a +:+ EmptyString = a.
Proof. induction a as [|x a IH]; [reflexivity|]. rewrite append_cons. by rewrite IH. Qed.

Lemma length_append (a b : string) :
  String.length (a +:+ b) = (String.length a + String.length b)%nat.
Proof. induction a as [|x a IH]; [reflexivity|]. rewrite append_cons. simpl. by rewrite IH. Qed.

(** A match reads a piece of the text and moves on by its length. *)
Lemma matches_consumes r c c' :
  matches r c c' →
  ∃ text, Re.rest c = text +:+ Re.rest c'
          ∧ Re.pos c' = (Re.pos c + String.length text)%nat.
Proof.
  induction 1 as [c|p a s' c Hrest Hp|r1 r2 c c1 c2 _ IH1 _ IH2|r1 r2 c c' _ IH
                  |r1 r2 c c' _ IH|r c|r c c1 c2 _ IH1 _ _ IH2|r c
                  |r c c1 c2 _ IH1 _ _ IH2|n r c c1 _ IH|c _|c _].
  - exists EmptyString. simpl. split; [reflexivity|lia].
  - exists (String a EmptyString). simpl. split; [exact Hrest|lia].
  - destruct IH1 as (t1 & Hr1 & Hp1), IH2 as (t2 & Hr2 & Hp2).
    exists (t1 +:+ t2). rewrite append_assoc, <- Hr2, <- Hr1, length_append.
    split; [reflexivity|lia].
  - exact IH.
  - exact IH.
  - exists EmptyString. simpl. split; [reflexivity|lia].
  - destruct IH1 as (t1 & Hr1 & Hp1), IH2 as (t2 & Hr2 & Hp2).
    exists (t1 +:+ t2). rewrite append_assoc, <- Hr2, <- Hr1, length_append.
    split; [reflexivity|lia].
  - exists EmptyString. simpl. split; [reflexivity|lia].
  - destruct IH1 as (t1 & Hr1 & Hp1), IH2 as (t2 & Hr2 & Hp2).
    exists (t1 +:+ t2). rewrite append_assoc, <- Hr2, <- Hr1, length_append.
    split; [reflexivity|lia].
  - exact IH.
  - exists EmptyString. simpl. split; [reflexivity|lia].
  - exists EmptyString. simpl. split; [reflexivity|lia].
Qed.

Lemma matches_group_free r c c' :
  matches r c c' → group_free r = true → Re.groups c' = Re.groups c.
Proof.
  induction 1 as [c|p a s' c Hrest Hp|r1 r2 c c1 c2 _ IH1 _ IH2|r1 r2 c c' _ IH
                  |r1 r2 c c' _ IH|r c|r c c1 c2 _ IH1 _ _ IH2|r c
                  |r c c1 c2 _ IH1 _ _ IH2|n r c c1 _ IH|c _|c _]; simpl; intros Hfree;
    try reflexivity; try discriminate.
  - apply andb_prop in Hfree as [H1 H2]. rewrite IH2, IH1; done.
  - apply andb_prop in Hfree as [H1 H2]. by apply IH.
  - apply andb_prop in Hfree as [H1 H2]. by apply IH.
  - rewrite IH2, IH1; done.
  - rewrite IH2, IH1; done.
Qed.

Lemma in_text_step s c c' text :
  in_text s c → Re.rest c = text +:+ Re.rest c' →
  Re.pos c' = (Re.pos c + String.length text)%nat →
  in_text s c' ∧ String.substring (Re.pos c) (Re.pos c' - Re.pos c) s = text.
Proof.
  intros (pre & -> & Hlen) Hrest Hpos. split.
  - exists (pre +:+ text). rewrite append_assoc, <- Hrest, length_append.
    split; [reflexivity|lia].
  - rewrite Hrest, Hpos, <- Hlen.
    replace (String.length pre + String.length text - String.length pre)%nat
      with (String.length text) by lia.
    apply substring_middle.
Qed.

Lemma matches_WordB_inv c c' : matches Re.WordB c c' → c' = c.
Proof. by inversion 1. Qed.

Lemma matches_Bol_inv c c' : matches Re.Bol c c' → c' = c ∧ Re.pos c = 0%nat.
Proof. by inversion 1. Qed.

(** What a capturing group holds after its match: the text its pattern
    read. *)
Lemma matches_Group_text s n r c c' :
  in_text s c → matches (Re.Group n r) c c' →
  ∃ text c1,
    matches r c c1 ∧ Re.rest c1 = Re.rest c' ∧ Re.pos c1 = Re.pos c'
    ∧ Re.rest c = text +:+ Re.rest c'
    ∧ in_text s c'
    ∧ Re.groups c' = (n, (Re.pos c, Re.pos c')) :: Re.groups c1
    ∧ String.substring (Re.pos c) (Re.pos c' - Re.pos c) s = text.
Proof.
  intros Hin H. apply matches_Group_inv in H as (c1 & Hm & Hrest & Hpos & Hg).
  destruct (matches_consumes _ _ _ Hm) as (text & Hr & Hp).
  exists text, c1. rewrite Hrest, Hpos, Hg.
  destruct (in_text_step s c c1 text Hin Hr Hp) as [(pre & Hs & Hl) Hsub].
  repeat split; try done. exists pre. by rewrite Hrest, Hpos.
Qed.

Lemma search_in_text r s m :
  Re.search r s = Some m →
  ∃ c c', in_text s c ∧ Re.groups c = [] ∧ matches r c c'
          ∧ m = Re.Matched s (Re.pos c) (Re.pos c') (Re.groups c').
Proof.
  intros H. apply search_sound in H as (pre & suf & p' & -> & H).
  apply try_at_sound in H as (c' & Hm & ->).
  exists (Re.Cursor p' suf (String.length pre) []), c'.
  split; [by exists pre|]. split; [reflexivity|]. split; [exact Hm|reflexivity].
Qed.

Lemma group_text_head s i j n k l gs text :
  group_text (Re.Matched s i j ((n, (k, l)) :: gs)) n = Ok text →
  text = String.substring k (l - k) s.
Proof.
  unfold group_text, Re.group. cbn [Re.m_groups List.find fst].
  rewrite Nat.eqb_refl. cbn. by intros [= <-].
Qed.

(** The currency the extractor reads is one of the nine codes of its
    pattern. *)
Lemma saxo_currency_found after m currency :
  Re.search saxo_currency_regex after = Some m →
  group_text m 1 = Ok currency → currency ∈ SAXO_CURRENCIES.
Proof.
  intros Hs Hg. apply search_in_text in Hs as (c & c' & Hin & Hg0 & Hm & ->).
  change saxo_currency_regex
    with (Re.Seq Re.WordB
            (Re.Seq (Re.Group 1 (Re.alts (Re.lit <$> SAXO_CURRENCIES))) Re.WordB)) in Hm.
  apply matches_Seq_inv in Hm as (c1 & H1 & Hm). apply matches_WordB_inv in H1 as ->.
  apply matches_Seq_inv in Hm as (c2 & H2 & H3). apply matches_WordB_inv in H3 as ->.
  apply (matches_Group_text after) in H2
    as (text & c1 & Hm & Hrest1 & _ & Hrest & _ & Hgr & Hsub); [|exact Hin].
  rewrite Hgr in Hg. apply group_text_head in Hg. rewrite Hsub in Hg. subst currency.
  apply matches_alts in Hm as (r & Hr & Hm); [|done].
  apply list_elem_of_fmap in Hr as (code & -> & Hcode).
  apply matches_lit in Hm as (Hr & Hp & _).
  assert (text = code); [|by subst].
  rewrite Hr, Hrest1 in Hrest.
  assert (Hlen : String.length text = String.length code).
  { apply (f_equal String.length) in Hrest. rewrite !length_append in Hrest. lia. }
  clear -Hrest Hlen. revert text Hrest Hlen.
  induction code as [|a code IH]; intros [|b text] Hrest Hlen; try done.
  rewrite !append_cons in Hrest. injection Hrest as -> Hrest. f_equal.
  apply IH; [exact Hrest|]. simpl in Hlen. lia.
Qed.

End SaxoShapes.

Section SaxoDates.

Lemma matches_Alt_inv r1 r2 c c' :
  matches (Re.Alt r1 r2) c c' → matches r1 c c' ∨ matches r2 c c'.
Proof. inversion 1; subst; [by left|by right]. Qed.

Lemma matches_Eps_inv c c' : matches Re.Eps c c' → c' = c.
Proof. by inversion 1. Qed.

Lemma digit_cases a :
  PyStr.is_digit a = true → a ∈ list_ascii_of_string "0123456789".
Proof.
  intros H. destruct a as [[] [] [] [] [] [] [] []]; vm_compute in H; try discriminate H;
    apply (bool_decide_unpack _); vm_compute; exact I.
Qed.

Lemma digit_char_digit k : 0 ≤ k ≤ 9 → PyStr.is_digit (PyStr.digit_char k) = true.
Proof.
  intros Hk.
  assert (Hc : k = 0 ∨ k = 1 ∨ k = 2 ∨ k = 3 ∨ k = 4 ∨ k = 5 ∨ k = 6 ∨ k = 7 ∨ k = 8 ∨ k = 9)
    by lia.
  repeat (destruct Hc as [->|Hc]; [reflexivity|]). by subst.
Qed.

Lemma fmt02_digits n :
  0 ≤ n ≤ 99 →
  ∃ a b, PyStr.fmt02 n = String a (String b EmptyString)
         ∧ PyStr.is_digit a = true ∧ PyStr.is_digit b = true.
Proof.
  intros Hn. eexists _, _. split; [reflexivity|].
  split; apply digit_char_digit; Z.div_mod_to_equations; lia.
Qed.

(** A day of one or two digits reads as a number below 100. *)
Lemma int_day a rest :
  PyStr.is_digit a = true →
  (rest = EmptyString ∨ ∃ b, PyStr.is_digit b = true ∧ rest = String b EmptyString) →
  ∃ d, PyStr.int (String a rest) = Ok d ∧ 0 ≤ d ≤ 99.
Proof.
  intros Ha Hrest. apply digit_cases in Ha. cbn [list_ascii_of_string] in Ha.
  destruct Hrest as [->|(b & Hb & ->)].
  - repeat (apply elem_of_cons in Ha as [->|Ha];
            [eexists; split; [vm_compute; reflexivity|lia]|]).
    by apply elem_of_nil in Ha.
  - apply digit_cases in Hb. cbn [list_ascii_of_string] in Hb.
    repeat (apply elem_of_cons in Ha as [->|Ha];
            [repeat (apply elem_of_cons in Hb as [->|Hb];
                     [eexists; split; [vm_compute; reflexivity|lia]|]);
             by apply elem_of_nil in Hb|]).
    by apply elem_of_nil in Ha.
Qed.

Lemma saxo_month_range name :
  1 ≤ default 1 (snd <$> List.find (fun e : string * Z => String.eqb (fst e) name) SAXO_MONTHS)
  ≤ 12.
Proof.
  unfold SAXO_MONTHS. cbn [List.find fst].
  repeat match goal with
         | |- context [String.eqb ?a name] => destruct (String.eqb a name); [simpl; lia|]
         end.
  simpl. lia.
Qed.

(** What the date pattern leaves in its first and third group: a day of one
    or two digits and a year of four. *)
Lemma saxo_date_found s m day year :
  Re.search saxo_date_regex s = Some m →
  group_text m 1 = Ok day → group_text m 3 = Ok year →
  (∃ a rest, day = String a rest ∧ PyStr.is_digit a = true
             ∧ (rest = EmptyString
                ∨ ∃ b, PyStr.is_digit b = true ∧ rest = String b EmptyString))
  ∧ ∃ y1 y2 y3 y4,
      year = String y1 (String y2 (String y3 (String y4 EmptyString)))
      ∧ PyStr.is_digit y1 = true ∧ PyStr.is_digit y2 = true
      ∧ PyStr.is_digit y3 = true ∧ PyStr.is_digit y4 = true.
Proof.
  intros Hs Hday Hyear. apply search_in_text in Hs as (c & c' & Hin & Hg0 & Hm & ->).
  change saxo_date_regex
    with (Re.Seq Re.Bol
           (Re.Seq (Re.Group 1 (Re.Seq Re.digit (Re.opt Re.digit)))
             (Re.Seq (Re.chr "-")
               (Re.Seq (Re.Group 2 (Re.alts (Re.lit_i <$> SAXO_MONTHS.*1)))
                 (Re.Seq (Re.chr "-")
                   (Re.Group 3 (Re.seqs (Re.Chr <$> [PyStr.is_digit; PyStr.is_digit;
                                                     PyStr.is_digit; PyStr.is_digit])))))))) in Hm.
  apply matches_Seq_inv in Hm as (c0 & H0 & Hm). apply matches_Bol_inv in H0 as [-> Hpos0].
  apply matches_Seq_inv in Hm as (c1 & H1 & Hm).
  apply (matches_Group_text s) in H1
    as (text1 & c1' & Hm1 & Hr1 & _ & Hrest1 & Hin1 & Hg1 & Hsub1); [|exact Hin].
  apply matches_Seq_inv in Hm as (c2 & H2 & Hm).
  pose proof (matches_group_free _ _ _ H2 eq_refl) as Hg2.
  destruct (matches_consumes _ _ _ H2) as (t2 & Hrest2 & Hp2).
  destruct (in_text_step s c1 c2 t2 Hin1 Hrest2 Hp2) as [Hin2 _].
  apply matches_Seq_inv in Hm as (c3 & H3 & Hm).
  apply (matches_Group_text s) in H3
    as (text3 & c3' & Hm3 & _ & _ & Hrest3 & Hin3 & Hg3 & Hsub3); [|exact Hin2].
  pose proof (matches_group_free _ _ _ Hm3 eq_refl) as Hg3'.
  apply matches_Seq_inv in Hm as (c4 & H4 & H5).
  pose proof (matches_group_free _ _ _ H4 eq_refl) as Hg4.
  destruct (matches_consumes _ _ _ H4) as (t4 & Hrest4 & Hp4).
  destruct (in_text_step s c3 c4 t4 Hin3 Hrest4 Hp4) as [Hin4 _].
  apply (matches_Group_text s) in H5
    as (text5 & c5' & Hm5 & Hr5 & _ & Hrest5 & Hin5 & Hg5 & Hsub5); [|exact Hin4].
  pose proof (matches_group_free _ _ _ Hm1 eq_refl) as Hg1'.
  apply matches_chrs in Hm5 as (year' & Hy & Hall & _ & Hg5'); [|done].
  (* the year *)
  assert (Hyear' : year = text5).
  { rewrite Hg5 in Hyear. apply group_text_head in Hyear. by rewrite Hsub5 in Hyear. }
  assert (Hyt : text5 = year').
  { rewrite Hy, Hr5 in Hrest5.
    assert (Hlen : String.length text5 = String.length year').
    { apply (f_equal String.length) in Hrest5. rewrite !length_append in Hrest5. lia. }
    clear -Hrest5 Hlen. revert text5 Hrest5 Hlen.
    induction year' as [|a y IH]; intros [|b t] Hrest Hlen; try done.
    rewrite !append_cons in Hrest. injection Hrest as -> Hrest. f_equal.
    apply IH; [exact Hrest|]. simpl in Hlen. lia. }
  (* the day *)
  assert (Hday' : day = text1).
  { rewrite Hg5, Hg5', Hg4, Hg3, Hg3', Hg2, Hg1 in Hday.
    unfold group_text, Re.group in Hday. cbn [Re.m_groups List.find fst Nat.eqb] in Hday.
    cbn in Hday. injection Hday as <-. exact Hsub1. }
  split.
  - subst day. apply matches_Seq_inv in Hm1 as (d1 & Hd1 & Hd2).
    apply matches_Chr_inv in Hd1 as (a & Hra & Hpa & _ & _).
    apply matches_Alt_inv in Hd2 as [Hb|He].
    + apply matches_Chr_inv in Hb as (b & Hrb & Hpb & _ & _).
      exists a, (String b EmptyString). split; [|split; [exact Hpa|right; by exists b]].
      rewrite Hra, Hrb, Hr1 in Hrest1.
      destruct text1 as [|x [|y [|z t]]]; rewrite ?append_cons in Hrest1;
        apply (f_equal String.length) in Hrest1 as Hlen;
        cbn [String.length] in Hlen; rewrite ?length_append in Hlen;
        cbn [String.length] in Hlen; try lia.
      congruence.
    + apply matches_Eps_inv in He as ->.
      exists a, EmptyString. split; [|split; [exact Hpa|by left]].
      rewrite Hra, Hr1 in Hrest1.
      destruct text1 as [|x [|y t]]; rewrite ?append_cons in Hrest1;
        apply (f_equal String.length) in Hrest1 as Hlen;
        cbn [String.length] in Hlen; rewrite ?length_append in Hlen;
        cbn [String.length] in Hlen; try lia.
      congruence.
  - subst year text5.
    destruct year' as [|y1 [|y2 [|y3 [|y4 [|y5 t]]]]]; simpl in Hall;
      repeat match goal with
             | H : Forall2 _ _ _ |- _ => inversion H; clear H; subst
             end.
    by exists y1, y2, y3, y4.
Qed.

Lemma saxo_row_fields transaction_date line_stripped t :
  saxo_row transaction_date line_stripped = Ok (Some t) →
  Raw.date t = transaction_date ∧ Raw.broker t = "Saxo Bank"
  ∧ (Raw.type t = "Buy" ∨ Raw.type t = "Sell")
  ∧ ∃ after m, Re.search saxo_currency_regex after = Some m
               ∧ group_text m 1 = Ok (Raw.currency t).
Proof.
  unfold saxo_row. intros H.
  destruct (Re.search saxo_currency_regex _) as [cm|] eqn:Hcm; [|discriminate].
  apply bind_Ok in H as (currency & Hcur & H).
  destruct (match Re.search saxo_shares_regex line_stripped with
            | Some m => Some m
            | None => Re.search saxo_shares_regex_alt line_stripped
            end) as [sm|]; [|discriminate].
  apply bind_Ok in H as (g & _ & H). apply bind_Ok in H as (x & _ & H).
  apply bind_Ok in H as (n & _ & H).
  destruct (Re.findall saxo_amount_regex line_stripped) as [|am ams]; [discriminate|].
  apply bind_Ok in H as (b & _ & H). destruct b as [b|]; [|discriminate].
  destruct (PyFloat.eqb b PyFloat.zero); [discriminate|]. injection H as <-.
  cbn [Raw.date Raw.broker Raw.type Raw.currency].
  split; [reflexivity|]. split; [reflexivity|]. split.
  - destruct (PyStr.contains "Koop" line_stripped); [by left|by right].
  - eauto.
Qed.

Lemma saxo_line_fields line t :
  saxo_line line = Ok (Some t) →
  ∃ dm day year d month,
    Re.search saxo_date_regex (PyStr.strip line) = Some dm
    ∧ group_text dm 1 = Ok day ∧ group_text dm 3 = Ok year
    ∧ PyStr.int day = Ok d ∧ 1 ≤ month ≤ 12
    ∧ saxo_row (year +:+ "-" +:+ PyStr.fmt02 month +:+ "-" +:+ PyStr.fmt02 d)
               (PyStr.strip line) = Ok (Some t).
Proof.
  unfold saxo_line. intros H.
  destruct (_ || _); [discriminate|].
  destruct (Re.search saxo_date_regex (PyStr.strip line)) as [dm|] eqn:Hdm; [|discriminate].
  destruct (_ && _); [|discriminate].
  apply bind_Ok in H as (day & Hday & H). apply bind_Ok in H as (month_nl & _ & H).
  apply bind_Ok in H as (year & Hyear & H). apply bind_Ok in H as (d & Hd & H).
  apply catch_Ok in H as [H|H]; [|discriminate].
  exists dm, day, year, d,
    (default 1 (snd <$> List.find (fun e : string * Z =>
                                     String.eqb (fst e) (PyStr.lower month_nl)) SAXO_MONTHS)).
  split; [reflexivity|]. split; [exact Hday|]. split; [exact Hyear|].
  split; [exact Hd|]. split; [apply saxo_month_range|exact H].
Qed.

End SaxoDates.

(** X21: what the Saxo Bank extractor emits: a date of the form YYYY-MM-DD
    whose month is 01 to 12 (the day, one or two digits of the line, is not
    checked against the calendar), the broker's name, one of the nine currency
    codes, and the type Buy or Sell. *)
Theorem saxo_transactions_shape text found :
  extract_saxo_transactions text = Ok found →
  Forall (fun t => iso_shaped (Raw.date t) = true
                   ∧ (∃ month, 1 ≤ month ≤ 12
                               ∧ String.substring 5 2 (Raw.date t) = PyStr.fmt02 month)
                   ∧ Raw.broker t = "Saxo Bank"
                   ∧ Raw.currency t ∈ SAXO_CURRENCIES
                   ∧ (Raw.type t = "Buy" ∨ Raw.type t = "Sell")) found.
Proof.
  intros H. eapply saxo_loop_Forall; [|constructor|exact H].
  intros line t Ht.
  apply saxo_line_fields in Ht as (dm & day & year & d & month & Hdm & Hday & Hyear
                                   & Hd & Hmonth & Hrow).
  apply saxo_row_fields in Hrow as (Hdate & Hb & Hty & after & cm & Hcm & Hcur).
  destruct (saxo_date_found _ _ _ _ Hdm Hday Hyear)
    as [(a & rest & -> & Ha & Hrest) (y1 & y2 & y3 & y4 & -> & Hy1 & Hy2 & Hy3 & Hy4)].
  destruct (int_day a rest Ha Hrest) as (d' & Hd' & Hrange).
  rewrite Hd in Hd'. injection Hd' as <-.
  destruct (fmt02_digits month ltac:(lia)) as (m1 & m2 & Hm & Hm1 & Hm2).
  destruct (fmt02_digits d Hrange) as (d1 & d2 & Hdd & Hd1 & Hd2).
  rewrite Hdate. split; [|split; [|split; [exact Hb|split; [|exact Hty]]]].
  - rewrite Hm, Hdd.
    change (iso_shaped (String y1 (String y2 (String y3 (String y4 (String "-"
              (String m1 (String m2 (String "-" (String d1 (String d2 EmptyString))))))))))
            = true).
    unfold iso_shaped. cbn [list_ascii_of_string forallb].
    rewrite Hy1, Hy2, Hy3, Hy4, Hm1, Hm2, Hd1, Hd2. reflexivity.
  - exists month. split; [exact Hmonth|]. rewrite Hm. reflexivity.
  - eapply saxo_currency_found; [exact Hcm|exact Hcur].
Qed.

Lemma saxo_transactions_shape_witness :
  Forall (fun t => iso_shaped (Raw.date t) = true
                   ∧ (∃ month, 1 ≤ month ≤ 12
                               ∧ String.substring 5 2 (Raw.date t) = PyStr.fmt02 month)
                   ∧ Raw.broker t = "Saxo Bank"
                   ∧ Raw.currency t ∈ SAXO_CURRENCIES
                   ∧ (Raw.type t = "Buy" ∨ Raw.type t = "Sell")) [sample_saxo_transaction].
Proof.
  apply (saxo_transactions_shape sample_saxo_line). vm_compute. reflexivity.
Defined.

(** ** Numbers in Belgian notation *)

Section Belgian.

Lemma chars_append (a b : string) :
  list_ascii_of_string (a +:+ b) = (list_ascii_of_string a ++ list_ascii_of_string b)%list.
Proof. induction a as [|x a IH]; [reflexivity|]. rewrite append_cons. simpl. by rewrite IH. Qed.

Lemma digit_char_range n : 0 ≤ n mod 10 ≤ 9.
Proof. pose proof (Z.mod_pos_bound n 10). lia. Qed.

Lemma number_char_not_T c : number_char c → c ≠ "T"%char.
Proof.
  intros [Hd|Hin] ->; [discriminate|].
  cbn [list_ascii_of_string] in Hin.
  repeat (apply elem_of_cons in Hin as [Hin|Hin]; [discriminate|]).
  by apply elem_of_nil in Hin.
Qed.

Lemma decimal_go_chars fuel n acc :
  Forall number_char (list_ascii_of_string acc) →
  Forall number_char (list_ascii_of_string (decimal_go fuel n acc)).
Proof.
  revert n acc. induction fuel as [|fuel IH]; intros n acc Hacc; simpl; [exact Hacc|].
  assert (Hd : Forall number_char
                 (list_ascii_of_string (String (PyStr.digit_char (n mod 10)) acc))).
  { simpl. constructor; [|exact Hacc]. left. apply digit_char_digit, digit_char_range. }
  destruct (n <? 10); [exact Hd|by apply IH].
Qed.

Lemma group3_rev_step a b c d rest :
  group3_rev (a :: b :: c :: d :: rest)
  = a :: b :: c :: ","%char :: group3_rev (d :: rest).
Proof. reflexivity. Qed.

Lemma group3_rev_chars l : Forall number_char l → Forall number_char (group3_rev l).
Proof.
  assert (H : ∀ k l, (length l ≤ k)%nat → Forall number_char l →
                     Forall number_char (group3_rev l)).
  { clear l. induction k as [|k IH]; intros l Hlen Hl.
    - destruct l; [constructor|simpl in Hlen; lia].
    - destruct l as [|a [|b [|c [|d rest]]]]; try exact Hl.
      rewrite group3_rev_step.
      inversion Hl as [|? ? Ha Hl1]; subst. inversion Hl1 as [|? ? Hb Hl2]; subst.
      inversion Hl2 as [|? ? Hc Hl3]; subst.
      constructor; [exact Ha|]. constructor; [exact Hb|]. constructor; [exact Hc|].
      constructor.
      + right. cbn [list_ascii_of_string]. apply list_elem_of_here.
      + apply IH; [simpl in *; lia|exact Hl3]. }
  apply (H (length l)). lia.
Qed.

Lemma group3_chars s :
  Forall number_char (list_ascii_of_string s) →
  Forall number_char (list_ascii_of_string (group3 s)).
Proof.
  intros H. unfold group3. rewrite list_ascii_of_string_of_list_ascii.
  apply Forall_rev, group3_rev_chars, Forall_rev, H.
Qed.

Lemma zero_pad_chars w s :
  Forall number_char (list_ascii_of_string s) →
  Forall number_char (list_ascii_of_string (zero_pad w s)).
Proof.
  intros H. unfold zero_pad. rewrite chars_append, list_ascii_of_string_of_list_ascii.
  apply Forall_app. split; [|exact H].
  apply Forall_replicate. by left.
Qed.

Lemma sign_text_chars s : Forall number_char (list_ascii_of_string (sign_text s)).
Proof.
  destruct s; simpl; [|constructor]. constructor; [|constructor]. right.
  cbn [list_ascii_of_string]. apply list_elem_of_further, list_elem_of_further,
    list_elem_of_here.
Qed.

(** A formatted number holds digits, separators, a sign, [inf] or [nan]. *)
Lemma format_fixed_chars x decimals :
  Forall number_char (list_ascii_of_string (format_fixed x decimals)).
Proof.
  assert (Hletters : ∀ s : string,
            Forall (fun c => c ∈ list_ascii_of_string ",.-infa") (list_ascii_of_string s) →
            Forall number_char (list_ascii_of_string s)).
  { intros s Hs. eapply Forall_impl; [exact Hs|]. intros c Hc. by right. }
  assert (Hnum : ∀ s n unit,
            Forall number_char
              (list_ascii_of_string
                 (sign_text s +:+ group3 (decimal_of (n / unit)) +:+
                  match decimals with
                  | O => EmptyString
                  | S _ => "." +:+ zero_pad decimals (decimal_of (n mod unit))
                  end))).
  { intros s n unit. rewrite !chars_append.
    apply Forall_app. split; [apply sign_text_chars|].
    apply Forall_app. split; [apply group3_chars, decimal_go_chars; constructor|].
    destruct decimals as [|d]; [constructor|].
    rewrite chars_append. apply Forall_app. split.
    - constructor; [|constructor]. right. cbn [list_ascii_of_string].
      apply list_elem_of_further, list_elem_of_here.
    - apply zero_pad_chars, decimal_go_chars. constructor. }
  destruct x as [s|s| |s m e]; cbn [format_fixed].
  - apply Hnum.
  - rewrite chars_append. apply Forall_app. split; [apply sign_text_chars|].
    apply Hletters. apply (bool_decide_unpack _). vm_compute. exact I.
  - apply Hletters. apply (bool_decide_unpack _). vm_compute. exact I.
  - apply Hnum.
Qed.

Lemma replace_cons_eq c by_ s : PyStr.replace c by_ (String c s) = by_ +:+ PyStr.replace c by_ s.
Proof. simpl. by rewrite Ascii.eqb_refl. Qed.

Lemma replace_cons_ne c by_ a s :
  a ≠ c → PyStr.replace c by_ (String a s) = String a (PyStr.replace c by_ s).
Proof. intros Hne. simpl. by rewrite (proj2 (Ascii.eqb_neq a c) Hne). Qed.

Lemma replace_go_placeholder rest :
  replace_go "TEMP" "." 0 (String "T" (String "E" (String "M" (String "P" rest))))
  = String "." (replace_go "TEMP" "." 0 rest).
Proof.
  assert (Hp : String.prefix "TEMP"
                 (String "T" (String "E" (String "M" (String "P" rest)))) = true).
  { simpl. apply prefix_empty. }
  cbn [replace_go]. rewrite Hp. reflexivity.
Qed.

(** The three replacements of [format_belgian_number] exchange the two
    separators, the text holding no [T]. *)
Lemma swap_by_placeholder s :
  Forall (fun c => c ≠ "T"%char) (list_ascii_of_string s) →
  replace_text "TEMP" "." (PyStr.replace "." "," (PyStr.replace "," "TEMP" s))
  = swap_separators s.
Proof.
  unfold replace_text.
  induction s as [|c s IH]; intros Hs; [reflexivity|].
  simpl in Hs. inversion Hs as [|? ? Hc Hs']; subst. specialize (IH Hs').
  cbn [swap_separators]. unfold swap_separator.
  destruct (Ascii.eqb_spec c ",") as [->|Hcomma].
  - rewrite replace_cons_eq.
    change ("TEMP" +:+ PyStr.replace "," "TEMP" s)
      with (String "T" (String "E" (String "M" (String "P" (PyStr.replace "," "TEMP" s))))).
    rewrite !replace_cons_ne by discriminate.
    rewrite replace_go_placeholder, IH. reflexivity.
  - rewrite replace_cons_ne by exact Hcomma.
    destruct (Ascii.eqb_spec c ".") as [->|Hdot].
    + rewrite replace_cons_eq.
      change ("," +:+ PyStr.replace "." "," (PyStr.replace "," "TEMP" s))
        with (String "," (PyStr.replace "." "," (PyStr.replace "," "TEMP" s))).
      cbn [replace_go String.prefix]. simpl ascii_dec. cbn iota. by rewrite IH.
    + rewrite replace_cons_ne by exact Hdot.
      cbn [replace_go String.prefix].
      destruct (ascii_dec "T" c) as [<-|_]; [done|]. by rewrite IH.
Qed.

End Belgian.

(** X22: [format_belgian_number] gives the number as the format specification
    [,.f] prints it, with every [','] and ['.'] exchanged: the placeholder the
    code goes through never meets a [TEMP] of the number's own. *)
Theorem belgian_swaps_separators num decimals s :
  format_belgian_number num decimals = Ok s →
  ∃ x, as_float num = Ok x ∧ s = swap_separators (format_fixed x decimals).
Proof.
  unfold format_belgian_number. fold (as_float num). intros H.
  apply bind_Ok in H as (x & Hx & H). exists x. split; [exact Hx|].
  injection H as <-. apply swap_by_placeholder.
  eapply Forall_impl; [apply format_fixed_chars|]. apply number_char_not_T.
Qed.

Lemma belgian_swaps_separators_witness :
  ∃ x, as_float (Float (PyFloat.of_decimal false 1234567891 (-3))) = Ok x
       ∧ "1.234.567,89" = swap_separators (format_fixed x 2).
Proof.
  apply (belgian_swaps_separators (Float (PyFloat.of_decimal false 1234567891 (-3))) 2).
  vm_compute. reflexivity.
Defined.

Section ReadBack.

Lemma replace_append c by_ a b :
  PyStr.replace c by_ (a +:+ b) = PyStr.replace c by_ a +:+ PyStr.replace c by_ b.
Proof.
  induction a as [|x a IH]; [reflexivity|]. rewrite append_cons. simpl.
  destruct (Ascii.eqb x c); rewrite IH; [by rewrite append_assoc|reflexivity].
Qed.

Lemma swap_append a b :
  swap_separators (a +:+ b) = swap_separators a +:+ swap_separators b.
Proof. induction a as [|x a IH]; [reflexivity|]. rewrite append_cons. simpl. by rewrite IH. Qed.

Lemma replace_id c by_ s :
  Forall (fun a => a ≠ c) (list_ascii_of_string s) → PyStr.replace c by_ s = s.
Proof.
  induction s as [|a s IH]; [reflexivity|]. simpl. intros H.
  inversion H as [|? ? Ha Hs]; subst.
  rewrite (proj2 (Ascii.eqb_neq a c) Ha), IH; done.
Qed.

Lemma swap_id s :
  Forall (fun a => a ≠ ","%char ∧ a ≠ "."%char) (list_ascii_of_string s) →
  swap_separators s = s.
Proof.
  induction s as [|a s IH]; [reflexivity|]. simpl. intros H.
  inversion H as [|? ? [Ha1 Ha2] Hs]; subst. unfold swap_separator.
  rewrite (proj2 (Ascii.eqb_neq a ",") Ha1), (proj2 (Ascii.eqb_neq a ".") Ha2), IH; done.
Qed.

Lemma digit_is_not c x : PyStr.is_digit c = true → PyStr.is_digit x = false → c ≠ x.
Proof. intros Hc Hx ->. congruence. Qed.

Lemma all_digits_not s x :
  all_digits s → PyStr.is_digit x = false → Forall (fun a => a ≠ x) (list_ascii_of_string s).
Proof.
  intros Hs Hx. eapply Forall_impl; [exact Hs|]. intros c Hc. by eapply digit_is_not.
Qed.

Lemma decimal_go_digits fuel n acc : all_digits acc → all_digits (decimal_go fuel n acc).
Proof.
  unfold all_digits. revert n acc.
  induction fuel as [|fuel IH]; intros n acc Hacc; simpl; [exact Hacc|].
  assert (Hd : Forall (fun c => PyStr.is_digit c = true)
                 (list_ascii_of_string (String (PyStr.digit_char (n mod 10)) acc))).
  { simpl. constructor; [|exact Hacc]. apply digit_char_digit, digit_char_range. }
  destruct (n <? 10); [exact Hd|by apply IH].
Qed.

Lemma decimal_go_app fuel n acc :
  decimal_go fuel n acc = decimal_go fuel n EmptyString +:+ acc.
Proof.
  revert n acc. induction fuel as [|fuel IH]; intros n acc; simpl; [reflexivity|].
  destruct (n <? 10); [reflexivity|].
  rewrite (IH _ (String _ acc)), (IH _ (String _ EmptyString)).
  by rewrite append_assoc.
Qed.

Lemma decimal_of_digits n : all_digits (decimal_of n) ∧ decimal_of n ≠ EmptyString.
Proof.
  split; [apply decimal_go_digits; constructor|].
  unfold decimal_of. cbn [decimal_go]. destruct (n <? 10); [done|].
  rewrite decimal_go_app. intros H. apply (f_equal String.length) in H.
  rewrite length_append in H. simpl in H. lia.
Qed.

Lemma digits_go_digit a d s :
  0 ≤ d ≤ 9 →
  PyStr.digits_go a (String (PyStr.digit_char d) s) = PyStr.digits_go (10 * a + d) s.
Proof.
  intros Hd.
  assert (Hc : d = 0 ∨ d = 1 ∨ d = 2 ∨ d = 3 ∨ d = 4 ∨ d = 5 ∨ d = 6 ∨ d = 7 ∨ d = 8 ∨ d = 9)
    by lia.
  repeat (destruct Hc as [->|Hc]; [reflexivity|]). by subst.
Qed.

Lemma decimal_go_value fuel n acc :
  0 ≤ n < 2 ^ Z.of_nat fuel →
  PyStr.digits_go 0 (decimal_go fuel n acc) = PyStr.digits_go n acc.
Proof.
  revert n acc. induction fuel as [|fuel IH]; intros n acc Hn.
  - change (2 ^ Z.of_nat 0) with 1 in Hn. assert (n = 0) as -> by lia. reflexivity.
  - cbn [decimal_go]. destruct (n <? 10) eqn:Hlt.
    + apply Z.ltb_lt in Hlt. rewrite digits_go_digit by apply digit_char_range.
      f_equal. rewrite Z.mod_small by lia. lia.
    + apply Z.ltb_ge in Hlt. rewrite IH.
      * rewrite digits_go_digit by apply digit_char_range. f_equal.
        pose proof (Z.div_mod n 10). lia.
      * rewrite Nat2Z.inj_succ, Z.pow_succ_r in Hn by lia.
        split; [apply Z.div_pos; lia|]. apply Z.div_lt_upper_bound; lia.
Qed.

Lemma decimal_of_value n rest :
  0 ≤ n → PyStr.digits_go 0 (decimal_of n +:+ rest) = PyStr.digits_go n rest.
Proof.
  intros Hn. unfold decimal_of. rewrite <- decimal_go_app. apply decimal_go_value.
  split; [exact Hn|]. rewrite Nat2Z.inj_succ, Z2Nat.id by apply Z.log2_nonneg.
  destruct (decide (n = 0)) as [->|Hne]; [reflexivity|].
  apply Z.log2_spec. lia.
Qed.

Lemma zero_pad_two f : 0 ≤ f ≤ 99 → zero_pad 2 (decimal_of f) = PyStr.fmt02 f.
Proof.
  intros Hf.
  assert (Ha : ∃ a b, f = 10 * a + b ∧ 0 ≤ a ≤ 9 ∧ 0 ≤ b ≤ 9).
  { exists (f / 10), (f mod 10). Z.div_mod_to_equations. lia. }
  destruct Ha as (a & b & -> & Ha & Hb).
  assert (Hca : a = 0 ∨ a = 1 ∨ a = 2 ∨ a = 3 ∨ a = 4 ∨ a = 5 ∨ a = 6 ∨ a = 7 ∨ a = 8 ∨ a = 9)
    by lia.
  assert (Hcb : b = 0 ∨ b = 1 ∨ b = 2 ∨ b = 3 ∨ b = 4 ∨ b = 5 ∨ b = 6 ∨ b = 7 ∨ b = 8 ∨ b = 9)
    by lia.
  repeat (destruct Hca as [->|Hca];
          [repeat (destruct Hcb as [->|Hcb]; [reflexivity|]); by subst|]).
  subst. repeat (destruct Hcb as [->|Hcb]; [reflexivity|]). by subst.
Qed.

Lemma fmt02_value f :
  0 ≤ f ≤ 99 →
  all_digits (PyStr.fmt02 f) ∧ String.length (PyStr.fmt02 f) = 2%nat
  ∧ PyStr.digits_go 0 (PyStr.fmt02 f) = Some f.
Proof.
  intros Hf.
  assert (H1 : 0 ≤ f / 10 ≤ 9) by (Z.div_mod_to_equations; lia).
  assert (H2 : 0 ≤ f mod 10 ≤ 9) by apply digit_char_range.
  split; [|split; [reflexivity|]].
  - unfold all_digits, PyStr.fmt02. simpl.
    repeat constructor; by apply digit_char_digit.
  - unfold PyStr.fmt02. rewrite !digits_go_digit by assumption. simpl. f_equal.
    Z.div_mod_to_equations. lia.
Qed.

(** *** Taking the grouping away *)

Lemma replace_chars c s :
  list_ascii_of_string (PyStr.replace c EmptyString s) = keep_but c (list_ascii_of_string s).
Proof.
  induction s as [|a s IH]; [reflexivity|].
  cbn [PyStr.replace list_ascii_of_string keep_but List.filter].
  destruct (Ascii.eqb a c); cbn [negb].
  - change (EmptyString +:+ PyStr.replace c EmptyString s)
      with (PyStr.replace c EmptyString s). exact IH.
  - cbn [list_ascii_of_string]. f_equal. exact IH.
Qed.

Lemma swap_chars s :
  list_ascii_of_string (swap_separators s) = List.map swap_separator (list_ascii_of_string s).
Proof. induction s as [|a s IH]; [reflexivity|]. simpl. by rewrite IH. Qed.

Lemma digit_swap a :
  PyStr.is_digit a = true → swap_separator a = a ∧ Ascii.eqb a "." = false.
Proof.
  intros Ha. unfold swap_separator.
  destruct (Ascii.eqb_spec a ",") as [->|_]; [discriminate|].
  destruct (Ascii.eqb_spec a ".") as [->|_]; [discriminate|]. done.
Qed.

Lemma ungroup3_rev l :
  Forall (fun c => PyStr.is_digit c = true) l →
  keep_but "." (List.map swap_separator (group3_rev l)) = l.
Proof.
  assert (H : ∀ k l, (length l ≤ k)%nat → Forall (fun c => PyStr.is_digit c = true) l →
                     keep_but "." (List.map swap_separator (group3_rev l)) = l).
  { clear l. assert (Hplain : ∀ l, Forall (fun c => PyStr.is_digit c = true) l →
                                keep_but "." (List.map swap_separator l) = l).
    { induction 1 as [|a l Ha _ IH]; [reflexivity|]. simpl.
      destruct (digit_swap a Ha) as [-> ->]. simpl. by rewrite IH. }
    induction k as [|k IH]; intros l Hlen Hl.
    - destruct l; [reflexivity|simpl in Hlen; lia].
    - destruct l as [|a [|b [|c [|d rest]]]]; try (by apply Hplain).
      rewrite group3_rev_step.
      inversion Hl as [|? ? Ha Hl1]; subst. inversion Hl1 as [|? ? Hb Hl2]; subst.
      inversion Hl2 as [|? ? Hc Hl3]; subst.
      cbn [List.map keep_but List.filter].
      destruct (digit_swap a Ha) as [-> ->], (digit_swap b Hb) as [-> ->],
        (digit_swap c Hc) as [-> ->].
      cbn [negb]. change (swap_separator ",") with "."%char.
      cbn [Ascii.eqb Bool.eqb negb]. fold (keep_but "." (List.map swap_separator
                                                           (group3_rev (d :: rest)))).
      rewrite IH; [reflexivity|simpl in *; lia|exact Hl3]. }
  apply (H (length l)). lia.
Qed.

Lemma ungroup3 s :
  all_digits s → PyStr.replace "." EmptyString (swap_separators (group3 s)) = s.
Proof.
  intros Hs. rewrite <- (string_of_list_ascii_of_string (PyStr.replace _ _ _)).
  rewrite replace_chars, swap_chars. unfold group3.
  rewrite list_ascii_of_string_of_list_ascii, List.map_rev.
  unfold keep_but. rewrite List.filter_rev.
  fold (keep_but "." (List.map swap_separator (group3_rev (rev (list_ascii_of_string s))))).
  rewrite ungroup3_rev by (by apply List.Forall_rev).
  rewrite List.rev_involutive. apply string_of_list_ascii_of_string.
Qed.

End ReadBack.

Section ReadFloat.

Lemma rev_app_chars s acc :
  list_ascii_of_string (String.rev_app s acc)
  = (List.rev (list_ascii_of_string s) ++ list_ascii_of_string acc)%list.
Proof.
  revert acc. induction s as [|a s IH]; intros acc; [reflexivity|].
  simpl. rewrite IH. simpl. by rewrite <- app_assoc.
Qed.

Lemma rev_chars s : list_ascii_of_string (String.rev s) = List.rev (list_ascii_of_string s).
Proof. unfold String.rev. rewrite rev_app_chars. simpl. by rewrite app_nil_r. Qed.

Lemma rev_rev s : String.rev (String.rev s) = s.
Proof.
  rewrite <- (string_of_list_ascii_of_string (String.rev _)).
  rewrite !rev_chars, List.rev_involutive. apply string_of_list_ascii_of_string.
Qed.

Lemma skip_blanks_id s :
  Forall (fun c => PyStr.is_blank c = false) (list_ascii_of_string s) →
  PyStr.skip_blanks s = s.
Proof. destruct s as [|a s]; [reflexivity|]. simpl. inversion 1; subst. by rewrite H2. Qed.

Lemma unblank_id s :
  Forall (fun c => PyStr.is_blank c = false) (list_ascii_of_string s) →
  PyStr.unblank s = s.
Proof.
  intros H. unfold PyStr.unblank. rewrite (skip_blanks_id s H).
  rewrite skip_blanks_id; [apply rev_rev|]. rewrite rev_chars. by apply List.Forall_rev.
Qed.

Lemma plain_char_facts c :
  plain_char c →
  PyStr.is_blank c = false ∧ c ≠ "_"%char ∧ Ascii.eqb c "e" || Ascii.eqb c "E" = false.
Proof.
  intros [Hd| ->]; [|done]. repeat split.
  - destruct (PyStr.is_blank c) eqn:Hb; [|reflexivity].
    apply digit_cases in Hd. cbn [list_ascii_of_string] in Hd.
    repeat (apply elem_of_cons in Hd as [->|Hd]; [discriminate|]). by apply elem_of_nil in Hd.
  - intros ->. discriminate.
  - destruct (Ascii.eqb_spec c "e") as [->|_]; [discriminate|].
    destruct (Ascii.eqb_spec c "E") as [->|_]; [discriminate|]. reflexivity.
Qed.

Lemma split_sign_digit c rest :
  PyStr.is_digit c = true → PyStr.split_sign (String c rest) = (false, String c rest).
Proof.
  intros Hd. apply digit_cases in Hd. cbn [list_ascii_of_string] in Hd.
  repeat (apply elem_of_cons in Hd as [->|Hd]; [reflexivity|]). by apply elem_of_nil in Hd.
Qed.

Lemma lower_digit c rest :
  PyStr.is_digit c = true → PyStr.lower (String c rest) = String c (PyStr.lower rest).
Proof.
  intros Hd. apply digit_cases in Hd. cbn [list_ascii_of_string] in Hd.
  repeat (apply elem_of_cons in Hd as [->|Hd]; [reflexivity|]). by apply elem_of_nil in Hd.
Qed.

Lemma ungroup_go_id prev s :
  prev ≠ Some "_"%char →
  Forall (fun c => c ≠ "_"%char) (list_ascii_of_string s) →
  PyStr.ungroup_go prev s = Some s.
Proof.
  revert prev. induction s as [|a s IH]; intros prev Hprev Hs; simpl.
  - by rewrite bool_decide_eq_false_2.
  - simpl in Hs. inversion Hs as [|? ? Ha Hs']; subst.
    rewrite (proj2 (Ascii.eqb_neq a "_") Ha).
    rewrite (bool_decide_eq_false_2 _ Hprev). simpl.
    rewrite IH; [reflexivity|congruence|exact Hs'].
Qed.

Lemma split_exp_id s :
  Forall (fun c => Ascii.eqb c "e" || Ascii.eqb c "E" = false) (list_ascii_of_string s) →
  PyStr.split_exp s = (s, None).
Proof.
  induction s as [|a s IH]; [reflexivity|]. simpl. intros H.
  inversion H as [|? ? Ha Hs]; subst. rewrite Ha, IH; done.
Qed.

Lemma split_point_dot D FF :
  all_digits D → PyStr.split_point (D +:+ "." +:+ FF) = (D, Some FF).
Proof.
  induction D as [|a D IH]; [reflexivity|]. intros H.
  inversion H as [|? ? Ha HD]; subst. rewrite append_cons. simpl.
  destruct (Ascii.eqb_spec a ".") as [->|_]; [discriminate|]. rewrite IH; done.
Qed.

(** [float] reads digits, a point and digits as the number they spell. *)
Lemma float_plain D FF ip fp :
  all_digits D → D ≠ EmptyString → all_digits FF →
  PyStr.digits_go 0 D = Some ip → PyStr.digits_go 0 FF = Some fp →
  PyStr.float (D +:+ "." +:+ FF)
  = Ok (PyFloat.of_decimal false (ip * 10 ^ Z.of_nat (String.length FF) + fp)
                           (0 - Z.of_nat (String.length FF))).
Proof.
  intros HD Hne HFF Hip Hfp.
  assert (Hplain : Forall plain_char (list_ascii_of_string (D +:+ "." +:+ FF))).
  { rewrite !chars_append. apply Forall_app. split.
    - eapply Forall_impl; [exact HD|]. intros c Hc. by left.
    - simpl. constructor; [by right|].
      eapply Forall_impl; [exact HFF|]. intros c Hc. by left. }
  unfold PyStr.float. rewrite unblank_id
    by (eapply Forall_impl; [exact Hplain|]; intros c Hc; by apply plain_char_facts).
  destruct D as [|c D']; [done|].
  assert (Hc : PyStr.is_digit c = true) by (by inversion HD).
  revert Hplain. rewrite append_cons. intros Hplain.
  rewrite split_sign_digit by exact Hc.
  rewrite lower_digit by exact Hc.
  destruct (decide _) as [[H|H]|_].
  { injection H as -> _. discriminate. }
  { injection H as -> _. discriminate. }
  destruct (decide _) as [H|_].
  { injection H as -> _. discriminate. }
  unfold PyStr.ungroup. rewrite ungroup_go_id;
    [|done|eapply Forall_impl; [exact Hplain|]; intros a Ha; by apply plain_char_facts].
  cbn [mbind option_bind]. unfold PyStr.decimal.
  rewrite split_exp_id
    by (eapply Forall_impl; [exact Hplain|]; intros a Ha; by apply plain_char_facts).
  rewrite <- append_cons, split_point_dot by exact HD.
  cbn [default from_option id String.length Nat.add Nat.eqb]. unfold PyStr.digits_or_empty.
  rewrite Hip. cbn [mbind option_bind id]. rewrite Hfp. reflexivity.
Qed.

Lemma scaled_nonneg x decimals : 0 ≤ scaled x decimals.
Proof.
  destruct x as [s|s| |s m e]; simpl; try lia.
  assert (Hp : 0 ≤ 10 ^ Z.of_nat decimals) by (apply Z.pow_nonneg; lia).
  destruct e as [|p|p].
  - lia.
  - assert (0 ≤ 2 ^ Z.pos p) by (apply Z.pow_nonneg; lia). nia.
  - unfold PyFloat.div_half_even.
    assert (Hq : 0 ≤ (Z.pos m * 10 ^ Z.of_nat decimals) / Z.pos (2 ^ p))
      by (apply Z.div_pos; lia).
    destruct (_ ?= _); [destruct (Z.even _)|..]; lia.
Qed.

(** The Saxo Bank decoder reads a number printed with two decimals back as
    the hundredths it was printed from. *)
Lemma read_back_hundredths s n :
  0 ≤ n →
  amount_value
    (swap_separators
       (sign_text s +:+ group3 (decimal_of (n / 100)) +:+ "." +:+
        zero_pad 2 (decimal_of (n mod 100))))
  = Ok (PyFloat.of_decimal false n (-2)).
Proof.
  intros Hn.
  assert (Hf : 0 ≤ n mod 100 ≤ 99) by (pose proof (Z.mod_pos_bound n 100); lia).
  assert (Hi : 0 ≤ n / 100) by (apply Z.div_pos; lia).
  rewrite zero_pad_two by exact Hf.
  destruct (fmt02_value (n mod 100) Hf) as (Hfd & Hflen & Hfv).
  destruct (decimal_of_digits (n / 100)) as [HD HDne].
  set (D := decimal_of (n / 100)) in *. set (FF := PyStr.fmt02 (n mod 100)) in *.
  assert (Hsign : PyStr.replace "-" EmptyString
                    (PyStr.replace "," "."
                       (PyStr.replace "." EmptyString (swap_separators (sign_text s))))
                  = EmptyString) by (by destruct s).
  unfold amount_value.
  rewrite !swap_append, !replace_append, Hsign, ungroup3 by exact HD.
  rewrite (swap_id FF)
    by (eapply Forall_impl; [exact Hfd|]; intros c Hc; split; intros ->; discriminate).
  change (swap_separators ".") with ",".
  rewrite (replace_id "." _ FF) by (by apply all_digits_not).
  rewrite (replace_id "," _ FF) by (by apply all_digits_not).
  rewrite (replace_id "-" _ FF) by (by apply all_digits_not).
  rewrite (replace_id "," _ D) by (by apply all_digits_not).
  rewrite (replace_id "-" _ D) by (by apply all_digits_not).
  change (PyStr.replace "-" EmptyString
            (PyStr.replace "," "." (PyStr.replace "." EmptyString ","))) with ".".
  change (EmptyString +:+ D +:+ "." +:+ FF) with (D +:+ "." +:+ FF).
  assert (HDv : PyStr.digits_go 0 D = Some (n / 100)).
  { subst D. rewrite <- (append_nil_r (decimal_of (n / 100))).
    rewrite decimal_of_value by exact Hi. reflexivity. }
  rewrite (float_plain D FF (n / 100) (n mod 100) HD HDne Hfd HDv Hfv).
  rewrite Hflen. f_equal. f_equal. change (10 ^ Z.of_nat 2) with 100.
  pose proof (Z.div_mod n 100). lia.
Qed.

End ReadFloat.

(** X23: a number printed by [format_belgian_number] with two decimals is read
    back by the amount decoder of the Saxo Bank extractor as the magnitude of
    [round(x, 2)]: the printer and the decoder agree on the notation and on
    the rounding. *)
Theorem belgian_reads_back x s :
  format_belgian_number (Float x) 2 = Ok s →
  amount_value s = Ok (PyFloat.round2 (PyFloat.abs x)).
Proof.
  unfold format_belgian_number. cbn [mbind result_bind]. intros [= <-].
  rewrite swap_by_placeholder
    by (eapply Forall_impl; [apply format_fixed_chars|]; apply number_char_not_T).
  destruct x as [sg|sg| |sg m e].
  - apply (read_back_hundredths sg 0). lia.
  - destruct sg; reflexivity.
  - reflexivity.
  - etransitivity;
      [exact (read_back_hundredths sg (scaled (S754_finite sg m e) 2)
                (scaled_nonneg _ _))|].
    reflexivity.
Qed.

Lemma belgian_reads_back_witness :
  format_belgian_number (Float (PyFloat.of_decimal true 1234567891 (-3))) 2
  = Ok "-1.234.567,89"
  ∧ amount_value "-1.234.567,89"
    = Ok (PyFloat.round2 (PyFloat.abs (PyFloat.of_decimal true 1234567891 (-3)))).
Proof.
  assert (H : format_belgian_number (Float (PyFloat.of_decimal true 1234567891 (-3))) 2
              = Ok "-1.234.567,89") by (vm_compute; reflexivity).
  split; [exact H|].
  exact (belgian_reads_back _ _ H).
Defined.
